(** * Zapdos voice helpdesk: the transcription route and the voice console

    A shallow embedding of the two TypeScript sources of the repository:

    - the Whisper transcription route ([POST], [detectLanguagesInText],
      [getContextPrompt]), which exists in two listings: the first checks the
      MIME type by substring and hands the upload to the provider directly
      ([Whisper1]); the second checks it by exact membership and goes through
      a temporary file ([Whisper2]);
    - the React component [VoiceConsole] ([startRecording], [stopRecording],
      [sendToWhisper], [processBusinessLogic], the text-to-speech effect and
      [handleReset]) in module [Console].

    JavaScript strings are sequences of UTF-16 code units; asynchronous
    functions are run to completion against an oracle giving the outcome of
    every platform or network call, and they log the calls they make in a
    trace. *)

From Stdlib Require Import List NArith ZArith QArith String Ascii Bool Lia DecimalString.
Import ListNotations.
Close Scope Q_scope.

Set Implicit Arguments.
Set Warnings "-register-all".

(* ================================================================== *)
(** * JavaScript strings and values *)
(* ================================================================== *)

Module Js.

(** A string is its sequence of UTF-16 code units. *)
Definition jsstring := list N.

(** Source literals are written as UTF-8 text and decoded into code units. *)
Definition cont (b : N) : N := N.land b 63.

Fixpoint utf8_points (l : list N) : list N :=
  match l with
  | [] => []
  | b :: t =>
      if b <? 128 then b :: utf8_points t
      else if b <? 224 then
        match t with
        | b1 :: t1 => (N.land b 31 * 64 + cont b1) :: utf8_points t1
        | _ => []
        end
      else if b <? 240 then
        match t with
        | b1 :: b2 :: t2 =>
            (N.land b 15 * 4096 + cont b1 * 64 + cont b2) :: utf8_points t2
        | _ => []
        end
      else
        match t with
        | b1 :: b2 :: b3 :: t3 =>
            (N.land b 7 * 262144 + cont b1 * 4096 + cont b2 * 64 + cont b3)
              :: utf8_points t3
        | _ => []
        end
  end%N.

Definition utf16_units (cp : N) : list N :=
  if (cp <? 65536)%N then [cp]
  else let v := (cp - 65536)%N in
       [(55296 + v / 1024)%N; (56320 + v mod 1024)%N].

Definition lit (s : string) : jsstring :=
  flat_map utf16_units (utf8_points (map N_of_ascii (list_ascii_of_string s))).

Arguments lit : simpl never.

Definition str_eqb (a b : jsstring) : bool :=
  if list_eq_dec N.eq_dec a b then true else false.

(** [s.startsWith(k)] and [s.includes(k)] *)
Fixpoint startsWith (s k : jsstring) {struct k} : bool :=
  match k, s with
  | [], _ => true
  | _ :: _, [] => false
  | c :: k', d :: s' => (d =? c)%N && startsWith s' k'
  end.

Fixpoint includes (s k : jsstring) : bool :=
  startsWith s k ||
  match s with
  | [] => false
  | _ :: s' => includes s' k
  end.

(** [s.slice(0, n)] for a non-negative [n] *)
Definition slice0 (n : nat) (s : jsstring) : jsstring := firstn n s.

(** [s.split(sep)[1]] for a one-unit separator: the text between the first
    and the second occurrence of [sep]; [None] (undefined) without any. *)
Fixpoint upto (sep : N) (s : jsstring) : jsstring :=
  match s with
  | [] => []
  | c :: s' => if (c =? sep)%N then [] else c :: upto sep s'
  end.

Fixpoint split_second (sep : N) (s : jsstring) : option jsstring :=
  match s with
  | [] => None
  | c :: s' => if (c =? sep)%N then Some (upto sep s') else split_second sep s'
  end.

(** A character class [[lo-hi]] and [RegExp.prototype.test] for a pattern made
    of one class (no flags: the match is on code units). *)
Definition in_range (lo hi c : N) : bool := ((lo <=? c) && (c <=? hi))%N.

Definition test_class (cls : N -> bool) (s : jsstring) : bool := existsb cls s.

(** WhiteSpace and LineTerminator code units, the ones [trim] strips. *)
Definition isWhiteSpace (c : N) : bool :=
  existsb (N.eqb c)
    [9; 10; 11; 12; 13; 32; 160; 5760; 8232; 8233; 8239; 8287; 12288; 65279]%N
  || in_range 8192 8202 c.

Fixpoint trimStart (s : jsstring) : jsstring :=
  match s with
  | [] => []
  | c :: s' => if isWhiteSpace c then trimStart s' else s
  end.

Definition trim (s : jsstring) : jsstring :=
  rev (trimStart (rev (trimStart s))).

(** Lower-casing restricted to Basic Latin; the full [toLowerCase] of the
    platform is a parameter of the components below and agrees with this
    function on ASCII text. *)
Definition isAscii (c : N) : bool := (c <? 128)%N.

Definition asciiLowerUnit (c : N) : N :=
  if in_range 65 90 c then (c + 32)%N else c.

Definition asciiLower (s : jsstring) : jsstring := map asciiLowerUnit s.

(** Decimal rendering of a natural number, as [String(n)] gives it. *)
Definition decimal (n : N) : jsstring :=
  lit (DecimalString.NilZero.string_of_uint (N.to_uint n)).

(** [x.toFixed(2)] for the exact quotient [x = num / 2^k]: the integer [n]
    nearest to [100 * x] (the larger one on a tie), printed with two
    decimals. *)
Definition pad2 (n : N) : jsstring :=
  if (n <? 10)%N then lit "0" ++ decimal n else decimal n.

Definition toFixed2_pow2 (num : N) (k : N) : jsstring :=
  let n := ((num * 200 + 2 ^ k) / 2 ^ (k + 1))%N in
  decimal (n / 100) ++ lit "." ++ pad2 (n mod 100).

(** Values that cross the JSON boundary or sit in a React state cell.
    Numbers enter the code only through their truthiness; they are carried
    as integers. *)
Inductive value :=
| VUndefined
| VNull
| VBool (b : bool)
| VNumber (z : Z)
| VString (s : jsstring)
| VArray (items : list value)
| VObject (fields : list (jsstring * value)).

Definition truthy (v : value) : bool :=
  match v with
  | VUndefined | VNull => false
  | VBool b => b
  | VNumber z => negb (z =? 0)%Z
  | VString s => match s with [] => false | _ => true end
  | VArray _ | VObject _ => true
  end.

(** [String(v)], the text a constructor or a regular expression makes of a
    value that is not a string already. *)
Definition decimalZ (z : Z) : jsstring :=
  if (z <? 0)%Z then lit "-" ++ decimal (Z.to_N (- z)) else decimal (Z.to_N z).

Fixpoint to_string (v : value) : jsstring :=
  match v with
  | VUndefined => lit "undefined"
  | VNull => lit "null"
  | VBool b => if b then lit "true" else lit "false"
  | VNumber z => decimalZ z
  | VString s => s
  | VArray items =>
      let item x :=
        match x with
        | VUndefined | VNull => []
        | _ => to_string x
        end in
      (fix join (l : list value) : jsstring :=
         match l with
         | [] => []
         | [x] => item x
         | x :: l' => item x ++ lit "," ++ join l'
         end) items
  | VObject _ => lit "[object Object]"
  end.

Fixpoint assoc {A} (k : jsstring) (l : list (jsstring * A)) : option A :=
  match l with
  | [] => None
  | (k', a) :: l' => if str_eqb k' k then Some a else assoc k l'
  end.

(** An exception value, as far as the handlers inspect it. *)
Record Exn := {
  e_status : option N;
  e_code : option jsstring;
  e_message : option jsstring;
  e_toString : jsstring
}.

(** The [TypeError] the engine raises on a property access or a call that
    cannot be made; its text is the engine's. *)
Definition typeError (what : jsstring) : Exn :=
  {| e_status := None; e_code := None; e_message := Some what;
     e_toString := lit "TypeError: " ++ what |}.

(** [data.prop] on a parsed JSON value: [None] when the access itself throws
    (on [null] and [undefined]). *)
Definition get_prop (data : value) (prop : jsstring) : option value :=
  match data with
  | VUndefined | VNull => None
  | VObject fields =>
      Some (match assoc prop fields with Some v => v | None => VUndefined end)
  | _ => Some VUndefined
  end.

(** An uploaded file or blob: name, MIME type and size in bytes. *)
Record File := { f_name : jsstring; f_type : jsstring; f_size : N }.

Inductive entry :=
| EFile (f : File)
| EString (s : jsstring).

Definition FormData := list (jsstring * entry).

(** [formData.get(name)]: the first entry of that name, [None] for null. *)
Definition formData_get (name : jsstring) (fd : FormData) : option entry :=
  assoc name fd.

End Js.

Import Js.


(* ================================================================== *)
(** * The transcription route: shared vocabulary *)
(* ================================================================== *)

Module Route.

(** What the provider's [transcriptions.create] answers with. *)
Record Transcription := {
  t_text : jsstring;
  t_language : option jsstring;
  t_duration : value;
  t_segments : value
}.

(** The [file] argument of the call: the upload itself, or a read stream on a
    path of the local file system. *)
Inductive FileSource :=
| Upload (f : File)
| ReadStream (path : jsstring).

Record WhisperArgs := {
  a_file : FileSource;
  a_model : jsstring;
  a_language : option jsstring;
  a_response_format : jsstring;
  a_prompt : jsstring;
  a_temperature : Z
}.

Inductive Event :=
| ConsoleLog
| ConsoleError (e : Exn)
| WriteFile (path : jsstring) (f : File)
| Unlink (path : jsstring)
| WhisperCall (args : WhisperArgs).

Record Success := {
  r_transcript : jsstring;
  r_language : jsstring;
  r_detectedLanguages : list jsstring;
  r_duration : value;
  r_segments : value;
  r_fileName : jsstring;
  r_fileSize : N;
  r_autoDetected : bool
}.

Inductive Body :=
| ErrorBody (error : jsstring) (details : option jsstring)
| SuccessBody (s : Success).

(** [NextResponse.json(body, { status })]; the status is 200 when omitted. *)
Record Response := { status : N; body : Body }.

Definition json_error (msg : jsstring) (st : N) : Response :=
  {| status := st; body := ErrorBody msg None |}.

(** The request body: [request.formData()] rejects on a body that is not a
    form, and resolves to the parsed fields otherwise. *)
Definition Request := (Exn + FormData)%type.

Definition entry_truthy (e : option entry) : bool :=
  match e with
  | None => false
  | Some (EFile _) => true
  | Some (EString s) => truthy (VString s)
  end.

Definition entry_is (e : option entry) (s : jsstring) : bool :=
  match e with
  | Some (EString s') => str_eqb s' s
  | _ => false
  end.

(** [new Set<string>()] with [add], listed by [Array.from] in insertion
    order. *)
Definition set_add (x : jsstring) (s : list jsstring) : list jsstring :=
  if existsb (str_eqb x) s then s else s ++ [x].

Definition add_if (b : bool) (x : jsstring) (s : list jsstring) :=
  if b then set_add x s else s.

Definition maxSize : N := 25 * 1024 * 1024.

(** The files left on disk by the [WriteFile] and [Unlink] calls of a trace. *)
Fixpoint fs_after (files : list jsstring) (tr : list Event) : list jsstring :=
  match tr with
  | [] => files
  | WriteFile p _ :: tr' => fs_after (p :: files) tr'
  | Unlink p :: tr' =>
      fs_after (filter (fun q => negb (str_eqb q p)) files) tr'
  | _ :: tr' => fs_after files tr'
  end.

Definition TypeError_type : Exn :=
  typeError (lit "Cannot read properties of undefined (reading 'includes')").

Definition TypeError_toLowerCase : Exn :=
  typeError (lit "language.toLowerCase is not a function").

(** The body of the status probe. *)
Record StatusInfo := {
  i_status : jsstring;
  i_service : jsstring;
  i_supportedLanguages : list (jsstring * jsstring);
  i_features : list jsstring;
  i_maxFileSize : jsstring;
  i_supportedFormats : list jsstring
}.

End Route.

Import Route.

(* ================================================================== *)
(** * The route, first listing: substring MIME check, direct upload *)
(* ================================================================== *)

Module Whisper1.

Section WithPlatform.

(** [String.prototype.toLowerCase] of the platform. *)
Variable toLowerCase : jsstring -> jsstring.

(** [process.env.NODE_ENV === 'development'] *)
Variable development : bool.

(** The provider: what [openai.audio.transcriptions.create] does with its
    arguments, a transcription or a thrown error. *)
Variable whisper : WhisperArgs -> Transcription + Exn.

Definition SUPPORTED_LANGUAGES : list (jsstring * jsstring) :=
  [(lit "en", lit "English"); (lit "hi", lit "Hindi"); (lit "ta", lit "Tamil");
   (lit "te", lit "Telugu"); (lit "ml", lit "Malayalam");
   (lit "kn", lit "Kannada"); (lit "bn", lit "Bengali");
   (lit "gu", lit "Gujarati"); (lit "mr", lit "Marathi");
   (lit "pa", lit "Punjabi"); (lit "ur", lit "Urdu"); (lit "or", lit "Odia");
   (lit "as", lit "Assamese")].

Definition prompts : list (jsstring * jsstring) :=
  [
   (lit "hi",
    lit "सरकारी सेवाएं, बिजली कटौती, पानी की टंकी, कल्याण योजनाएं, खेती, शिक्षा");
   (lit "ta",
    lit "அரசு சேவைகள், மின்வெட்டு, தண்ணீர் தொட்டி, நலத்திட்டங்கள், விவசாயம், கல்வி");
   (lit "te",
    lit "ప్రభుత్వ సేవలు, విద్యుత్ కోత, నీటి ట్యాంక్, సంక్షేమ పథకాలు, వ్యవసాయం, విద్య");
   (lit "ml",
    lit "സർക്കാർ സേവനങ്ങൾ, വൈദ്യുതി മുടക്കം, വെള്ള ടാങ്ക്, ക്ഷേമ പദ്ധതികൾ, കൃഷി, വിദ്യാഭ്യാസം");
   (lit "kn",
    lit "ಸರ್ಕಾರಿ ಸೇವೆಗಳು, ವಿದ್ಯುತ್ ಕಡಿತ, ನೀರಿನ ಟ್ಯಾಂಕ್, ಕಲ್ಯಾಣ ಯೋಜನೆಗಳು, ಕೃಷಿ, ಶಿಕ್ಷಣ");
   (lit "bn",
    lit "সরকারি সেবা, বিদ্যুৎ বিভ্রাট, জলের ট্যাংক, কল্যাণ প্রকল্প, কৃষি, শিক্ষা");
   (lit "gu",
    lit "સરકારી સેવાઓ, વીજ કાપ, પાણીની ટાંકી, કલ્યાણ યોજનાઓ, ખેતી, શિક્ષણ");
   (lit "mr",
    lit "सरकारी सेवा, वीज खंडित, पाण्याची टाकी, कल्याण योजना, शेती, शिक्षण");
   (lit "pa",
    lit "ਸਰਕਾਰੀ ਸੇਵਾਵਾਂ, ਬਿਜਲੀ ਕਟੌਤੀ, ਪਾਣੀ ਦੀ ਟੈਂਕੀ, ਭਲਾਈ ਯੋਜਨਾਵਾਂ, ਖੇਤੀ, ਸਿੱਖਿਆ");
   (lit "en",
    lit "Government services, power outage, water tank, welfare schemes, farming, education")
  ].

Definition prompt_en : jsstring :=
  match assoc (lit "en") prompts with Some p => p | None => [] end.

(** [prompts[language] || prompts['en']], for the language codes the route
    passes in. *)
Definition getContextPrompt (language : jsstring) : jsstring :=
  match assoc language prompts with
  | Some (c :: p) => c :: p
  | _ => prompt_en
  end.

Definition detectLanguagesInText (text : jsstring) : list jsstring :=
  let languages := [] in
  let languages := add_if (test_class (in_range 0x0900 0x097F) text) (lit "Hindi") languages in
  let languages := add_if (test_class (in_range 0x0B80 0x0BFF) text) (lit "Tamil") languages in
  let languages := add_if (test_class (in_range 0x0C00 0x0C7F) text) (lit "Telugu") languages in
  let languages := add_if (test_class (in_range 0x0D00 0x0D7F) text) (lit "Malayalam") languages in
  let languages := add_if (test_class (in_range 0x0C80 0x0CFF) text) (lit "Kannada") languages in
  let languages := add_if (test_class (in_range 0x0980 0x09FF) text) (lit "Bengali") languages in
  let languages := add_if (test_class (in_range 0x0A80 0x0AFF) text) (lit "Gujarati") languages in
  let languages := add_if (test_class (in_range 0x0A00 0x0A7F) text) (lit "Punjabi") languages in
  let languages :=
    add_if (test_class (fun c => in_range 97 122 c || in_range 65 90 c) text)
      (lit "English") languages in
  languages.

Definition validTypes : list jsstring :=
  [lit "audio/webm"; lit "audio/wav"; lit "audio/mp3"; lit "audio/m4a";
   lit "audio/mpeg"; lit "audio/ogg"].

(** [audioFile.type.includes(type.split('/')[1])]; an undefined argument of
    [includes] is searched for as the text "undefined". *)
Definition type_matches (fileType type : jsstring) : bool :=
  match split_second 47 type with
  | Some sub => includes fileType sub
  | None => includes fileType (lit "undefined")
  end.

Definition invalid_type_message (ty : jsstring) : jsstring :=
  lit "Invalid file type: " ++ ty ++
  lit ". Supported types: webm, wav, mp3, m4a, ogg".

Definition too_large_message (size : N) : jsstring :=
  lit "File too large: " ++ toFixed2_pow2 size 20 ++ lit "MB. Maximum: 25MB".

(** [language?.toLowerCase().slice(0, 2)]: undefined on a missing field, a
    [TypeError] on a field that is a file. *)
Definition normalize (language : option entry) : Exn + option jsstring :=
  match language with
  | None => inr None
  | Some (EString s) => inr (Some (slice0 2 (toLowerCase s)))
  | Some (EFile _) => inl TypeError_toLowerCase
  end.

Definition supported (normalizedLang : option jsstring) : option jsstring :=
  match normalizedLang with
  | Some l =>
      match assoc l SUPPORTED_LANGUAGES with
      | Some _ => Some l
      | None => None
      end
  | None => None
  end.

Definition or_else (a : option jsstring) (b : jsstring) : jsstring :=
  match a with
  | Some (c :: s) => c :: s
  | _ => b
  end.

(** The [try] block of [POST]: a response, or the exception that reaches the
    [catch], with the calls made on the way. *)
Definition POST_try (request : Request) : (Exn + Response) * list Event :=
  match request with
  | inl e => (inl e, [])
  | inr formData =>
      let audioFile := formData_get (lit "audio") formData in
      let language := formData_get (lit "language") formData in
      let useAutoDetect :=
        negb (entry_truthy language) || entry_is language (lit "auto") in
      match audioFile with
      | None | Some (EString []) =>
          (inr (json_error (lit "No audio file provided") 400), [])
      | Some (EString (_ :: _)) => (inl TypeError_type, [])
      | Some (EFile audioFile) =>
          if negb (existsb (type_matches (f_type audioFile)) validTypes) then
            (inr (json_error (invalid_type_message (f_type audioFile)) 400), [])
          else if (maxSize <? f_size audioFile)%N then
            (inr (json_error (too_large_message (f_size audioFile)) 400), [])
          else
            match normalize language with
            | inl e => (inl e, [])
            | inr normalizedLang =>
                let whisperLanguage := supported normalizedLang in
                let contextPrompt :=
                  match whisperLanguage with
                  | Some l => getContextPrompt l
                  | None => getContextPrompt (lit "en")
                  end in
                let args :=
                  {| a_file := Upload audioFile;
                     a_model := lit "whisper-1";
                     a_language :=
                       if negb useAutoDetect then whisperLanguage else None;
                     a_response_format := lit "verbose_json";
                     a_prompt := contextPrompt;
                     a_temperature := 0 |} in
                match whisper args with
                | inr e => (inl e, [ConsoleLog; WhisperCall args])
                | inl transcription =>
                    let detectedLanguages :=
                      detectLanguagesInText (t_text transcription) in
                    (inr {| status := 200;
                            body := SuccessBody
                              {| r_transcript := t_text transcription;
                                 r_language :=
                                   or_else (t_language transcription)
                                     (or_else whisperLanguage (lit "unknown"));
                                 r_detectedLanguages := detectedLanguages;
                                 r_duration := t_duration transcription;
                                 r_segments := t_segments transcription;
                                 r_fileName := f_name audioFile;
                                 r_fileSize := f_size audioFile;
                                 r_autoDetected := useAutoDetect |} |},
                     [ConsoleLog; WhisperCall args; ConsoleLog])
                end
            end
      end
  end.

Definition status_is (e : Exn) (n : N) : bool :=
  match e_status e with Some s => (s =? n)%N | None => false end.

Definition code_is (e : Exn) (c : jsstring) : bool :=
  match e_code e with Some s => str_eqb s c | None => false end.

(** The [catch] block. *)
Definition POST_catch (error : Exn) : Response :=
  if status_is error 429 then
    json_error (lit "Rate limit exceeded. Please try again in a moment.") 429
  else if status_is error 401 then
    json_error (lit "Invalid API key configuration. Please contact support.") 500
  else if code_is error (lit "insufficient_quota") then
    json_error (lit "API quota exceeded. Please contact support.") 503
  else
    {| status := 500;
       body := ErrorBody (or_else (e_message error) (lit "Transcription failed"))
                 (if development then Some (e_toString error) else None) |}.

Definition POST (request : Request) : Response * list Event :=
  match POST_try request with
  | (inr response, tr) => (response, tr)
  | (inl error, tr) => (POST_catch error, tr ++ [ConsoleError error])
  end.

End WithPlatform.

(** The status probe; [Object.entries] lists the languages in the order of
    the table. *)
Definition GET : N * StatusInfo :=
  (200%N,
   {| i_status := lit "ok";
      i_service := lit "Whisper Transcription API";
      i_supportedLanguages := SUPPORTED_LANGUAGES;
      i_features :=
        [lit "Auto language detection";
         lit "Multi-language support (99+ languages)";
         lit "Code-mixing support (Hinglish, Tanglish, etc.)";
         lit "Word-level timestamps";
         lit "High accuracy transcription"];
      i_maxFileSize := lit "25MB";
      i_supportedFormats :=
        [lit "audio/webm"; lit "audio/wav"; lit "audio/mp3"; lit "audio/m4a";
         lit "audio/mpeg"; lit "audio/ogg"] |}).

End Whisper1.

(* ================================================================== *)
(** * The route, second listing: exact MIME check, temporary file *)
(* ================================================================== *)

Module Whisper2.

(** What the route takes from its host: the clock, the temporary directory,
    [path.join], and the outcome of writing a file. *)
Record Host := {
  now : N;
  tmpdir : jsstring;
  path_join : jsstring -> jsstring -> jsstring;
  writeFile : jsstring -> File -> option Exn
}.

Section WithPlatform.

Variable toLowerCase : jsstring -> jsstring.
Variable host : Host.
Variable whisper : WhisperArgs -> Transcription + Exn.

Definition SUPPORTED_LANGUAGES : list (jsstring * jsstring) :=
  [(lit "en", lit "English"); (lit "hi", lit "Hindi"); (lit "ta", lit "Tamil");
   (lit "te", lit "Telugu"); (lit "ml", lit "Malayalam");
   (lit "kn", lit "Kannada"); (lit "bn", lit "Bengali");
   (lit "gu", lit "Gujarati"); (lit "mr", lit "Marathi");
   (lit "pa", lit "Punjabi"); (lit "ur", lit "Urdu"); (lit "or", lit "Odia");
   (lit "as", lit "Assamese")].

Definition prompts : list (jsstring * jsstring) :=
  [
   (lit "hi",
    lit "सरकारी सेवाएं, बिजली कटौती, पानी की टंकी, कल्याण योजनाएं, खेती, शिक्षा");
   (lit "ta",
    lit "அரசு சேவைகள், மின்வெட்டு, தண்ணீர் தொட்டி, நலத்திட்டங்கள், விவசாயம், கல்வி");
   (lit "te",
    lit "ప్రభుత్వ సేవలు, విద్యుత్ కోత, నీటి ట్యాంక్, సంక్షేమ పథకాలు, వ్యవసాయం, విద్య");
   (lit "ml",
    lit "സർക്കാർ സേവനങ്ങൾ, വൈദ്യുതി മുടക്കം, വെള്ള ടാങ്ക്, ക്ഷേമ പദ്ധതികൾ, കൃഷി, വിദ്യാഭ്യാസം");
   (lit "kn",
    lit "ಸರ್ಕಾರಿ ಸೇವೆಗಳು, ವಿದ್ಯುತ್ ಕಡಿತ, ನೀರಿನ ಟ್ಯಾಂಕ್, ಕಲ್ಯಾಣ ಯೋಜನೆಗಳು, ಕೃಷಿ, ಶಿಕ್ಷಣ");
   (lit "bn",
    lit "সরকারি সেবা, বিদ্যুৎ বিভ্রাট, জলের ট্যাংক, কল্যাণ প্রকল্প, কৃষি, শিক্ষা");
   (lit "gu",
    lit "સરકારી સેવાઓ, વીજ કાપ, પાણીની ટાંકી, કલ્યાણ યોજનાઓ, ખેતી, શિક્ષણ");
   (lit "mr",
    lit "सरकारी सेवा, वीज खंडित, पाण्याची टाकी, कल्याण योजना, शेती, शिक्षण");
   (lit "pa",
    lit "ਸਰਕਾਰੀ ਸੇਵਾਵਾਂ, ਬਿਜਲੀ ਕਟੌਤੀ, ਪਾਣੀ ਦੀ ਟੈਂਕੀ, ਭਲਾਈ ਯੋਜਨਾਵਾਂ, ਖੇਤੀ, ਸਿੱਖਿਆ");
   (lit "ur",
    lit "سرکاری خدمات، بجلی کی بندش، پانی کا ٹینک، فلاحی اسکیمیں، زراعت، تعلیم");
   (lit "or",
    lit "ସରକାରୀ ସେବା, ବିଦ୍ୟୁତ କଟୋତି, ପାଣି ଟାଙ୍କି, କଲ୍ୟାଣ ଯୋଜନା, କୃଷି, ଶିକ୍ଷା");
   (lit "as",
    lit "চৰকাৰী সেৱা, বিদ্যুৎ বিভ্ৰাট, পানীৰ টেংকী, কল্যাণ যোজনা, কৃষি, শিক্ষা");
   (lit "en",
    lit "Government services, power outage, water tank, welfare schemes, farming, education")
  ].

Definition prompt_en : jsstring :=
  match assoc (lit "en") prompts with Some p => p | None => [] end.

Definition getContextPrompt (language : jsstring) : jsstring :=
  match assoc language prompts with
  | Some (c :: p) => c :: p
  | _ => prompt_en
  end.

Definition detectLanguagesInText (text : jsstring) : list jsstring :=
  let languages := [] in
  let languages := add_if (test_class (in_range 0x0900 0x097F) text) (lit "Hindi") languages in
  let languages := add_if (test_class (in_range 0x0B80 0x0BFF) text) (lit "Tamil") languages in
  let languages := add_if (test_class (in_range 0x0C00 0x0C7F) text) (lit "Telugu") languages in
  let languages := add_if (test_class (in_range 0x0D00 0x0D7F) text) (lit "Malayalam") languages in
  let languages := add_if (test_class (in_range 0x0C80 0x0CFF) text) (lit "Kannada") languages in
  let languages := add_if (test_class (in_range 0x0980 0x09FF) text) (lit "Bengali / Assamese") languages in
  let languages := add_if (test_class (in_range 0x0A80 0x0AFF) text) (lit "Gujarati") languages in
  let languages := add_if (test_class (in_range 0x0A00 0x0A7F) text) (lit "Punjabi") languages in
  let languages := add_if (test_class (in_range 0x0B00 0x0B7F) text) (lit "Odia") languages in
  let languages := add_if (test_class (in_range 0x0600 0x06FF) text) (lit "Urdu") languages in
  let languages :=
    add_if (test_class (fun c => in_range 97 122 c || in_range 65 90 c) text)
      (lit "English") languages in
  languages.

Definition allowedTypes : list jsstring :=
  [lit "audio/webm"; lit "audio/wav"; lit "audio/mpeg"; lit "audio/mp3";
   lit "audio/mp4"; lit "audio/ogg"; lit "audio/x-m4a"].

Definition invalid_type_message (ty : option jsstring) : jsstring :=
  lit "Invalid file type: " ++
  match ty with Some t => t | None => lit "undefined" end.

(** [(formData.get('language') as string) || 'auto'] *)
Definition language_or_auto (e : option entry) : entry :=
  if entry_truthy e then
    match e with Some x => x | None => EString (lit "auto") end
  else EString (lit "auto").

Definition tempFilePath (audioFile : File) : jsstring :=
  path_join host (tmpdir host)
    (decimal (now host) ++ lit "-" ++ f_name audioFile).

Definition or_else (a : option jsstring) (b : jsstring) : jsstring :=
  match a with
  | Some (c :: s) => c :: s
  | _ => b
  end.

Definition POST_try (req : Request) : (Exn + Response) * list Event :=
  match req with
  | inl e => (inl e, [])
  | inr formData =>
      let audioFile := formData_get (lit "audio") formData in
      let language := language_or_auto (formData_get (lit "language") formData) in
      match audioFile with
      | None | Some (EString []) =>
          (inr (json_error (lit "No audio file provided") 400), [])
      | Some (EString (_ :: _)) =>
          (inr (json_error (invalid_type_message None) 400), [])
      | Some (EFile audioFile) =>
          if negb (existsb (str_eqb (f_type audioFile)) allowedTypes) then
            (inr (json_error (invalid_type_message (Some (f_type audioFile))) 400),
             [])
          else if (maxSize <? f_size audioFile)%N then
            (inr (json_error (lit "File exceeds 25MB limit") 400), [])
          else
            match language with
            | EFile _ => (inl TypeError_toLowerCase, [])
            | EString language =>
                let normalizedLang := slice0 2 (toLowerCase language) in
                let whisperLanguage :=
                  if negb (str_eqb language (lit "auto")) then
                    match assoc normalizedLang SUPPORTED_LANGUAGES with
                    | Some _ => Some normalizedLang
                    | None => None
                    end
                  else None in
                let tempFilePath := tempFilePath audioFile in
                match writeFile host tempFilePath audioFile with
                | Some e => (inl e, [])
                | None =>
                    let args :=
                      {| a_file := ReadStream tempFilePath;
                         a_model := lit "whisper-1";
                         a_language := whisperLanguage;
                         a_response_format := lit "verbose_json";
                         a_prompt :=
                           getContextPrompt
                             (match whisperLanguage with
                              | Some l => l
                              | None => lit "en"
                              end);
                         a_temperature := 0 |} in
                    match whisper args with
                    | inr e =>
                        (inl e,
                         [WriteFile tempFilePath audioFile; WhisperCall args])
                    | inl transcription =>
                        (inr {| status := 200;
                                body := SuccessBody
                                  {| r_transcript := t_text transcription;
                                     r_language :=
                                       or_else (t_language transcription)
                                         (or_else whisperLanguage
                                            (lit "unknown"));
                                     r_detectedLanguages :=
                                       detectLanguagesInText
                                         (t_text transcription);
                                     r_duration := t_duration transcription;
                                     r_segments := t_segments transcription;
                                     r_fileName := f_name audioFile;
                                     r_fileSize := f_size audioFile;
                                     r_autoDetected :=
                                       match whisperLanguage with
                                       | Some _ => false
                                       | None => true
                                       end |} |},
                         [WriteFile tempFilePath audioFile; WhisperCall args;
                          Unlink tempFilePath])
                    end
                end
            end
      end
  end.

Definition status_is (e : Exn) (n : N) : bool :=
  match e_status e with Some s => (s =? n)%N | None => false end.

Definition POST_catch (err : Exn) : Response :=
  if status_is err 429 then json_error (lit "Rate limit exceeded") 429
  else if status_is err 401 then json_error (lit "Invalid API Key") 500
  else json_error (or_else (e_message err) (lit "Transcription failed")) 500.

Definition POST (req : Request) : Response * list Event :=
  match POST_try req with
  | (inr response, tr) => (response, tr)
  | (inl err, tr) => (POST_catch err, tr ++ [ConsoleError err])
  end.

End WithPlatform.

Definition GET : N * StatusInfo :=
  (200%N,
   {| i_status := lit "ok";
      i_service := lit "Whisper Transcription API";
      i_supportedLanguages := SUPPORTED_LANGUAGES;
      i_features :=
        [lit "Auto language detection";
         lit "Code-mixed speech support";
         lit "Word-level timestamps";
         lit "High accuracy transcription"];
      i_maxFileSize := lit "25MB";
      i_supportedFormats :=
        [lit "webm"; lit "wav"; lit "mp3"; lit "m4a"; lit "mp4"; lit "ogg"] |}).

End Whisper2.

(* ================================================================== *)
(** * The voice console *)
(* ================================================================== *)

Module Console.

(** ** Static tables *)

Record Explanation := {
  x_input : jsstring;
  x_agent : jsstring;
  x_ruleEngine : jsstring;
  x_confidence : Z;
  x_decision : jsstring;
  x_humanVerification : jsstring
}.

Definition scenarioResponses : list (jsstring * list jsstring) :=
  [(lit "power outage",
    [lit "Power outage reported in your area. Technician has been dispatched and will arrive within 24 hours. For immediate assistance, please contact the emergency helpline at 1912.";
     lit "We've registered your power outage report. Estimated restoration time is 6-8 hours."]);
   (lit "water tank",
    [lit "Water tank level critical. Refill scheduled for tomorrow morning between 6-8 AM. You'll receive an SMS confirmation shortly."])].

Definition aiExplanationData : list (jsstring * Explanation) :=
  [(lit "power outage",
    {| x_input := lit "Power outage in our area";
       x_agent := lit "Utility Management Agent";
       x_ruleEngine := lit "Emergency Response Protocol v2.1 - Priority 1";
       x_confidence := 95;
       x_decision := lit "Dispatch technician within 24 hours, send SMS confirmation";
       x_humanVerification := lit "Auto-verified by system." |});
   (lit "water tank",
    {| x_input := lit "Water tank is almost empty";
       x_agent := lit "Water Resource Management Agent";
       x_ruleEngine := lit "Water Distribution Algorithm v3.0 - Critical Level";
       x_confidence := 92;
       x_decision := lit "Schedule emergency refill";
       x_humanVerification := lit "Auto-verified." |})].



(** ** Platform objects *)

(** A media stream is known by the handle the platform gave it. *)
Definition Stream := N.

Record Blob := { b_type : jsstring; b_size : N }.

(** A recorder, with what its [onstop] closure captured when
    [startRecording] built it: the MIME type and the language selected in
    that render. *)
Record Recorder := {
  rec_stream : Stream;
  rec_mimeType : jsstring;
  rec_language : jsstring
}.

Record Voice := { v_name : jsstring; v_lang : option jsstring }.

Record Utterance := { u_text : jsstring; u_voice : option Voice }.

(** ** Component state: the [useState] cells and the refs *)

Record State := {
  transcript : value;
  reply : value;
  isRecording : bool;
  isLoading : bool;
  isPlaying : bool;
  error : option jsstring;
  selectedLanguage : jsstring;
  isLargeText : bool;
  isIVRMode : bool;
  detectedLanguage : jsstring;
  transcriptionDuration : Q;
  showExplanation : bool;
  currentExplanation : option Explanation;
  mediaRecorderRef : option Recorder;
  audioChunksRef : list Blob;
  streamRef : option Stream;
  utteranceRef : option Utterance
}.

Definition upd_transcript (x : value) (s : State) : State :=
  {| transcript := x;
     reply := reply s;
     isRecording := isRecording s;
     isLoading := isLoading s;
     isPlaying := isPlaying s;
     error := error s;
     selectedLanguage := selectedLanguage s;
     isLargeText := isLargeText s;
     isIVRMode := isIVRMode s;
     detectedLanguage := detectedLanguage s;
     transcriptionDuration := transcriptionDuration s;
     showExplanation := showExplanation s;
     currentExplanation := currentExplanation s;
     mediaRecorderRef := mediaRecorderRef s;
     audioChunksRef := audioChunksRef s;
     streamRef := streamRef s;
     utteranceRef := utteranceRef s |}.

Definition upd_reply (x : value) (s : State) : State :=
  {| transcript := transcript s;
     reply := x;
     isRecording := isRecording s;
     isLoading := isLoading s;
     isPlaying := isPlaying s;
     error := error s;
     selectedLanguage := selectedLanguage s;
     isLargeText := isLargeText s;
     isIVRMode := isIVRMode s;
     detectedLanguage := detectedLanguage s;
     transcriptionDuration := transcriptionDuration s;
     showExplanation := showExplanation s;
     currentExplanation := currentExplanation s;
     mediaRecorderRef := mediaRecorderRef s;
     audioChunksRef := audioChunksRef s;
     streamRef := streamRef s;
     utteranceRef := utteranceRef s |}.

Definition upd_isRecording (x : bool) (s : State) : State :=
  {| transcript := transcript s;
     reply := reply s;
     isRecording := x;
     isLoading := isLoading s;
     isPlaying := isPlaying s;
     error := error s;
     selectedLanguage := selectedLanguage s;
     isLargeText := isLargeText s;
     isIVRMode := isIVRMode s;
     detectedLanguage := detectedLanguage s;
     transcriptionDuration := transcriptionDuration s;
     showExplanation := showExplanation s;
     currentExplanation := currentExplanation s;
     mediaRecorderRef := mediaRecorderRef s;
     audioChunksRef := audioChunksRef s;
     streamRef := streamRef s;
     utteranceRef := utteranceRef s |}.

Definition upd_isLoading (x : bool) (s : State) : State :=
  {| transcript := transcript s;
     reply := reply s;
     isRecording := isRecording s;
     isLoading := x;
     isPlaying := isPlaying s;
     error := error s;
     selectedLanguage := selectedLanguage s;
     isLargeText := isLargeText s;
     isIVRMode := isIVRMode s;
     detectedLanguage := detectedLanguage s;
     transcriptionDuration := transcriptionDuration s;
     showExplanation := showExplanation s;
     currentExplanation := currentExplanation s;
     mediaRecorderRef := mediaRecorderRef s;
     audioChunksRef := audioChunksRef s;
     streamRef := streamRef s;
     utteranceRef := utteranceRef s |}.

Definition upd_isPlaying (x : bool) (s : State) : State :=
  {| transcript := transcript s;
     reply := reply s;
     isRecording := isRecording s;
     isLoading := isLoading s;
     isPlaying := x;
     error := error s;
     selectedLanguage := selectedLanguage s;
     isLargeText := isLargeText s;
     isIVRMode := isIVRMode s;
     detectedLanguage := detectedLanguage s;
     transcriptionDuration := transcriptionDuration s;
     showExplanation := showExplanation s;
     currentExplanation := currentExplanation s;
     mediaRecorderRef := mediaRecorderRef s;
     audioChunksRef := audioChunksRef s;
     streamRef := streamRef s;
     utteranceRef := utteranceRef s |}.

Definition upd_error (x : option jsstring) (s : State) : State :=
  {| transcript := transcript s;
     reply := reply s;
     isRecording := isRecording s;
     isLoading := isLoading s;
     isPlaying := isPlaying s;
     error := x;
     selectedLanguage := selectedLanguage s;
     isLargeText := isLargeText s;
     isIVRMode := isIVRMode s;
     detectedLanguage := detectedLanguage s;
     transcriptionDuration := transcriptionDuration s;
     showExplanation := showExplanation s;
     currentExplanation := currentExplanation s;
     mediaRecorderRef := mediaRecorderRef s;
     audioChunksRef := audioChunksRef s;
     streamRef := streamRef s;
     utteranceRef := utteranceRef s |}.

Definition upd_selectedLanguage (x : jsstring) (s : State) : State :=
  {| transcript := transcript s;
     reply := reply s;
     isRecording := isRecording s;
     isLoading := isLoading s;
     isPlaying := isPlaying s;
     error := error s;
     selectedLanguage := x;
     isLargeText := isLargeText s;
     isIVRMode := isIVRMode s;
     detectedLanguage := detectedLanguage s;
     transcriptionDuration := transcriptionDuration s;
     showExplanation := showExplanation s;
     currentExplanation := currentExplanation s;
     mediaRecorderRef := mediaRecorderRef s;
     audioChunksRef := audioChunksRef s;
     streamRef := streamRef s;
     utteranceRef := utteranceRef s |}.

Definition upd_isLargeText (x : bool) (s : State) : State :=
  {| transcript := transcript s;
     reply := reply s;
     isRecording := isRecording s;
     isLoading := isLoading s;
     isPlaying := isPlaying s;
     error := error s;
     selectedLanguage := selectedLanguage s;
     isLargeText := x;
     isIVRMode := isIVRMode s;
     detectedLanguage := detectedLanguage s;
     transcriptionDuration := transcriptionDuration s;
     showExplanation := showExplanation s;
     currentExplanation := currentExplanation s;
     mediaRecorderRef := mediaRecorderRef s;
     audioChunksRef := audioChunksRef s;
     streamRef := streamRef s;
     utteranceRef := utteranceRef s |}.

Definition upd_isIVRMode (x : bool) (s : State) : State :=
  {| transcript := transcript s;
     reply := reply s;
     isRecording := isRecording s;
     isLoading := isLoading s;
     isPlaying := isPlaying s;
     error := error s;
     selectedLanguage := selectedLanguage s;
     isLargeText := isLargeText s;
     isIVRMode := x;
     detectedLanguage := detectedLanguage s;
     transcriptionDuration := transcriptionDuration s;
     showExplanation := showExplanation s;
     currentExplanation := currentExplanation s;
     mediaRecorderRef := mediaRecorderRef s;
     audioChunksRef := audioChunksRef s;
     streamRef := streamRef s;
     utteranceRef := utteranceRef s |}.

Definition upd_detectedLanguage (x : jsstring) (s : State) : State :=
  {| transcript := transcript s;
     reply := reply s;
     isRecording := isRecording s;
     isLoading := isLoading s;
     isPlaying := isPlaying s;
     error := error s;
     selectedLanguage := selectedLanguage s;
     isLargeText := isLargeText s;
     isIVRMode := isIVRMode s;
     detectedLanguage := x;
     transcriptionDuration := transcriptionDuration s;
     showExplanation := showExplanation s;
     currentExplanation := currentExplanation s;
     mediaRecorderRef := mediaRecorderRef s;
     audioChunksRef := audioChunksRef s;
     streamRef := streamRef s;
     utteranceRef := utteranceRef s |}.

Definition upd_transcriptionDuration (x : Q) (s : State) : State :=
  {| transcript := transcript s;
     reply := reply s;
     isRecording := isRecording s;
     isLoading := isLoading s;
     isPlaying := isPlaying s;
     error := error s;
     selectedLanguage := selectedLanguage s;
     isLargeText := isLargeText s;
     isIVRMode := isIVRMode s;
     detectedLanguage := detectedLanguage s;
     transcriptionDuration := x;
     showExplanation := showExplanation s;
     currentExplanation := currentExplanation s;
     mediaRecorderRef := mediaRecorderRef s;
     audioChunksRef := audioChunksRef s;
     streamRef := streamRef s;
     utteranceRef := utteranceRef s |}.

Definition upd_showExplanation (x : bool) (s : State) : State :=
  {| transcript := transcript s;
     reply := reply s;
     isRecording := isRecording s;
     isLoading := isLoading s;
     isPlaying := isPlaying s;
     error := error s;
     selectedLanguage := selectedLanguage s;
     isLargeText := isLargeText s;
     isIVRMode := isIVRMode s;
     detectedLanguage := detectedLanguage s;
     transcriptionDuration := transcriptionDuration s;
     showExplanation := x;
     currentExplanation := currentExplanation s;
     mediaRecorderRef := mediaRecorderRef s;
     audioChunksRef := audioChunksRef s;
     streamRef := streamRef s;
     utteranceRef := utteranceRef s |}.

Definition upd_currentExplanation (x : option Explanation) (s : State) : State :=
  {| transcript := transcript s;
     reply := reply s;
     isRecording := isRecording s;
     isLoading := isLoading s;
     isPlaying := isPlaying s;
     error := error s;
     selectedLanguage := selectedLanguage s;
     isLargeText := isLargeText s;
     isIVRMode := isIVRMode s;
     detectedLanguage := detectedLanguage s;
     transcriptionDuration := transcriptionDuration s;
     showExplanation := showExplanation s;
     currentExplanation := x;
     mediaRecorderRef := mediaRecorderRef s;
     audioChunksRef := audioChunksRef s;
     streamRef := streamRef s;
     utteranceRef := utteranceRef s |}.

Definition upd_mediaRecorderRef (x : option Recorder) (s : State) : State :=
  {| transcript := transcript s;
     reply := reply s;
     isRecording := isRecording s;
     isLoading := isLoading s;
     isPlaying := isPlaying s;
     error := error s;
     selectedLanguage := selectedLanguage s;
     isLargeText := isLargeText s;
     isIVRMode := isIVRMode s;
     detectedLanguage := detectedLanguage s;
     transcriptionDuration := transcriptionDuration s;
     showExplanation := showExplanation s;
     currentExplanation := currentExplanation s;
     mediaRecorderRef := x;
     audioChunksRef := audioChunksRef s;
     streamRef := streamRef s;
     utteranceRef := utteranceRef s |}.

Definition upd_audioChunksRef (x : list Blob) (s : State) : State :=
  {| transcript := transcript s;
     reply := reply s;
     isRecording := isRecording s;
     isLoading := isLoading s;
     isPlaying := isPlaying s;
     error := error s;
     selectedLanguage := selectedLanguage s;
     isLargeText := isLargeText s;
     isIVRMode := isIVRMode s;
     detectedLanguage := detectedLanguage s;
     transcriptionDuration := transcriptionDuration s;
     showExplanation := showExplanation s;
     currentExplanation := currentExplanation s;
     mediaRecorderRef := mediaRecorderRef s;
     audioChunksRef := x;
     streamRef := streamRef s;
     utteranceRef := utteranceRef s |}.

Definition upd_streamRef (x : option Stream) (s : State) : State :=
  {| transcript := transcript s;
     reply := reply s;
     isRecording := isRecording s;
     isLoading := isLoading s;
     isPlaying := isPlaying s;
     error := error s;
     selectedLanguage := selectedLanguage s;
     isLargeText := isLargeText s;
     isIVRMode := isIVRMode s;
     detectedLanguage := detectedLanguage s;
     transcriptionDuration := transcriptionDuration s;
     showExplanation := showExplanation s;
     currentExplanation := currentExplanation s;
     mediaRecorderRef := mediaRecorderRef s;
     audioChunksRef := audioChunksRef s;
     streamRef := x;
     utteranceRef := utteranceRef s |}.

Definition upd_utteranceRef (x : option Utterance) (s : State) : State :=
  {| transcript := transcript s;
     reply := reply s;
     isRecording := isRecording s;
     isLoading := isLoading s;
     isPlaying := isPlaying s;
     error := error s;
     selectedLanguage := selectedLanguage s;
     isLargeText := isLargeText s;
     isIVRMode := isIVRMode s;
     detectedLanguage := detectedLanguage s;
     transcriptionDuration := transcriptionDuration s;
     showExplanation := showExplanation s;
     currentExplanation := currentExplanation s;
     mediaRecorderRef := mediaRecorderRef s;
     audioChunksRef := audioChunksRef s;
     streamRef := streamRef s;
     utteranceRef := x |}.


Inductive Event :=
| SetTranscript (v : value)
| SetReply (v : value)
| SetIsRecording (b : bool)
| SetIsLoading (b : bool)
| SetIsPlaying (b : bool)
| SetError (e : option jsstring)
| SetIsIVRMode (b : bool)
| SetDetectedLanguage (l : jsstring)
| SetTranscriptionDuration (d : Q)
| SetShowExplanation (b : bool)
| SetCurrentExplanation (x : option Explanation)
| GetUserMedia
| NewMediaRecorder (stream : Stream) (mimeType : jsstring)
| RecorderStart (r : Recorder)
| RecorderStop (r : Recorder)
| StopTracks (stream : Stream)
| FetchTranscribe (url : jsstring) (form : FormData)
| FetchMistral (url : jsstring) (prompt : jsstring)
| SynthCancel
| SynthSpeak (u : Utterance)
| ConsoleError (e : Exn).

(** ** Handlers as state transformers that may throw and that log *)

Inductive result (A : Type) :=
| Ret (a : A)
| Throw (e : Exn).

Arguments Ret {A} a.
Arguments Throw {A} e.

Definition Act (A : Type) := State -> result A * State * list Event.

Definition ret {A} (a : A) : Act A := fun s => (Ret a, s, []).

Definition throw {A} (e : Exn) : Act A := fun s => (Throw e, s, []).

Definition bind {A B} (m : Act A) (k : A -> Act B) : Act B :=
  fun s =>
    match m s with
    | (Ret a, s1, t1) =>
        match k a s1 with
        | (r, s2, t2) => (r, s2, t1 ++ t2)
        end
    | (Throw e, s1, t1) => (Throw e, s1, t1)
    end.

Definition try_catch {A} (m : Act A) (h : Exn -> Act A) : Act A :=
  fun s =>
    match m s with
    | (Ret a, s1, t1) => (Ret a, s1, t1)
    | (Throw e, s1, t1) =>
        match h e s1 with
        | (r, s2, t2) => (r, s2, t1 ++ t2)
        end
    end.

Definition try_finally {A} (m : Act A) (f : Act unit) : Act A :=
  fun s =>
    match m s with
    | (r, s1, t1) =>
        match f s1 with
        | (Ret _, s2, t2) => (r, s2, t1 ++ t2)
        | (Throw e, s2, t2) => (Throw e, s2, t1 ++ t2)
        end
    end.

Definition emit (e : Event) : Act unit := fun s => (Ret tt, s, [e]).

Definition get : Act State := fun s => (Ret s, s, []).

Definition modify (f : State -> State) : Act unit := fun s => (Ret tt, f s, []).

Declare Scope act_scope.
Delimit Scope act_scope with act.
Notation "x <- m ;; k" := (bind m (fun x => k))
  (at level 61, m at next level, right associativity) : act_scope.
Notation "m ;; k" := (bind m (fun _ => k))
  (at level 61, right associativity) : act_scope.
Open Scope act_scope.

Definition setTranscript v := emit (SetTranscript v) ;; modify (upd_transcript v).
Definition setReply v := emit (SetReply v) ;; modify (upd_reply v).
Definition setIsRecording b := emit (SetIsRecording b) ;; modify (upd_isRecording b).
Definition setIsLoading b := emit (SetIsLoading b) ;; modify (upd_isLoading b).
Definition setIsPlaying b := emit (SetIsPlaying b) ;; modify (upd_isPlaying b).
Definition setError e := emit (SetError e) ;; modify (upd_error e).
Definition setIsIVRMode b := emit (SetIsIVRMode b) ;; modify (upd_isIVRMode b).
Definition setDetectedLanguage l :=
  emit (SetDetectedLanguage l) ;; modify (upd_detectedLanguage l).
Definition setTranscriptionDuration d :=
  emit (SetTranscriptionDuration d) ;; modify (upd_transcriptionDuration d).
Definition setShowExplanation b :=
  emit (SetShowExplanation b) ;; modify (upd_showExplanation b).
Definition setCurrentExplanation x :=
  emit (SetCurrentExplanation x) ;; modify (upd_currentExplanation x).

(** ** Outcomes of the calls the component awaits *)

(** [fetch] followed by [response.json()]. *)
Inductive FetchOutcome :=
| FetchRejects (e : Exn)
| JsonRejects (ok : bool) (e : Exn)
| JsonData (ok : bool) (data : value).

Record World := {
  getUserMedia : Exn + Stream;
  isTypeSupported : jsstring -> bool;
  newMediaRecorder : option Exn;
  transcribe : FormData -> FetchOutcome;
  mistral : jsstring -> FetchOutcome;
  hasSpeechSynthesis : bool;
  newUtterance : option Exn;
  getVoices : list Voice
}.

(** [`${prefix}${err.message}`] *)
Definition with_message (prefix : jsstring) (err : Exn) : jsstring :=
  prefix ++ match e_message err with Some m => m | None => lit "undefined" end.

Definition fallbackReply : jsstring :=
  lit "I understand your query. Connecting you to an agent...".

Definition offlineReply : jsstring :=
  lit "I heard you, but my AI brain is currently offline.".

Definition processedReply : jsstring := lit "I processed that request.".

Section WithPlatform.

Variable toLowerCase : jsstring -> jsstring.
Variable world : World.

(** ** Business logic *)

Definition matchScenario (lowerText : jsstring) : option jsstring :=
  find (fun scenario => includes lowerText scenario)
       (map fst scenarioResponses).

(** [scenarioResponses[matchedScenario][0]] *)
Definition firstResponse (scenario : jsstring) : value :=
  match assoc scenario scenarioResponses with
  | Some (r :: _) => VString r
  | _ => VUndefined
  end.

Definition delegate (text : jsstring) : Act unit :=
  try_catch
    (emit (FetchMistral (lit "/api/mistral") text) ;;
     match mistral world text with
     | FetchRejects e => throw e
     | JsonRejects _ e => throw e
     | JsonData _ data =>
         match get_prop data (lit "response") with
         | None =>
             throw (typeError
               (lit "Cannot read properties of null (reading 'response')"))
         | Some response =>
             setReply (if truthy response then response
                       else VString processedReply)
         end
     end)
    (fun e => setReply (VString offlineReply)).

Definition processBusinessLogic (text : jsstring) : Act unit :=
  match trim text with
  | [] => ret tt
  | _ :: _ =>
      let lowerText := toLowerCase text in
      match matchScenario lowerText with
      | Some (c :: k) =>
          let matchedScenario := c :: k in
          setReply (firstResponse matchedScenario) ;;
          setCurrentExplanation (assoc matchedScenario aiExplanationData) ;;
          setShowExplanation true
      | _ =>
          delegate text ;;
          setReply (VString fallbackReply)
      end
  end.

(** ** Transcription request *)

Definition formDataFor (audioBlob : Blob) (selectedLanguage : jsstring)
  : FormData :=
  (lit "file",
   EFile {| f_name := lit "recording.webm";
            f_type := b_type audioBlob;
            f_size := b_size audioBlob |})
  :: (if truthy (VString selectedLanguage)
         && negb (str_eqb selectedLanguage (lit "auto"))
      then [(lit "language", EString selectedLanguage)]
      else []).

Definition sendToWhisper (selectedLanguage : jsstring) (audioBlob : Blob)
  : Act unit :=
  try_finally
    (try_catch
       (setIsLoading true ;;
        let formData := formDataFor audioBlob selectedLanguage in
        emit (FetchTranscribe (lit "/api/transcribe") formData) ;;
        data <- match transcribe world formData with
                | FetchRejects e => throw e
                | JsonRejects false _ | JsonData false _ =>
                    throw {| e_status := None; e_code := None;
                             e_message := Some (lit "Transcription failed");
                             e_toString := lit "Error: Transcription failed" |}
                | JsonRejects true e => throw e
                | JsonData true data => ret data
                end ;;
        match get_prop data (lit "text") with
        | None =>
            throw (typeError
              (lit "Cannot read properties of null (reading 'text')"))
        | Some text =>
            setTranscript text ;;
            setTranscriptionDuration (Z.of_N (b_size audioBlob) # 10000)%Q ;;
            match text with
            | VString text => processBusinessLogic text
            | VUndefined | VNull =>
                throw (typeError
                  (lit "Cannot read properties of undefined (reading 'trim')"))
            | _ => throw (typeError (lit "text.trim is not a function"))
            end
        end)
       (fun err => setError (Some (with_message (lit "Processing error: ") err))))
    (setIsLoading false).

(** ** Recording *)

Definition opus : jsstring := lit "audio/webm;codecs=opus".

Definition startRecording : Act unit :=
  try_catch
    (setError None ;;
     setTranscript (VString []) ;;
     setReply (VString []) ;;
     setShowExplanation false ;;
     setDetectedLanguage [] ;;
     emit GetUserMedia ;;
     stream <- match getUserMedia world with
               | inl e => throw e
               | inr stream => ret stream
               end ;;
     modify (upd_streamRef (Some stream)) ;;
     let mimeType :=
       if isTypeSupported world opus then opus else lit "audio/webm" in
     emit (NewMediaRecorder stream mimeType) ;;
     s <- get ;;
     mediaRecorder <- match newMediaRecorder world with
                      | Some e => throw e
                      | None =>
                          ret {| rec_stream := stream;
                                 rec_mimeType := mimeType;
                                 rec_language := selectedLanguage s |}
                      end ;;
     modify (upd_mediaRecorderRef (Some mediaRecorder)) ;;
     modify (upd_audioChunksRef []) ;;
     emit (RecorderStart mediaRecorder) ;;
     setIsRecording true)
    (fun err =>
       emit (ConsoleError err) ;;
       setError (Some (with_message (lit "Microphone access denied: ") err))).

(** [mediaRecorder.ondataavailable] *)
Definition ondataavailable (data : Blob) : Act unit :=
  if (0 <? b_size data)%N then
    modify (fun s => upd_audioChunksRef (audioChunksRef s ++ [data]) s)
  else ret tt.

Definition blobOf (chunks : list Blob) (mimeType : jsstring) : Blob :=
  {| b_type := mimeType;
     b_size := fold_right (fun c n => (b_size c + n)%N) 0%N chunks |}.

(** [mediaRecorder.onstop], for the recorder the event fires on *)
Definition onstop (mediaRecorder : Recorder) : Act unit :=
  s <- get ;;
  let audioBlob := blobOf (audioChunksRef s) (rec_mimeType mediaRecorder) in
  sendToWhisper (rec_language mediaRecorder) audioBlob ;;
  s <- get ;;
  match streamRef s with
  | Some stream => emit (StopTracks stream)
  | None => ret tt
  end.

Definition stopRecording : Act unit :=
  s <- get ;;
  match mediaRecorderRef s with
  | Some mediaRecorder =>
      if isRecording s then
        emit (RecorderStop mediaRecorder) ;;
        setIsRecording false
      else ret tt
  | None => ret tt
  end.

(** ** Speech output: the effect that runs when [reply] has changed *)

Definition lang_test (p : jsstring -> bool) (v : Voice) : bool :=
  match v_lang v with
  | Some l => p l
  | None => false
  end.

Definition or_voice (a b : option Voice) : option Voice :=
  match a with
  | Some v => Some v
  | None => b
  end.

Definition selectVoice (reply : jsstring) (voices : list Voice)
  : option Voice :=
  let isMalayalam := test_class (in_range 0x0D00 0x0D7F) reply in
  let isHindi := test_class (in_range 0x0900 0x097F) reply in
  let pref :=
    if isMalayalam then
      find (lang_test (fun l => includes (toLowerCase l) (lit "ml"))) voices
    else if isHindi then
      find (lang_test (fun l => includes (toLowerCase l) (lit "hi"))) voices
    else None in
  match pref with
  | Some v => Some v
  | None =>
      or_voice
        (find (lang_test (fun l => includes l (lit "en-IN"))) voices)
        (find (lang_test (fun l => startsWith l (lit "en"))) voices)
  end.

Definition speakEffect : Act unit :=
  s <- get ;;
  if negb (truthy (reply s)) then ret tt
  else if negb (hasSpeechSynthesis world) then ret tt
  else
    try_catch
      (match newUtterance world with
       | Some e => throw e
       | None => ret tt
       end ;;
       let pref := selectVoice (to_string (reply s)) (getVoices world) in
       let u := {| u_text := to_string (reply s); u_voice := pref |} in
       modify (upd_utteranceRef (Some u)) ;;
       emit SynthCancel ;;
       emit (SynthSpeak u) ;;
       setIsPlaying true)
      (fun error => emit (ConsoleError error)).

(** [u.onend] and [u.onerror] *)
Definition onend : Act unit := setIsPlaying false.

Definition handleReset : Act unit :=
  setTranscript (VString []) ;;
  setReply (VString []) ;;
  setError None ;;
  setShowExplanation false ;;
  setIsIVRMode false ;;
  (if hasSpeechSynthesis world then emit SynthCancel
   else throw (typeError
          (lit "Cannot read properties of undefined (reading 'cancel')"))) ;;
  setIsPlaying false.

End WithPlatform.

(** The state of a freshly mounted component. *)
Definition initial : State :=
  {| transcript := VString []; reply := VString []; isRecording := false;
     isLoading := false; isPlaying := false; error := None;
     selectedLanguage := lit "auto"; isLargeText := false; isIVRMode := false;
     detectedLanguage := []; transcriptionDuration := 0%Q;
     showExplanation := false; currentExplanation := None;
     mediaRecorderRef := None; audioChunksRef := []; streamRef := None;
     utteranceRef := None |}.

(** The speech engine's queue under the calls of a trace: [cancel] empties
    it, [speak] appends to it. *)
Fixpoint synth_after (queue : list Utterance) (tr : list Event)
  : list Utterance :=
  match tr with
  | [] => queue
  | SynthCancel :: tr' => synth_after [] tr'
  | SynthSpeak u :: tr' => synth_after (queue ++ [u]) tr'
  | _ :: tr' => synth_after queue tr'
  end.

(** ** The component as a transition system *)

(** What can happen to the mounted component: the gestures on the button,
    the recorder's events, a commit in which [reply] has changed, the end (or
    failure) of the utterance being spoken, and the other controls. *)
Inductive Action :=
| Press
| Release
| DataAvailable (data : Blob)
| Stopped (r : Recorder)
| ReplyChanged
| UtteranceEnded
| Reset
| ToggleReadAloud
| SelectLanguage (code : jsstring)
| ToggleLargeText
| ToggleIVRMode.

Definition handler (toLowerCase : jsstring -> jsstring) (w : World)
  (a : Action) : Act unit :=
  match a with
  | Press => startRecording w
  | Release => stopRecording
  | DataAvailable data => ondataavailable data
  | Stopped r => onstop toLowerCase w r
  | ReplyChanged => speakEffect toLowerCase w
  | UtteranceEnded => onend
  | Reset => handleReset w
  | ToggleReadAloud => s <- get ;; setIsPlaying (negb (isPlaying s))
  | SelectLanguage code => modify (upd_selectedLanguage code)
  | ToggleLargeText => modify (fun s => upd_isLargeText (negb (isLargeText s)) s)
  | ToggleIVRMode => s <- get ;; setIsIVRMode (negb (isIVRMode s))
  end.

(** The component together with the speech engine's queue, whose head is
    the utterance being spoken. *)
Record System := { comp : State; queue : list Utterance }.

Definition step (toLowerCase : jsstring -> jsstring) (sys : System)
  (wa : World * Action) : System :=
  let q := match snd wa with
           | UtteranceEnded => tl (queue sys)
           | _ => queue sys
           end in
  match handler toLowerCase (fst wa) (snd wa) (comp sys) with
  | (_, s', tr) => {| comp := s'; queue := synth_after q tr |}
  end.

Definition run (toLowerCase : jsstring -> jsstring)
  (acts : list (World * Action)) (sys : System) : System :=
  fold_left (step toLowerCase) acts sys.

Fixpoint each {A} (f : A -> Act unit) (l : list A) : Act unit :=
  match l with
  | [] => ret tt
  | a :: l' => f a ;; each f l'
  end.

(** One press-and-hold gesture run to its end: press, the chunks the
    recorder delivers, release, and the stop event of the recorder in the
    ref. *)
Definition gesture (toLowerCase : jsstring -> jsstring) (w : World)
  (chunks : list Blob) : Act unit :=
  startRecording w ;;
  each ondataavailable chunks ;;
  stopRecording ;;
  s <- get ;;
  match mediaRecorderRef s with
  | Some r => onstop toLowerCase w r
  | None => ret tt
  end.

(** ** Reading a trace *)

Definition transcriptionRequests (tr : list Event) : list (jsstring * FormData) :=
  flat_map (fun e => match e with
                     | FetchTranscribe url form => [(url, form)]
                     | _ => []
                     end) tr.

Definition delegations (tr : list Event) : list jsstring :=
  flat_map (fun e => match e with
                     | FetchMistral _ prompt => [prompt]
                     | _ => []
                     end) tr.

Definition replyWrites (tr : list Event) : list value :=
  flat_map (fun e => match e with
                     | SetReply v => [v]
                     | _ => []
                     end) tr.

Definition spoken (tr : list Event) : list Utterance :=
  flat_map (fun e => match e with
                     | SynthSpeak u => [u]
                     | _ => []
                     end) tr.

Definition is_speak (e : Event) : bool :=
  match e with SynthSpeak _ => true | _ => false end.

Definition is_transcribe (e : Event) : bool :=
  match e with FetchTranscribe _ _ => true | _ => false end.

(** A handler avoids a kind of event when no run of it logs one. *)
Definition avoids {A} (P : Event -> bool) (m : Act A) : Prop :=
  forall s, existsb P (snd (m s)) = false.

(** Every [speak] of the trace comes right after a [cancel]. *)
Fixpoint cancel_before_speak (tr : list Event) : bool :=
  match tr with
  | [] => true
  | SynthSpeak _ :: _ => false
  | SynthCancel :: SynthSpeak _ :: tr' => cancel_before_speak tr'
  | _ :: tr' => cancel_before_speak tr'
  end.

End Console.

(* ================================================================== *)
(** * Vocabulary of the properties *)
(* ================================================================== *)

Module Spec.

(** The letters of the Latin range the detector scans for, A-Z and a-z. *)
Definition isLatinLetter (c : N) : bool :=
  in_range 97 122 c || in_range 65 90 c.

Definition isDevanagari (c : N) : bool := in_range 0x0900 0x097F c.

(** Code units of Latin-script text: Basic Latin to Combining Diacritical
    Marks (below U+0370), Latin Extended Additional, General Punctuation,
    Latin Extended-C and Latin Extended-D. *)
Definition latinScriptUnit (c : N) : bool :=
  (c <? 0x0370)%N || in_range 0x1E00 0x1EFF c || in_range 0x2000 0x206F c
  || in_range 0x2C60 0x2C7F c || in_range 0xA720 0xA7FF c.

Definition latinOnly (text : jsstring) : bool := forallb latinScriptUnit text.

Definition hasLatinLetter (text : jsstring) : bool := existsb isLatinLetter text.

Definition hasDevanagari (text : jsstring) : bool := existsb isDevanagari text.

(** A transcript is blank when [trim] leaves nothing of it. *)
Definition blank (text : jsstring) : bool :=
  match trim text with [] => true | _ => false end.

(** [k] is the first key of the table, in declaration order, that the text
    contains. *)
Definition firstMatch {A} (table : list (jsstring * A)) (text k : jsstring)
  : Prop :=
  exists before after,
    map fst table = before ++ k :: after /\
    includes text k = true /\
    forall k', In k' before -> includes text k' = false.

(** The three request-shape errors of the route, by the text each one
    starts with. *)
Inductive ValidationError := MissingAudio | UnsupportedFormat | PayloadTooLarge.

Definition classify (r : Response) : option ValidationError :=
  match body r with
  | ErrorBody msg _ =>
      if negb (status r =? 400)%N then None
      else if str_eqb msg (lit "No audio file provided") then Some MissingAudio
      else if startsWith msg (lit "Invalid file type: ") then Some UnsupportedFormat
      else if startsWith msg (lit "File too large: ")
              || str_eqb msg (lit "File exceeds 25MB limit")
      then Some PayloadTooLarge
      else None
  | SuccessBody _ => None
  end.

Definition calls (tr : list Route.Event) : list WhisperArgs :=
  flat_map (fun e => match e with
                     | WhisperCall args => [args]
                     | _ => []
                     end) tr.

(** A route validates uploads against the test [accepts] on MIME types: a
    missing payload, a type that fails the test, and a size above 25 MiB are
    refused with their own error and status 400 before any call to the
    provider; a file that passes the test and is within the limit is not
    refused. *)
Definition validates (accepts : jsstring -> bool)
  (POST : Request -> Response * list Route.Event) : Prop :=
  forall formData : FormData,
    let r := POST (inr formData) in
    (formData_get (lit "audio") formData = None ->
     classify (fst r) = Some MissingAudio /\ calls (snd r) = []) /\
    (forall f, formData_get (lit "audio") formData = Some (EFile f) ->
       (accepts (f_type f) = false ->
        classify (fst r) = Some UnsupportedFormat /\ calls (snd r) = []) /\
       (accepts (f_type f) = true -> (maxSize < f_size f)%N ->
        classify (fst r) = Some PayloadTooLarge /\ calls (snd r) = []) /\
       (accepts (f_type f) = true -> (f_size f <= maxSize)%N ->
        status (fst r) <> 400%N)).

(** Membership of a MIME type in a list of types. *)
Definition listed (types : list jsstring) (ty : jsstring) : bool :=
  existsb (str_eqb ty) types.

(** The subtype names the first listing looks for inside the MIME type. *)
Definition names : list jsstring :=
  [lit "webm"; lit "wav"; lit "mp3"; lit "m4a"; lit "mpeg"; lit "ogg"].

Definition contains_name (ty : jsstring) : bool := existsb (includes ty) names.

(** The MIME type [startRecording] negotiates and the recorder it builds
    on a stream. *)
Definition mimeTypeOf (w : Console.World) : jsstring :=
  if Console.isTypeSupported w Console.opus then Console.opus
  else lit "audio/webm".

Definition recorderOf (w : Console.World) (stream : Console.Stream)
  (s : Console.State) : Console.Recorder :=
  {| Console.rec_stream := stream;
     Console.rec_mimeType := mimeTypeOf w;
     Console.rec_language := Console.selectedLanguage s |}.

(** What the platform's [toLowerCase] is assumed to do: it agrees with the
    Basic Latin mapping on ASCII text, and leaves text made of white space
    alone. *)
Definition lowers_ascii (toLowerCase : jsstring -> jsstring) : Prop :=
  forall s, forallb isAscii s = true -> toLowerCase s = asciiLower s.

Definition keeps_blank (toLowerCase : jsstring -> jsstring) : Prop :=
  forall s, forallb isWhiteSpace s = true -> toLowerCase s = s.

End Spec.

(* ================================================================== *)
(** * Concrete inputs *)
(* ================================================================== *)

Module Sample.

Definition transcription : Transcription :=
  {| t_text := lit "hello";
     t_language := Some (lit "english");
     t_duration := VNumber 1;
     t_segments := VArray [] |}.

Definition whisper_ok (_ : WhisperArgs) : Transcription + Exn :=
  inl transcription.

Definition rate_limited : Exn :=
  {| e_status := Some 429%N; e_code := Some (lit "rate_limit_exceeded");
     e_message := Some (lit "429 Too Many Requests");
     e_toString := lit "Error: 429 Too Many Requests" |}.

Definition whisper_429 (_ : WhisperArgs) : Transcription + Exn :=
  inr rate_limited.

Definition host : Whisper2.Host :=
  {| Whisper2.now := 1700000000000;
     Whisper2.tmpdir := lit "/tmp";
     Whisper2.path_join := fun a b => a ++ lit "/" ++ b;
     Whisper2.writeFile := fun _ _ => None |}.

Definition clip (ty : jsstring) (size : N) : File :=
  {| f_name := lit "clip.webm"; f_type := ty; f_size := size |}.

Definition upload (ty : jsstring) (size : N) : FormData :=
  [(lit "audio", EFile (clip ty size))].

Definition voices : list Console.Voice :=
  [{| Console.v_name := lit "Google US English";
      Console.v_lang := Some (lit "en-US") |};
   {| Console.v_name := lit "Google हिन्दी";
      Console.v_lang := Some (lit "hi-IN") |}].

(** A platform on which everything succeeds: the microphone is granted,
    the transcript comes back as "hello", and the text-generation endpoint
    answers "Hi there". *)
Definition world : Console.World :=
  {| Console.getUserMedia := inr 1%N;
     Console.isTypeSupported := fun _ => true;
     Console.newMediaRecorder := None;
     Console.transcribe := fun _ =>
       Console.JsonData true (VObject [(lit "text", VString (lit "hello"))]);
     Console.mistral := fun _ =>
       Console.JsonData true
         (VObject [(lit "response", VString (lit "Hi there"))]);
     Console.hasSpeechSynthesis := true;
     Console.newUtterance := None;
     Console.getVoices := voices |}.

(** The same platform handing out another stream. *)
Definition world2 : Console.World :=
  {| Console.getUserMedia := inr 2%N;
     Console.isTypeSupported := fun _ => true;
     Console.newMediaRecorder := None;
     Console.transcribe := Console.transcribe world;
     Console.mistral := Console.mistral world;
     Console.hasSpeechSynthesis := true;
     Console.newUtterance := None;
     Console.getVoices := voices |}.

(** A component whose previous reply is still being spoken, and the
    actions of one more turn on it. *)
Definition playing : Console.System :=
  {| Console.comp :=
       Console.upd_isPlaying true
         (Console.upd_reply (VString (lit "previous reply")) Console.initial);
     Console.queue :=
       [{| Console.u_text := lit "previous reply"; Console.u_voice := None |}] |}.

Definition turn : list (Console.World * Console.Action) :=
  [(world, Console.Press);
   (world, Console.ReplyChanged);
   (world, Console.DataAvailable
             {| Console.b_type := Console.opus; Console.b_size := 4096 |});
   (world, Console.Release);
   (world, Console.Stopped (Spec.recorderOf world 1%N Console.initial));
   (world, Console.ReplyChanged)].

End Sample.

(* ================================================================== *)
(** * Vocabulary of the further properties *)
(* ================================================================== *)

Module Props.

(** The blocks each listing scans, with the label each one adds, in the
    order of the tests. *)
Definition latin (c : N) : bool := in_range 97 122 c || in_range 65 90 c.

Definition scripts1 : list ((N -> bool) * jsstring) :=
  [(in_range 0x0900 0x097F, lit "Hindi");
   (in_range 0x0B80 0x0BFF, lit "Tamil");
   (in_range 0x0C00 0x0C7F, lit "Telugu");
   (in_range 0x0D00 0x0D7F, lit "Malayalam");
   (in_range 0x0C80 0x0CFF, lit "Kannada");
   (in_range 0x0980 0x09FF, lit "Bengali");
   (in_range 0x0A80 0x0AFF, lit "Gujarati");
   (in_range 0x0A00 0x0A7F, lit "Punjabi");
   (latin, lit "English")].

Definition scripts2 : list ((N -> bool) * jsstring) :=
  [(in_range 0x0900 0x097F, lit "Hindi");
   (in_range 0x0B80 0x0BFF, lit "Tamil");
   (in_range 0x0C00 0x0C7F, lit "Telugu");
   (in_range 0x0D00 0x0D7F, lit "Malayalam");
   (in_range 0x0C80 0x0CFF, lit "Kannada");
   (in_range 0x0980 0x09FF, lit "Bengali / Assamese");
   (in_range 0x0A80 0x0AFF, lit "Gujarati");
   (in_range 0x0A00 0x0A7F, lit "Punjabi");
   (in_range 0x0B00 0x0B7F, lit "Odia");
   (in_range 0x0600 0x06FF, lit "Urdu");
   (latin, lit "English")].

(** The labels of the blocks that have a code unit in the text. *)
Definition present (table : list ((N -> bool) * jsstring)) (text : jsstring)
  : list jsstring :=
  map snd (filter (fun p => test_class (fst p) text) table).

Fixpoint nodupb (l : list jsstring) : bool :=
  match l with
  | [] => true
  | x :: l' => negb (existsb (str_eqb x) l') && nodupb l'
  end.

(** The language hint of a request: absent, or the text of the field. *)
Definition hint_field (hint : option jsstring) : option entry :=
  option_map EString hint.

(** The two-letter prefix of the lower-cased hint, when it is a supported
    code. *)
Definition directive (toLowerCase : jsstring -> jsstring)
  (hint : option jsstring) : option jsstring :=
  Whisper1.supported (option_map (fun s => slice0 2 (toLowerCase s)) hint).

Definition codes : list jsstring := map fst Whisper1.SUPPORTED_LANGUAGES.

(** The hint asks for detection: it is absent, empty, or the word auto. *)
Definition auto_hint (hint : option jsstring) : bool :=
  match hint with
  | None | Some [] => true
  | Some s => str_eqb s (lit "auto")
  end.


(** An upload that passes the three checks of a listing. *)
Definition valid1 (formData : FormData) (f : File) : Prop :=
  formData_get (lit "audio") formData = Some (EFile f) /\
  Spec.contains_name (f_type f) = true /\
  (f_size f <= maxSize)%N.

Definition valid2 (formData : FormData) (f : File) : Prop :=
  formData_get (lit "audio") formData = Some (EFile f) /\
  Spec.listed Whisper2.allowedTypes (f_type f) = true /\
  (f_size f <= maxSize)%N.

(** The temporary path of a request: the one of its [audio] file. *)
Definition temp_path (host : Whisper2.Host) (request : Request)
  : option jsstring :=
  match request with
  | inr formData =>
      match formData_get (lit "audio") formData with
      | Some (EFile f) => Some (Whisper2.tempFilePath host f)
      | _ => None
      end
  | inl _ => None
  end.

(** An answer reports a transcription: the provider was called once and
    succeeded, and the body carries its text, the scripts [detect] finds in
    that text, and the name and size of the uploaded file. *)
Definition transcribed (detect : jsstring -> list jsstring)
  (whisper : WhisperArgs -> Transcription + Exn)
  (request : Request) (r : Response * list Route.Event) : Prop :=
  exists formData f args t b,
    request = inr formData /\
    formData_get (lit "audio") formData = Some (EFile f) /\
    Spec.calls (snd r) = [args] /\
    whisper args = inl t /\
    body (fst r) = SuccessBody b /\
    r_transcript b = t_text t /\
    r_detectedLanguages b = detect (t_text t) /\
    r_fileName b = f_name f /\
    r_fileSize b = f_size f.

Definition is_error (r : Response) : Prop :=
  exists msg details, body r = ErrorBody msg details.

(** A request is refused: the answer is an error, and nothing was done
    for it beyond logging the exception, if there was one. *)
Definition refused (r : Response * list Route.Event) : Prop :=
  is_error (fst r) /\
  ((status (fst r) = 400%N /\ snd r = []) \/
   (In (status (fst r)) [429; 500; 503]%N /\
    exists e, snd r = [Route.ConsoleError e])).

(** The calls of an answer are well formed: at most one call, to the model
    whisper-1 at temperature 0 with a verbose JSON response, a prompt that is
    not empty, and a language that is absent or one of the supported
    codes. *)
Definition well_formed (r : Response * list Route.Event) : Prop :=
  List.length (Spec.calls (snd r)) <= 1 /\
  forall args, In args (Spec.calls (snd r)) ->
    a_model args = lit "whisper-1" /\
    a_response_format args = lit "verbose_json" /\
    a_temperature args = 0%Z /\
    a_prompt args <> [] /\
    (a_language args = None \/
     exists l, a_language args = Some l /\ In l codes).

(** An answer is sound: its status is one of the five the route uses, a
    200 reports a transcription, and anything else is an error body. *)
Definition sound_answer (detect : jsstring -> list jsstring)
  (whisper : WhisperArgs -> Transcription + Exn)
  (request : Request) (r : Response * list Route.Event) : Prop :=
  In (status (fst r)) [200; 400; 429; 500; 503]%N /\
  (status (fst r) = 200%N -> transcribed detect whisper request r) /\
  (status (fst r) <> 200%N -> is_error (fst r)).

(** The language field is not a file. *)
Definition text_hint (formData : FormData) : Prop :=
  forall lf, formData_get (lit "language") formData <> Some (EFile lf).

Definition is_write (e : Route.Event) : bool :=
  match e with WriteFile _ _ => true | _ => false end.

Definition is_unlink (e : Route.Event) : bool :=
  match e with Unlink _ => true | _ => false end.

(** [NextResponse.json(body)] as the client parses it; [JSON.stringify]
    leaves out the properties whose value is undefined. *)
Definition defined (fields : list (jsstring * value)) : list (jsstring * value) :=
  filter (fun kv => match snd kv with VUndefined => false | _ => true end)
    fields.

Definition json_of (r : Response) : value :=
  match body r with
  | ErrorBody msg details =>
      VObject
        ((lit "error", VString msg)
         :: match details with
            | Some d => [(lit "details", VString d)]
            | None => []
            end)
  | SuccessBody b =>
      VObject
        (defined
           [(lit "success", VBool true);
            (lit "transcript", VString (r_transcript b));
            (lit "language", VString (r_language b));
            (lit "detectedLanguages",
             VArray (map VString (r_detectedLanguages b)));
            (lit "duration", r_duration b);
            (lit "segments", r_segments b);
            (lit "metadata",
             VObject [(lit "fileName", VString (r_fileName b));
                      (lit "fileSize", VNumber (Z.of_N (r_fileSize b)));
                      (lit "autoDetected", VBool (r_autoDetected b))])])
  end.

(** What [fetch] and [response.json()] give the client for a response of
    the route: [response.ok] holds for the statuses 200 to 299. *)
Definition served (r : Response) : Console.FetchOutcome :=
  Console.JsonData ((200 <=? status r)%N && (status r <=? 299)%N) (json_of r).

(** A handler keeps a component of the state when no run of it changes
    it, and is safe when no run of it throws. *)
Definition keeps {A X} (f : Console.State -> X) (m : Console.Act A) : Prop :=
  forall s, f (snd (fst (m s))) = f s.

Definition safe {A} (m : Console.Act A) : Prop :=
  forall s, exists a, fst (fst (m s)) = Console.Ret a.

(** The bytes of a list of chunks. *)
Definition total_size (chunks : list Console.Blob) : N :=
  fold_right (fun c n => (Console.b_size c + n)%N) 0%N chunks.

Definition stop_events (tr : list Console.Event) : list Console.Stream :=
  flat_map (fun e => match e with
                     | Console.StopTracks st => [st]
                     | _ => []
                     end) tr.

(** The message a failed transcription request leaves in [error]; none
    for a 2xx answer with a JSON body. *)
Definition transcription_failed : Exn :=
  {| e_status := None; e_code := None;
     e_message := Some (lit "Transcription failed");
     e_toString := lit "Error: Transcription failed" |}.

Definition request_error (o : Console.FetchOutcome) : option jsstring :=
  match o with
  | Console.FetchRejects e | Console.JsonRejects true e =>
      Some (Console.with_message (lit "Processing error: ") e)
  | Console.JsonRejects false _ | Console.JsonData false _ =>
      Some (Console.with_message (lit "Processing error: ")
              transcription_failed)
  | Console.JsonData true _ => None
  end.

Definition is_stop (e : Console.Event) : bool :=
  match e with Console.StopTracks _ => true | _ => false end.

Definition is_recorder_stop (e : Console.Event) : bool :=
  match e with Console.RecorderStop _ => true | _ => false end.

(** The recording side of the state is the same in two states. *)
Definition same_recording (s s' : Console.State) : Prop :=
  Console.isRecording s' = Console.isRecording s /\
  Console.mediaRecorderRef s' = Console.mediaRecorderRef s /\
  Console.audioChunksRef s' = Console.audioChunksRef s /\
  Console.streamRef s' = Console.streamRef s.

(** Everything but the reply and its explanation is the same. *)
Definition same_but_reply (s s' : Console.State) : Prop :=
  same_recording s s' /\
  Console.transcript s' = Console.transcript s /\
  Console.error s' = Console.error s /\
  Console.isLoading s' = Console.isLoading s /\
  Console.isPlaying s' = Console.isPlaying s /\
  Console.selectedLanguage s' = Console.selectedLanguage s /\
  Console.detectedLanguage s' = Console.detectedLanguage s /\
  Console.transcriptionDuration s' = Console.transcriptionDuration s /\
  Console.utteranceRef s' = Console.utteranceRef s /\
  Console.isLargeText s' = Console.isLargeText s /\
  Console.isIVRMode s' = Console.isIVRMode s.

(** While [isRecording] holds, a recorder and a stream are in the refs. *)
Definition equipped (s : Console.State) : Prop :=
  Console.isRecording s = true ->
  (exists r, Console.mediaRecorderRef s = Some r) /\
  (exists st, Console.streamRef s = Some st).

(** The file a gesture uploads, and the language field that goes with
    it. *)
Definition clip_of (w : Console.World) (chunks : list Console.Blob) : File :=
  {| f_name := lit "recording.webm";
     f_type := Spec.mimeTypeOf w;
     f_size := total_size chunks |}.

Definition language_field (selectedLanguage : jsstring) : option entry :=
  match selectedLanguage with
  | [] => None
  | _ => if str_eqb selectedLanguage (lit "auto") then None
         else Some (EString selectedLanguage)
  end.

Definition has_malayalam (reply : jsstring) : bool :=
  test_class (in_range 0x0D00 0x0D7F) reply.

Definition has_hindi (reply : jsstring) : bool :=
  test_class (in_range 0x0900 0x097F) reply.

Definition lang_has (sub : jsstring) (toLowerCase : jsstring -> jsstring)
  (v : Console.Voice) : bool :=
  Console.lang_test (fun l => includes (toLowerCase l) sub) v.

Definition english (v : Console.Voice) : bool :=
  Console.lang_test (fun l => includes l (lit "en-IN")) v
  || Console.lang_test (fun l => startsWith l (lit "en")) v.

End Props.

(* ================================================================== *)
(** * Further concrete inputs *)
(* ================================================================== *)

Module Sample2.

Definition form (ty : jsstring) (size : N) (hint : option jsstring)
  : FormData :=
  (lit "audio", EFile (Sample.clip ty size))
  :: match hint with
     | Some h => [(lit "language", EString h)]
     | None => []
     end.

Definition unauthorized : Exn :=
  {| e_status := Some 401%N; e_code := Some (lit "invalid_api_key");
     e_message := Some (lit "Incorrect API key provided");
     e_toString := lit "Error: Incorrect API key provided" |}.

Definition disk_full : Exn :=
  {| e_status := None; e_code := Some (lit "ENOSPC");
     e_message := Some (lit "ENOSPC: no space left on device");
     e_toString := lit "Error: ENOSPC: no space left on device" |}.

Definition host_full : Whisper2.Host :=
  {| Whisper2.now := 1700000000000;
     Whisper2.tmpdir := lit "/tmp";
     Whisper2.path_join := fun a b => a ++ lit "/" ++ b;
     Whisper2.writeFile := fun _ _ => Some disk_full |}.

Definition denied : Exn :=
  {| e_status := None; e_code := None;
     e_message := Some (lit "Permission denied");
     e_toString := lit "NotAllowedError: Permission denied" |}.

Definition world_denied : Console.World :=
  {| Console.getUserMedia := inl denied;
     Console.isTypeSupported := fun _ => true;
     Console.newMediaRecorder := None;
     Console.transcribe := Console.transcribe Sample.world;
     Console.mistral := Console.mistral Sample.world;
     Console.hasSpeechSynthesis := true;
     Console.newUtterance := None;
     Console.getVoices := Sample.voices |}.

Definition unsupported : Exn :=
  {| e_status := None; e_code := None;
     e_message := Some (lit "mimeType is not supported");
     e_toString := lit "NotSupportedError: mimeType is not supported" |}.

Definition world_no_recorder : Console.World :=
  {| Console.getUserMedia := inr 7%N;
     Console.isTypeSupported := fun _ => false;
     Console.newMediaRecorder := Some unsupported;
     Console.transcribe := Console.transcribe Sample.world;
     Console.mistral := Console.mistral Sample.world;
     Console.hasSpeechSynthesis := true;
     Console.newUtterance := None;
     Console.getVoices := Sample.voices |}.

(** A platform whose transcription endpoint is the second listing of the
    route, with a provider that succeeds. *)
Definition world_routed : Console.World :=
  {| Console.getUserMedia := inr 1%N;
     Console.isTypeSupported := fun _ => true;
     Console.newMediaRecorder := None;
     Console.transcribe := fun form =>
       Props.served
         (fst (Whisper2.POST asciiLower Sample.host Sample.whisper_ok
                 (inr form)));
     Console.mistral := Console.mistral Sample.world;
     Console.hasSpeechSynthesis := true;
     Console.newUtterance := None;
     Console.getVoices := Sample.voices |}.

Definition world_mute : Console.World :=
  {| Console.getUserMedia := inr 1%N;
     Console.isTypeSupported := fun _ => true;
     Console.newMediaRecorder := None;
     Console.transcribe := Console.transcribe Sample.world;
     Console.mistral := Console.mistral Sample.world;
     Console.hasSpeechSynthesis := false;
     Console.newUtterance := None;
     Console.getVoices := [] |}.

Definition voices_india : list Console.Voice :=
  [{| Console.v_name := lit "Google US English";
      Console.v_lang := Some (lit "en-US") |};
   {| Console.v_name := lit "Lekha";
      Console.v_lang := Some (lit "hi-IN") |};
   {| Console.v_name := lit "Rishi";
      Console.v_lang := Some (lit "en-IN") |};
   {| Console.v_name := lit "Malayalam India";
      Console.v_lang := Some (lit "ml-IN") |}].

End Sample2.

(* ================================================================== *)
(** * Facts about strings and lists *)
(* ================================================================== *)

Unset Implicit Arguments.

Section StringFacts.

Lemma startsWith_app (k s : jsstring) : startsWith (k ++ s) k = true.
Proof.
  induction k as [|c k IH]; simpl; [reflexivity|].
  now rewrite N.eqb_refl, IH.
Qed.

Lemma startsWith_inv (s k : jsstring) :
  startsWith s k = true -> exists r, s = k ++ r.
Proof.
  revert s; induction k as [|c k IH]; intros s H.
  - now exists s.
  - destruct s as [|d s]; simpl in H; [discriminate|].
    apply andb_true_iff in H as [Hc Hk].
    apply N.eqb_eq in Hc; subst d.
    destruct (IH _ Hk) as [r ->]. now exists r.
Qed.

(** [includes] is containment of a contiguous run of code units. *)
Lemma includes_iff (s k : jsstring) :
  includes s k = true <-> exists l1 l2, s = l1 ++ k ++ l2.
Proof.
  split.
  - induction s as [|d s IH]; simpl; intros H.
    + rewrite orb_false_r in H. apply startsWith_inv in H as [r Hr].
      now exists [], r.
    + apply orb_true_iff in H as [H|H].
      * apply startsWith_inv in H as [r Hr]. now exists [], r.
      * destruct (IH H) as (l1 & l2 & ->). now exists (d :: l1), l2.
  - intros (l1 & l2 & ->). induction l1 as [|d l1 IH]; simpl.
    + pose proof (startsWith_app k l2) as H.
      destruct (k ++ l2); simpl; rewrite H; reflexivity.
    + rewrite IH. apply orb_true_r.
Qed.

Lemma str_eqb_eq (a b : jsstring) : str_eqb a b = true <-> a = b.
Proof.
  unfold str_eqb. destruct (list_eq_dec N.eq_dec a b); split; congruence.
Qed.

Lemma str_eqb_refl (a : jsstring) : str_eqb a a = true.
Proof. now apply str_eqb_eq. Qed.

Lemma existsb_str_eqb_In (x : jsstring) (l : list jsstring) :
  existsb (str_eqb x) l = true <-> In x l.
Proof.
  rewrite existsb_exists. split.
  - intros (y & Hy & E). apply str_eqb_eq in E. now subst.
  - intros H. exists x. split; [assumption | apply str_eqb_refl].
Qed.

Lemma trimStart_nil (s : jsstring) :
  trimStart s = [] <-> forallb isWhiteSpace s = true.
Proof.
  induction s as [|c s IH]; simpl; [tauto|].
  destruct (isWhiteSpace c); simpl; [exact IH|].
  split; discriminate.
Qed.

Lemma forallb_rev {A} (p : A -> bool) (l : list A) :
  forallb p (rev l) = forallb p l.
Proof.
  induction l as [|a l IH]; simpl; [reflexivity|].
  rewrite forallb_app, IH. simpl. rewrite andb_true_r. apply andb_comm.
Qed.

Lemma trimStart_suffix (s : jsstring) :
  exists ws, s = ws ++ trimStart s /\ forallb isWhiteSpace ws = true.
Proof.
  induction s as [|c s (ws & E & H)]; simpl.
  - now exists [].
  - destruct (isWhiteSpace c) eqn:Hc.
    + exists (c :: ws). simpl. rewrite Hc, H. split; [now f_equal | reflexivity].
    + now exists [].
Qed.

(** [trim] leaves nothing exactly of the strings made of white space. *)
Lemma trim_nil (s : jsstring) :
  trim s = [] <-> forallb isWhiteSpace s = true.
Proof.
  unfold trim. split.
  - intros H.
    assert (H1 : trimStart (rev (trimStart s)) = []).
    { apply (f_equal (@rev N)) in H. now rewrite rev_involutive in H. }
    apply trimStart_nil in H1. rewrite forallb_rev in H1.
    destruct (trimStart_suffix s) as (ws & E & Hws).
    rewrite E, forallb_app, Hws, H1. reflexivity.
  - intros H. apply trimStart_nil in H. rewrite H. reflexivity.
Qed.

Lemma blank_iff (s : jsstring) :
  Spec.blank s = true <-> forallb isWhiteSpace s = true.
Proof.
  rewrite <- trim_nil. unfold Spec.blank.
  destruct (trim s); split; congruence.
Qed.

(** Text made of white space contains no key that starts with anything
    else. *)
Lemma includes_blank (s k : jsstring) (c : N) :
  forallb isWhiteSpace s = true -> isWhiteSpace c = false ->
  includes s (c :: k) = false.
Proof.
  intros Hs Hc. induction s as [|d s IH]; simpl; [reflexivity|].
  simpl in Hs. apply andb_true_iff in Hs as [Hd Hs].
  rewrite (IH Hs), orb_false_r.
  destruct (N.eqb_spec d c); [congruence | reflexivity].
Qed.

(** [find] returns the first element that passes the test. *)
Lemma find_first {A} (p : A -> bool) (l : list A) (x : A) :
  find p l = Some x <->
  exists l1 l2, l = l1 ++ x :: l2 /\ p x = true /\
                forall y, In y l1 -> p y = false.
Proof.
  split.
  - induction l as [|a l IH]; simpl; [discriminate|].
    destruct (p a) eqn:Ha.
    + intros [= ->]. exists [], l. repeat split; [assumption | intros y []].
    + intros H. destruct (IH H) as (l1 & l2 & -> & Hx & Hl1).
      exists (a :: l1), l2. repeat split; [assumption|].
      intros y [<-|Hy]; [assumption | now apply Hl1].
  - intros (l1 & l2 & -> & Hx & Hl1).
    induction l1 as [|a l1 IH]; simpl.
    + now rewrite Hx.
    + rewrite (Hl1 a (or_introl eq_refl)). apply IH.
      intros y Hy. apply Hl1. now right.
Qed.

Lemma existsb_none {A} (p q : A -> bool) (l : list A) :
  (forall a, p a = true -> q a = false) ->
  forallb p l = true -> existsb q l = false.
Proof.
  intros Hpq. induction l as [|a l IH]; simpl; [reflexivity|].
  intros H. apply andb_true_iff in H as [Ha Hl].
  now rewrite (Hpq a Ha), (IH Hl).
Qed.

Lemma heads_differ (a b r r' : jsstring) (c d : N) :
  hd_error a = Some c -> hd_error b = Some d -> c <> d ->
  a ++ r <> b ++ r'.
Proof. destruct a, b; simpl; congruence. Qed.

Lemma asciiLower_lowers_ascii : Spec.lowers_ascii asciiLower.
Proof. intros s _. reflexivity. Qed.

Lemma asciiLower_keeps_blank : Spec.keeps_blank asciiLower.
Proof.
  intros s. induction s as [|c s IH]; simpl; [reflexivity|].
  intros H. apply andb_true_iff in H as [Hc Hs].
  rewrite (IH Hs). f_equal.
  unfold asciiLowerUnit, in_range.
  destruct (65 <=? c)%N eqn:E1; [|reflexivity].
  destruct (c <=? 90)%N eqn:E2; [|reflexivity].
  apply N.leb_le in E1, E2.
  unfold isWhiteSpace, in_range in Hc. simpl in Hc.
  repeat (apply orb_true_iff in Hc as [Hc|Hc]);
    try (apply N.eqb_eq in Hc; lia); try discriminate.
  apply andb_true_iff in Hc as [H1 H2]. apply N.leb_le in H1. lia.
Qed.

End StringFacts.

(* ================================================================== *)
(** * Script detection *)
(* ================================================================== *)

Section Detection.

Lemma In_set_add (x y : jsstring) (s : list jsstring) :
  In x (set_add y s) <-> In x s \/ x = y.
Proof.
  unfold set_add. destruct (existsb (str_eqb y) s) eqn:E.
  - apply existsb_str_eqb_In in E. split; [tauto|]. intros [H| ->]; assumption.
  - rewrite in_app_iff. simpl. intuition congruence.
Qed.

Lemma In_add_if_keep (b : bool) (x y : jsstring) (s : list jsstring) :
  In x s -> In x (add_if b y s).
Proof.
  intros H. destruct b; simpl; [|assumption]. apply In_set_add. now left.
Qed.

Lemma In_add_if_new (y : jsstring) (s : list jsstring) :
  In y (add_if true y s).
Proof. simpl. apply In_set_add. now right. Qed.

(** No code unit of Latin-script text lies in a block between Greek and
    Latin Extended Additional, where all the scanned scripts are. *)
Lemma latin_outside (lo hi : N) (text : jsstring) :
  (0x0370 <= lo)%N -> (hi < 0x1E00)%N ->
  Spec.latinOnly text = true ->
  test_class (in_range lo hi) text = false.
Proof.
  intros Hlo Hhi. apply existsb_none. intros c Hc.
  unfold Spec.latinScriptUnit, in_range in *.
  destruct (N.leb_spec lo c); [|reflexivity].
  destruct (N.leb_spec c hi); [|reflexivity].
  exfalso.
  repeat (apply orb_true_iff in Hc as [Hc|Hc]);
    try (apply N.ltb_lt in Hc; lia);
    apply andb_true_iff in Hc as [H1 H2];
    apply N.leb_le in H1; lia.
Qed.

Lemma detect1_latin (text : jsstring) :
  Spec.latinOnly text = true -> Spec.hasLatinLetter text = true ->
  Whisper1.detectLanguagesInText text = [lit "English"].
Proof.
  intros Hl He. unfold Whisper1.detectLanguagesInText. cbv zeta.
  rewrite !(fun lo hi a b => latin_outside lo hi text a b Hl) by lia.
  change (test_class (fun c => in_range 97 122 c || in_range 65 90 c) text)
    with (Spec.hasLatinLetter text).
  rewrite He. reflexivity.
Qed.

Lemma detect2_latin (text : jsstring) :
  Spec.latinOnly text = true -> Spec.hasLatinLetter text = true ->
  Whisper2.detectLanguagesInText text = [lit "English"].
Proof.
  intros Hl He. unfold Whisper2.detectLanguagesInText. cbv zeta.
  rewrite !(fun lo hi a b => latin_outside lo hi text a b Hl) by lia.
  change (test_class (fun c => in_range 97 122 c || in_range 65 90 c) text)
    with (Spec.hasLatinLetter text).
  rewrite He. reflexivity.
Qed.

Lemma detect1_mixed (text : jsstring) :
  Spec.hasDevanagari text = true -> Spec.hasLatinLetter text = true ->
  In (lit "Hindi") (Whisper1.detectLanguagesInText text) /\
  In (lit "English") (Whisper1.detectLanguagesInText text).
Proof.
  intros Hd He. unfold Whisper1.detectLanguagesInText. cbv zeta.
  change (test_class (fun c => in_range 97 122 c || in_range 65 90 c) text)
    with (Spec.hasLatinLetter text).
  change (test_class (in_range 0x0900 0x097F) text) with (Spec.hasDevanagari text).
  rewrite Hd, He. split.
  - repeat first [apply In_add_if_new | apply In_add_if_keep].
  - apply In_add_if_new.
Qed.

Lemma detect2_mixed (text : jsstring) :
  Spec.hasDevanagari text = true -> Spec.hasLatinLetter text = true ->
  In (lit "Hindi") (Whisper2.detectLanguagesInText text) /\
  In (lit "English") (Whisper2.detectLanguagesInText text).
Proof.
  intros Hd He. unfold Whisper2.detectLanguagesInText. cbv zeta.
  change (test_class (fun c => in_range 97 122 c || in_range 65 90 c) text)
    with (Spec.hasLatinLetter text).
  change (test_class (in_range 0x0900 0x097F) text) with (Spec.hasDevanagari text).
  rewrite Hd, He. split.
  - repeat first [apply In_add_if_new | apply In_add_if_keep].
  - apply In_add_if_new.
Qed.

(** C9. In both listings of the route, [detectLanguagesInText] returns
    exactly the one-element set English for every transcript of Latin-script
    text that has a letter of A-Z or a-z, and a set containing both Hindi and
    English for every transcript that has a code unit of the Devanagari block
    and such a letter. *)
Theorem C9_detectLanguagesInText (text : jsstring) :
  (Spec.latinOnly text = true -> Spec.hasLatinLetter text = true ->
   Whisper1.detectLanguagesInText text = [lit "English"] /\
   Whisper2.detectLanguagesInText text = [lit "English"]) /\
  (Spec.hasDevanagari text = true -> Spec.hasLatinLetter text = true ->
   (In (lit "Hindi") (Whisper1.detectLanguagesInText text) /\
    In (lit "English") (Whisper1.detectLanguagesInText text)) /\
   (In (lit "Hindi") (Whisper2.detectLanguagesInText text) /\
    In (lit "English") (Whisper2.detectLanguagesInText text))).
Proof.
  split; intros H1 H2.
  - split; [now apply detect1_latin | now apply detect2_latin].
  - split; [now apply detect1_mixed | now apply detect2_mixed].
Qed.

Lemma C9_detectLanguagesInText_witness :
  (Whisper1.detectLanguagesInText (lit "Power outage, since 6 PM!")
     = [lit "English"] /\
   Whisper2.detectLanguagesInText (lit "Power outage, since 6 PM!")
     = [lit "English"]) /\
  ((In (lit "Hindi") (Whisper1.detectLanguagesInText (lit "बिजली नहीं है please help")) /\
    In (lit "English") (Whisper1.detectLanguagesInText (lit "बिजली नहीं है please help"))) /\
   (In (lit "Hindi") (Whisper2.detectLanguagesInText (lit "बिजली नहीं है please help")) /\
    In (lit "English") (Whisper2.detectLanguagesInText (lit "बिजली नहीं है please help")))).
Proof.
  split.
  - destruct (C9_detectLanguagesInText (lit "Power outage, since 6 PM!"))
      as [H _].
    apply H; vm_compute; reflexivity.
  - destruct (C9_detectLanguagesInText (lit "बिजली नहीं है please help"))
      as [_ H].
    apply H; vm_compute; reflexivity.
Defined.

End Detection.

(* ================================================================== *)
(** * Upload validation *)
(* ================================================================== *)

Section Validation.

Import Spec.

Variable toLowerCase : jsstring -> jsstring.
Variable development : bool.
Variable whisper : WhisperArgs -> Transcription + Exn.
Variable host : Whisper2.Host.

Lemma catch1_not_400 (e : Exn) :
  status (Whisper1.POST_catch development e) <> 400%N.
Proof.
  unfold Whisper1.POST_catch.
  destruct (Whisper1.status_is e 429); [discriminate|].
  destruct (Whisper1.status_is e 401); [discriminate|].
  destruct (Whisper1.code_is e _); discriminate.
Qed.

Lemma catch2_not_400 (e : Exn) : status (Whisper2.POST_catch e) <> 400%N.
Proof.
  unfold Whisper2.POST_catch.
  destruct (Whisper2.status_is e 429); [discriminate|].
  destruct (Whisper2.status_is e 401); discriminate.
Qed.

Lemma classify_json_error (msg : jsstring) :
  classify (json_error msg 400) =
  if str_eqb msg (lit "No audio file provided") then Some MissingAudio
  else if startsWith msg (lit "Invalid file type: ") then Some UnsupportedFormat
  else if startsWith msg (lit "File too large: ")
          || str_eqb msg (lit "File exceeds 25MB limit")
  then Some PayloadTooLarge
  else None.
Proof. reflexivity. Qed.

Lemma classify_missing :
  classify (json_error (lit "No audio file provided") 400) = Some MissingAudio.
Proof. reflexivity. Qed.

Lemma classify_invalid1 (ty : jsstring) :
  classify (json_error (Whisper1.invalid_type_message ty) 400)
  = Some UnsupportedFormat.
Proof.
  rewrite classify_json_error. unfold Whisper1.invalid_type_message.
  rewrite startsWith_app.
  destruct (str_eqb _ _) eqn:E; [|reflexivity].
  apply str_eqb_eq in E. vm_compute in E. discriminate.
Qed.

Lemma classify_invalid2 (ty : option jsstring) :
  classify (json_error (Whisper2.invalid_type_message ty) 400)
  = Some UnsupportedFormat.
Proof.
  rewrite classify_json_error. unfold Whisper2.invalid_type_message.
  rewrite startsWith_app.
  destruct (str_eqb _ _) eqn:E; [|reflexivity].
  apply str_eqb_eq in E. destruct ty; vm_compute in E; discriminate.
Qed.

Lemma classify_too_large1 (size : N) :
  classify (json_error (Whisper1.too_large_message size) 400)
  = Some PayloadTooLarge.
Proof.
  rewrite classify_json_error. unfold Whisper1.too_large_message.
  rewrite (startsWith_app (lit "File too large: ")). simpl orb.
  destruct (str_eqb _ _) eqn:E.
  { apply str_eqb_eq in E. exfalso.
    rewrite <- (app_nil_r (lit "No audio file provided")) in E. revert E.
    apply (heads_differ _ _ _ [] 70 78)%N;
      [vm_compute; reflexivity | vm_compute; reflexivity | discriminate]. }
  destruct (startsWith _ (lit "Invalid file type: ")) eqn:E2; [|reflexivity].
  apply startsWith_inv in E2 as [r E2]. exfalso. revert E2.
  apply (heads_differ _ _ _ r 70 73)%N;
    [vm_compute; reflexivity | vm_compute; reflexivity | discriminate].
Qed.

Lemma classify_too_large2 :
  classify (json_error (lit "File exceeds 25MB limit") 400)
  = Some PayloadTooLarge.
Proof. reflexivity. Qed.

(** The substring test of the first listing, spelled with the subtype
    names. *)
Lemma type_matches_names (ty : jsstring) :
  existsb (Whisper1.type_matches ty) Whisper1.validTypes = contains_name ty.
Proof. reflexivity. Qed.

Lemma validTypes_contain_name (ty : jsstring) :
  In ty Whisper1.validTypes -> contains_name ty = true.
Proof.
  intros H. repeat (destruct H as [<-|H]; [reflexivity|]). destruct H.
Qed.

Lemma validates1 :
  validates contains_name (Whisper1.POST toLowerCase development whisper).
Proof.
  intros formData r. subst r. unfold Whisper1.POST, Whisper1.POST_try.
  split.
  - intros ->. split; reflexivity.
  - intros f ->. rewrite type_matches_names.
    split; [|split].
    + intros ->. simpl negb. cbv iota. simpl fst. simpl snd.
      split; [apply classify_invalid1 | reflexivity].
    + intros -> Hs. apply N.ltb_lt in Hs. rewrite Hs. simpl negb. cbv iota.
      simpl fst. simpl snd.
      split; [apply classify_too_large1 | reflexivity].
    + intros -> Hs. apply N.ltb_ge in Hs. rewrite Hs. simpl negb. cbv iota.
      destruct (Whisper1.normalize toLowerCase _) as [e|normalizedLang].
      { apply catch1_not_400. }
      match goal with |- context [whisper ?a] => destruct (whisper a) as [t|e] end.
      * simpl. discriminate.
      * apply catch1_not_400.
Qed.

Lemma validates2 :
  validates (listed Whisper2.allowedTypes)
    (Whisper2.POST toLowerCase host whisper).
Proof.
  intros formData r. subst r. unfold Whisper2.POST, Whisper2.POST_try.
  split.
  - intros ->. split; reflexivity.
  - intros f ->. fold (listed Whisper2.allowedTypes (f_type f)).
    split; [|split].
    + intros ->. simpl negb. cbv iota. simpl fst. simpl snd.
      split; [apply classify_invalid2 | reflexivity].
    + intros -> Hs. apply N.ltb_lt in Hs. rewrite Hs. simpl negb. cbv iota.
      split; reflexivity.
    + intros -> Hs. apply N.ltb_ge in Hs. rewrite Hs. simpl negb. cbv iota.
      destruct (Whisper2.language_or_auto _) as [lf|language].
      { apply catch2_not_400. }
      destruct (Whisper2.writeFile host _ f) as [e|].
      { apply catch2_not_400. }
      match goal with |- context [whisper ?a] => destruct (whisper a) as [t|e] end.
      * simpl. discriminate.
      * apply catch2_not_400.
Qed.

End Validation.

Section ValidationClaims.

Import Spec.

(** C3 (as amended). In the first listing of the route the MIME test is a
    substring test: a payload passes validation when its type contains one of
    the names webm, wav, mp3, m4a, mpeg, ogg (every type of the listed
    [validTypes] does) and its size is at most 25 MiB; a missing payload, a
    type containing none of the names, or an accepted type with a size of
    25 MiB + 1 byte or more is answered with its own error (MissingAudio,
    UnsupportedFormat, PayloadTooLarge, checked in this order), status 400,
    and no call to the provider. In the second listing the same holds with
    membership in [allowedTypes] as the test. *)
Theorem C3_upload_validation
  (toLowerCase : jsstring -> jsstring) (development : bool)
  (whisper1 whisper2 : WhisperArgs -> Transcription + Exn)
  (host : Whisper2.Host) :
  validates contains_name (Whisper1.POST toLowerCase development whisper1) /\
  (forall ty, In ty Whisper1.validTypes -> contains_name ty = true) /\
  validates (listed Whisper2.allowedTypes)
    (Whisper2.POST toLowerCase host whisper2).
Proof.
  split; [apply validates1|].
  split; [apply validTypes_contain_name | apply validates2].
Qed.

Lemma C3_upload_validation_witness :
  let big := Sample.upload (lit "audio/webm") (25 * 1024 * 1024 + 1) in
  let r1 := Whisper1.POST asciiLower false Sample.whisper_ok (inr big) in
  let r2 := Whisper2.POST asciiLower Sample.host Sample.whisper_ok (inr big) in
  (classify (fst r1) = Some PayloadTooLarge /\ calls (snd r1) = []) /\
  (classify (fst r2) = Some PayloadTooLarge /\ calls (snd r2) = []).
Proof.
  intros big r1 r2.
  pose proof (C3_upload_validation asciiLower false Sample.whisper_ok
                Sample.whisper_ok Sample.host) as (H1 & _ & H2).
  split.
  - destruct (H1 big) as [_ Hf].
    destruct (Hf (Sample.clip (lit "audio/webm") (25 * 1024 * 1024 + 1))
                ltac:(vm_compute; reflexivity)) as (_ & Hb & _).
    apply Hb; vm_compute; reflexivity.
  - destruct (H2 big) as [_ Hf].
    destruct (Hf (Sample.clip (lit "audio/webm") (25 * 1024 * 1024 + 1))
                ltac:(vm_compute; reflexivity)) as (_ & Hb & _).
    apply Hb; vm_compute; reflexivity.
Defined.

(** C3, as stated, fails on the first listing: an upload of type
    video/webm, which is not in the allow-list [validTypes], is not refused
    as UnsupportedFormat. *)
Lemma C3_counterexample :
  ~ validates (listed Whisper1.validTypes)
      (Whisper1.POST asciiLower false Sample.whisper_ok).
Proof.
  intros H.
  destruct (H (Sample.upload (lit "video/webm") 1)) as [_ Hf].
  destruct (Hf _ eq_refl) as [Hu _].
  destruct (Hu eq_refl) as [Hc _].
  vm_compute in Hc. discriminate.
Qed.

(** The video/webm upload goes all the way to the provider. *)
Lemma video_webm_reaches_provider :
  let r := Whisper1.POST asciiLower false Sample.whisper_ok
             (inr (Sample.upload (lit "video/webm") 1)) in
  status (fst r) = 200%N /\ List.length (calls (snd r)) = 1.
Proof. split; vm_compute; reflexivity. Qed.

(** The first listing refuses audio/mp4, which only the second one lists;
    the second refuses audio/m4a and the recorder's own
    audio/webm;codecs=opus, which the first one lets through. *)
Lemma listings_disagree :
  contains_name (lit "audio/mp4") = false /\
  listed Whisper2.allowedTypes (lit "audio/mp4") = true /\
  contains_name (lit "audio/m4a") = true /\
  listed Whisper2.allowedTypes (lit "audio/m4a") = false /\
  contains_name Console.opus = true /\
  listed Whisper2.allowedTypes Console.opus = false.
Proof. repeat split; vm_compute; reflexivity. Qed.

End ValidationClaims.

(* ================================================================== *)
(** * The temporary file of the second listing *)
(* ================================================================== *)

Section TempFile.

Import Spec.

Variable toLowerCase : jsstring -> jsstring.
Variable host : Whisper2.Host.
Variable whisper : WhisperArgs -> Transcription + Exn.

Lemma language_or_auto_file (e : option entry) (lf : File) :
  Whisper2.language_or_auto e = EFile lf -> e = Some (EFile lf).
Proof.
  unfold Whisper2.language_or_auto.
  destruct e as [[f|s]|]; simpl; try discriminate.
  - congruence.
  - destruct s; discriminate.
Qed.

(** Once the upload has been written to its temporary path, that file is
    gone after a successful transcription and still there after a failed
    one. *)
Lemma temp_file_fate (formData : FormData) (f : File) (files : list jsstring) :
  formData_get (lit "audio") formData = Some (EFile f) ->
  listed Whisper2.allowedTypes (f_type f) = true ->
  (f_size f <= maxSize)%N ->
  (forall lf, formData_get (lit "language") formData <> Some (EFile lf)) ->
  Whisper2.writeFile host (Whisper2.tempFilePath host f) f = None ->
  let r := Whisper2.POST toLowerCase host whisper (inr formData) in
  let p := Whisper2.tempFilePath host f in
  List.length (calls (snd r)) = 1 /\
  (status (fst r) = 200%N -> ~ In p (fs_after files (snd r))) /\
  (status (fst r) <> 200%N -> In p (fs_after files (snd r))).
Proof.
  intros Ha Hl Hs Hlang Hw r p. subst r p.
  unfold Whisper2.POST, Whisper2.POST_try. rewrite Ha.
  fold (listed Whisper2.allowedTypes (f_type f)). rewrite Hl.
  apply N.ltb_ge in Hs. rewrite Hs. simpl negb. cbv iota.
  destruct (Whisper2.language_or_auto _) as [lf|language] eqn:El.
  { apply language_or_auto_file in El. now apply Hlang in El. }
  rewrite Hw.
  match goal with |- context [whisper ?a] => destruct (whisper a) as [t|e] end.
  - split; [reflexivity|]. split; [|intros H; now elim H].
    intros _. simpl. rewrite str_eqb_refl. simpl.
    intros H. apply filter_In in H as [_ H].
    rewrite str_eqb_refl in H. discriminate.
  - split; [reflexivity|]. split; [|intros _; simpl; now left].
    intros H. exfalso. revert H. simpl fst.
    unfold Whisper2.POST_catch.
    destruct (Whisper2.status_is e 429); [discriminate|].
    destruct (Whisper2.status_is e 401); discriminate.
Qed.

End TempFile.

(** C6. At a well-formed 1 KiB audio/webm upload that the provider answers
    with status 429, the second listing writes the temporary file, makes the
    call, answers 429, and never unlinks the file: it is still on disk after
    the request. *)
Theorem C6_temp_file_left_on_failure :
  let file := Sample.clip (lit "audio/webm") 1024 in
  let p := Whisper2.tempFilePath Sample.host file in
  let r := Whisper2.POST asciiLower Sample.host Sample.whisper_429
             (inr (Sample.upload (lit "audio/webm") 1024)) in
  fst r = json_error (lit "Rate limit exceeded") 429 /\
  (exists args,
     snd r = [WriteFile p file; WhisperCall args;
              Route.ConsoleError Sample.rate_limited]) /\
  fs_after [] (snd r) = [p].
Proof.
  intros file p r. split; [vm_compute; reflexivity|].
  split; [|vm_compute; reflexivity].
  eexists. vm_compute. reflexivity.
Qed.

(** On the same upload a successful transcription unlinks the file. *)
Lemma temp_file_removed_on_success :
  let r := Whisper2.POST asciiLower Sample.host Sample.whisper_ok
             (inr (Sample.upload (lit "audio/webm") 1024)) in
  status (fst r) = 200%N /\ fs_after [] (snd r) = [].
Proof. split; vm_compute; reflexivity. Qed.

(* ================================================================== *)
(** * Intent resolution *)
(* ================================================================== *)

Section Resolver.

Import Console Spec.

Variable toLowerCase : jsstring -> jsstring.
Variable world : World.

Local Abbreviation resolve := (processBusinessLogic toLowerCase world).

Ltac run :=
  unfold setReply, setCurrentExplanation, setShowExplanation, bind, emit,
    modify, ret, throw; simpl.

Lemma resolve_blank (text : jsstring) (s : State) :
  blank text = true -> resolve text s = (Ret tt, s, []).
Proof.
  unfold blank, processBusinessLogic. destruct (trim text); [|discriminate].
  reflexivity.
Qed.

Lemma matchScenario_key (lowerText k : jsstring) :
  matchScenario lowerText = Some k ->
  In k (map fst scenarioResponses) /\ includes lowerText k = true.
Proof. unfold matchScenario. apply find_some. Qed.

Lemma keys_nonblank (k : jsstring) :
  In k (map fst scenarioResponses) ->
  exists c k', k = c :: k' /\ isWhiteSpace c = false.
Proof.
  intros [<-|[<-|[]]]; vm_compute; eexists _, _; split; reflexivity.
Qed.

Lemma firstResponse_text (k : jsstring) :
  In k (map fst scenarioResponses) ->
  exists c r rest,
    assoc k scenarioResponses = Some ((c :: r) :: rest) /\
    firstResponse k = VString (c :: r).
Proof.
  unfold firstResponse.
  intros [<-|[<-|[]]]; vm_compute; eexists _, _, _; split; reflexivity.
Qed.

(** A transcript that a trigger is found in is not blank. *)
Lemma match_not_blank (text k : jsstring) :
  keeps_blank toLowerCase ->
  In k (map fst scenarioResponses) -> includes (toLowerCase text) k = true ->
  blank text = false.
Proof.
  intros Hb Hk Hin. destruct (blank text) eqn:B; [|reflexivity].
  apply blank_iff in B. rewrite (Hb _ B) in Hin.
  destruct (keys_nonblank _ Hk) as (c & k' & -> & Hc).
  rewrite (includes_blank _ _ _ B Hc) in Hin. discriminate.
Qed.

Lemma resolve_match (text k : jsstring) (s : State) :
  blank text = false ->
  matchScenario (toLowerCase text) = Some k ->
  resolve text s =
  (Ret tt,
   upd_showExplanation true
     (upd_currentExplanation (assoc k aiExplanationData)
        (upd_reply (firstResponse k) s)),
   [SetReply (firstResponse k);
    SetCurrentExplanation (assoc k aiExplanationData);
    SetShowExplanation true]).
Proof.
  intros B M. unfold blank in B. unfold processBusinessLogic.
  destruct (trim text); [discriminate|]. rewrite M.
  destruct (matchScenario_key _ _ M) as [Hk _].
  destruct (keys_nonblank _ Hk) as (c & k' & -> & _).
  reflexivity.
Qed.

(** What the delegation leaves in [reply] before the resolver goes on. *)
Lemma delegate_run (text : jsstring) (s : State) :
  exists v,
    truthy v = true /\
    delegate world text s =
    (Ret tt, upd_reply v s,
     [FetchMistral (lit "/api/mistral") text; SetReply v]).
Proof.
  unfold delegate, try_catch. run.
  destruct (mistral world text) as [e|ok e|ok data]; simpl.
  - exists (VString offlineReply). split; reflexivity.
  - exists (VString offlineReply). split; reflexivity.
  - destruct (get_prop data (lit "response")) as [response|]; simpl.
    + destruct (truthy response) eqn:T.
      * exists response. split; [assumption | reflexivity].
      * exists (VString processedReply). split; reflexivity.
    + exists (VString offlineReply). split; reflexivity.
Qed.

Lemma resolve_no_match (text : jsstring) (s : State) :
  blank text = false ->
  matchScenario (toLowerCase text) = None ->
  exists v,
    resolve text s =
    (Ret tt, upd_reply (VString fallbackReply) (upd_reply v s),
     [FetchMistral (lit "/api/mistral") text; SetReply v;
      SetReply (VString fallbackReply)]).
Proof.
  intros B M. unfold blank in B. unfold processBusinessLogic.
  destruct (trim text); [discriminate|]. rewrite M.
  destruct (delegate_run text s) as (v & _ & E). exists v.
  unfold bind at 1. rewrite E. reflexivity.
Qed.

Lemma matchScenario_first (lowerText k : jsstring) :
  firstMatch scenarioResponses lowerText k <->
  matchScenario lowerText = Some k.
Proof.
  unfold firstMatch, matchScenario. rewrite find_first. reflexivity.
Qed.

End Resolver.

Section ResolverClaims.

Import Console Spec.

(** C1 (as amended). [processBusinessLogic] never throws. For every
    transcript that is not blank, whatever the delegation does (the request
    fails, the body is not JSON, the answer has no usable text, or it has
    one), the resolver ends with a non-empty reply text in [reply]. For a
    blank transcript it returns at once: no state is written and nothing is
    requested. *)
Theorem C1_resolve_total
  (toLowerCase : jsstring -> jsstring) (world : World)
  (text : jsstring) (s : State) :
  let out := processBusinessLogic toLowerCase world text s in
  fst (fst out) = Ret tt /\
  (blank text = false ->
   exists c r, reply (snd (fst out)) = VString (c :: r)) /\
  (blank text = true -> out = (Ret tt, s, [])).
Proof.
  intros out. subst out. destruct (blank text) eqn:B.
  - rewrite (resolve_blank _ _ _ _ B).
    split; [reflexivity|]. split; [discriminate | reflexivity].
  - destruct (matchScenario (toLowerCase text)) as [k|] eqn:M.
    + rewrite (resolve_match _ _ _ _ _ B M).
      split; [reflexivity|]. split; [|discriminate]. intros _.
      destruct (matchScenario_key _ _ M) as [Hk _].
      destruct (firstResponse_text _ Hk) as (c & r & rest & _ & E).
      exists c, r. simpl. exact E.
    + destruct (resolve_no_match _ world _ s B M) as (v & E). rewrite E.
      split; [reflexivity|]. split; [|discriminate]. intros _.
      vm_compute. eexists _, _. reflexivity.
Qed.

Lemma C1_resolve_total_witness :
  let out := processBusinessLogic asciiLower Sample.world
               (lit "my street light is broken") initial in
  exists c r, reply (snd (fst out)) = VString (c :: r).
Proof.
  intros out.
  destruct (C1_resolve_total asciiLower Sample.world
              (lit "my street light is broken") initial) as (_ & H & _).
  apply H. vm_compute. reflexivity.
Defined.

(** C1, as stated, fails at the empty transcript: the resolver returns
    without writing [reply], which stays empty. *)
Lemma C1_counterexample :
  let out := processBusinessLogic asciiLower Sample.world (lit "") initial in
  out = (Ret tt, initial, []) /\ reply (snd (fst out)) = VString [].
Proof. split; vm_compute; reflexivity. Qed.

(** Whenever the resolver delegates, the reply it ends with is the fixed
    fallback sentence, whatever the text-generation service answered. *)
Lemma delegated_reply_overwritten
  (toLowerCase : jsstring -> jsstring) (world : World)
  (text : jsstring) (s : State) :
  blank text = false ->
  matchScenario (toLowerCase text) = None ->
  reply (snd (fst (processBusinessLogic toLowerCase world text s)))
  = VString fallbackReply.
Proof.
  intros B M. destruct (resolve_no_match _ world _ s B M) as (v & ->).
  reflexivity.
Qed.

(** C2. At the transcript "hello", which no trigger matches, and with the
    text-generation service answering [{ response: "Hi there" }], the
    resolver writes "Hi there" to [reply] and then overwrites it: the reply
    it leaves is the generic fallback sentence. *)
Theorem C2_delegated_reply_lost :
  let out := processBusinessLogic asciiLower Sample.world (lit "hello")
               initial in
  matchScenario (asciiLower (lit "hello")) = None /\
  snd out = [FetchMistral (lit "/api/mistral") (lit "hello");
             SetReply (VString (lit "Hi there"));
             SetReply (VString fallbackReply)] /\
  reply (snd (fst out)) = VString fallbackReply /\
  VString fallbackReply <> VString (lit "Hi there").
Proof.
  repeat split; try (vm_compute; reflexivity).
  vm_compute. discriminate.
Qed.

(** C5. The resolver looks for each trigger of [scenarioResponses], in
    the order of the table, as a run of code units inside the lower-cased
    transcript; when [k] is the first trigger found, [reply] becomes the
    first candidate reply of [k], unchanged, and the explanation of [k] is
    attached and shown. On "Our water tank is almost empty" that is the
    water-tank reply with an explanation of confidence 92. *)
Theorem C5_scenario_resolution
  (toLowerCase : jsstring -> jsstring) (world : World) (s : State) :
  keeps_blank toLowerCase -> lowers_ascii toLowerCase ->
  (forall text k,
     firstMatch scenarioResponses (toLowerCase text) k ->
     let out := processBusinessLogic toLowerCase world text s in
     exists r rest x,
       assoc k scenarioResponses = Some (r :: rest) /\
       assoc k aiExplanationData = Some x /\
       fst (fst out) = Ret tt /\
       reply (snd (fst out)) = VString r /\
       currentExplanation (snd (fst out)) = Some x /\
       showExplanation (snd (fst out)) = true) /\
  (let out := processBusinessLogic toLowerCase world
                (lit "Our water tank is almost empty") s in
   reply (snd (fst out)) =
     VString (lit "Water tank level critical. Refill scheduled for tomorrow morning between 6-8 AM. You'll receive an SMS confirmation shortly.") /\
   exists x, currentExplanation (snd (fst out)) = Some x /\
             x_confidence x = 92%Z).
Proof.
  intros Hb Ha.
  assert (G : forall text k,
    firstMatch scenarioResponses (toLowerCase text) k ->
    processBusinessLogic toLowerCase world text s =
    (Ret tt,
     upd_showExplanation true
       (upd_currentExplanation (assoc k aiExplanationData)
          (upd_reply (firstResponse k) s)),
     [SetReply (firstResponse k);
      SetCurrentExplanation (assoc k aiExplanationData);
      SetShowExplanation true]) /\ In k (map fst scenarioResponses)).
  { intros text k F. apply matchScenario_first in F.
    destruct (matchScenario_key _ _ F) as [Hk Hin].
    split; [|exact Hk].
    apply resolve_match; [|exact F].
    exact (match_not_blank _ _ _ Hb Hk Hin). }
  split.
  - intros text k F out. subst out. destruct (G text k F) as [-> Hk].
    simpl. unfold firstResponse.
    destruct Hk as [<-|[<-|[]]]; vm_compute; eexists _, _, _;
      repeat split; reflexivity.
  - intros out. subst out.
    assert (F : firstMatch scenarioResponses
                  (toLowerCase (lit "Our water tank is almost empty"))
                  (lit "water tank")).
    { rewrite Ha by (vm_compute; reflexivity).
      apply matchScenario_first. vm_compute. reflexivity. }
    destruct (G _ _ F) as [-> _]. simpl.
    split; [vm_compute; reflexivity|].
    eexists. split; vm_compute; reflexivity.
Qed.

Lemma C5_scenario_resolution_witness :
  let out := processBusinessLogic asciiLower Sample.world
               (lit "There's a POWER OUTAGE near my house") initial in
  exists r rest x,
    assoc (lit "power outage") scenarioResponses = Some (r :: rest) /\
    assoc (lit "power outage") aiExplanationData = Some x /\
    fst (fst out) = Ret tt /\
    reply (snd (fst out)) = VString r /\
    currentExplanation (snd (fst out)) = Some x /\
    showExplanation (snd (fst out)) = true.
Proof.
  destruct (C5_scenario_resolution asciiLower Sample.world initial
              asciiLower_keeps_blank asciiLower_lowers_ascii) as [H _].
  apply (H (lit "There's a POWER OUTAGE near my house") (lit "power outage")).
  apply matchScenario_first. vm_compute. reflexivity.
Defined.

(** C10. When some trigger is found in the lower-cased transcript, the
    resolver makes exactly three writes, the scenario reply, its explanation
    and the flag that shows it, and returns: no request goes to the
    text-generation endpoint, and neither the delegated reply nor the
    fallback sentence is written to [reply]. *)
Theorem C10_match_returns_early
  (toLowerCase : jsstring -> jsstring) (world : World)
  (text : jsstring) (s : State) :
  keeps_blank toLowerCase ->
  (exists k, In k (map fst scenarioResponses) /\
             includes (toLowerCase text) k = true) ->
  let tr := snd (processBusinessLogic toLowerCase world text s) in
  exists k,
    firstMatch scenarioResponses (toLowerCase text) k /\
    tr = [SetReply (firstResponse k);
          SetCurrentExplanation (assoc k aiExplanationData);
          SetShowExplanation true] /\
    delegations tr = [] /\
    replyWrites tr = [firstResponse k] /\
    firstResponse k <> VString fallbackReply.
Proof.
  intros Hb (k0 & Hk0 & Hin0) tr. subst tr.
  destruct (matchScenario (toLowerCase text)) as [k|] eqn:M.
  - exists k. split; [now apply matchScenario_first|].
    rewrite (resolve_match _ world _ _ s
               (match_not_blank _ _ _ Hb Hk0 Hin0) M).
    repeat split.
    destruct (matchScenario_key _ _ M) as [Hk _]. unfold firstResponse.
    destruct Hk as [<-|[<-|[]]]; vm_compute; discriminate.
  - exfalso. unfold matchScenario in M.
    apply (find_none _ _ M) in Hk0. congruence.
Qed.

Lemma C10_match_returns_early_witness :
  let tr := snd (processBusinessLogic asciiLower Sample.world
                   (lit "Our water tank is almost empty") initial) in
  exists k,
    firstMatch scenarioResponses
      (asciiLower (lit "Our water tank is almost empty")) k /\
    tr = [SetReply (firstResponse k);
          SetCurrentExplanation (assoc k aiExplanationData);
          SetShowExplanation true] /\
    delegations tr = [] /\
    replyWrites tr = [firstResponse k] /\
    firstResponse k <> VString fallbackReply.
Proof.
  apply (C10_match_returns_early asciiLower Sample.world
           (lit "Our water tank is almost empty") initial
           asciiLower_keeps_blank).
  exists (lit "water tank"). split; [vm_compute; tauto | vm_compute; reflexivity].
Defined.

End ResolverClaims.

(* ================================================================== *)
(** * Traces of the handlers *)
(* ================================================================== *)

Section Traces.

Import Console Spec.

Variable P : Event -> bool.

Lemma avoids_ret {A} (a : A) : avoids P (ret a).
Proof. intros s. reflexivity. Qed.

Lemma avoids_throw {A} (e : Exn) : avoids P (@throw A e).
Proof. intros s. reflexivity. Qed.

Lemma avoids_get : avoids P get.
Proof. intros s. reflexivity. Qed.

Lemma avoids_modify (f : State -> State) : avoids P (modify f).
Proof. intros s. reflexivity. Qed.

Lemma avoids_emit (e : Event) : P e = false -> avoids P (emit e).
Proof. intros H s. simpl. now rewrite H. Qed.

Lemma avoids_bind {A B} (m : Act A) (k : A -> Act B) :
  avoids P m -> (forall a, avoids P (k a)) -> avoids P (bind m k).
Proof.
  intros Hm Hk s. unfold bind. specialize (Hm s).
  destruct (m s) as [[[a|e] s1] t1]; simpl in *; [|assumption].
  specialize (Hk a s1). destruct (k a s1) as [[r s2] t2]; simpl in *.
  now rewrite existsb_app, Hm, Hk.
Qed.

Lemma avoids_try_catch {A} (m : Act A) (h : Exn -> Act A) :
  avoids P m -> (forall e, avoids P (h e)) -> avoids P (try_catch m h).
Proof.
  intros Hm Hh s. unfold try_catch. specialize (Hm s).
  destruct (m s) as [[[a|e] s1] t1]; simpl in *; [assumption|].
  specialize (Hh e s1). destruct (h e s1) as [[r s2] t2]; simpl in *.
  now rewrite existsb_app, Hm, Hh.
Qed.

Lemma avoids_try_finally {A} (m : Act A) (f : Act unit) :
  avoids P m -> avoids P f -> avoids P (try_finally m f).
Proof.
  intros Hm Hf s. unfold try_finally. specialize (Hm s).
  destruct (m s) as [[r s1] t1]; simpl in *.
  specialize (Hf s1). destruct (f s1) as [[[u|e] s2] t2]; simpl in *;
    now rewrite existsb_app, Hm, Hf.
Qed.

Lemma avoids_each {A} (f : A -> Act unit) (l : list A) :
  (forall a, avoids P (f a)) -> avoids P (each f l).
Proof.
  intros Hf. induction l as [|a l IH]; simpl.
  - apply avoids_ret.
  - apply avoids_bind; [apply Hf | intros _; exact IH].
Qed.

End Traces.

(** Taking a handler apart along its control structure. *)
Ltac unfold_setters :=
  unfold Console.setReply, Console.setTranscript, Console.setIsRecording,
    Console.setIsLoading, Console.setIsPlaying, Console.setError,
    Console.setIsIVRMode, Console.setDetectedLanguage,
    Console.setTranscriptionDuration, Console.setShowExplanation,
    Console.setCurrentExplanation.

Ltac avoid_step :=
  lazymatch goal with
  | |- Console.avoids _ (Console.bind _ _) => apply avoids_bind; [|intros ?]
  | |- Console.avoids _ (Console.try_catch _ _) =>
      apply avoids_try_catch; [|intros ?]
  | |- Console.avoids _ (Console.try_finally _ _) => apply avoids_try_finally
  | |- Console.avoids _ (Console.ret _) => apply avoids_ret
  | |- Console.avoids _ (Console.throw _) => apply avoids_throw
  | |- Console.avoids _ Console.get => apply avoids_get
  | |- Console.avoids _ (Console.modify _) => apply avoids_modify
  | |- Console.avoids _ (Console.emit _) => apply avoids_emit; reflexivity
  | |- Console.avoids _ (Console.each _ _) => apply avoids_each; intros ?
  | |- Console.avoids _ (match ?x with _ => _ end) => destruct x
  | |- Console.avoids _ (let _ := _ in _) => cbv zeta
  end.

Ltac avoid := unfold_setters; repeat avoid_step.

Section HandlerTraces.

Import Console Spec.

Variable toLowerCase : jsstring -> jsstring.
Variable world : World.

Lemma resolve_avoids (P : Event -> bool) (text : jsstring) :
  (forall v, P (SetReply v) = false) ->
  (forall x, P (SetCurrentExplanation x) = false) ->
  (forall b, P (SetShowExplanation b) = false) ->
  (forall url prompt, P (FetchMistral url prompt) = false) ->
  avoids P (processBusinessLogic toLowerCase world text).
Proof.
  intros H1 H2 H3 H4. unfold processBusinessLogic, delegate.
  unfold_setters.
  repeat first [ avoid_step | apply avoids_emit; auto ].
Qed.

Lemma sendToWhisper_speaks_not (lang : jsstring) (blob : Blob) :
  avoids is_speak (sendToWhisper toLowerCase world lang blob).
Proof.
  unfold sendToWhisper.
  pose proof (fun text => resolve_avoids is_speak text
    (fun _ => eq_refl) (fun _ => eq_refl) (fun _ => eq_refl)
    (fun _ _ => eq_refl)) as R.
  unfold_setters.
  repeat first [ apply R | avoid_step ].
Qed.

(** The speech effect is the one handler that speaks. *)
Lemma handler_speaks_not (a : Action) :
  a <> ReplyChanged -> avoids is_speak (handler toLowerCase world a).
Proof.
  intros Ha. destruct a; try congruence; simpl;
    unfold startRecording, stopRecording, ondataavailable, onstop, onend,
      handleReset;
    pose proof sendToWhisper_speaks_not as W;
    unfold_setters;
    repeat first [ apply W | avoid_step ].
Qed.

End HandlerTraces.

(* ================================================================== *)
(** * Capture sessions *)
(* ================================================================== *)

Section Capture.

Import Console Spec.

Variable toLowerCase : jsstring -> jsstring.
Variable world : World.

(** [startRecording] when the microphone is granted and the recorder can be
    built, from any state at all. *)
Lemma startRecording_granted (s : State) (stream : Stream) :
  getUserMedia world = inr stream ->
  newMediaRecorder world = None ->
  startRecording world s =
  (Ret tt,
   upd_isRecording true
     (upd_audioChunksRef []
        (upd_mediaRecorderRef (Some (recorderOf world stream s))
           (upd_streamRef (Some stream)
              (upd_detectedLanguage []
                 (upd_showExplanation false
                    (upd_reply (VString [])
                       (upd_transcript (VString [])
                          (upd_error None s)))))))),
   [SetError None; SetTranscript (VString []); SetReply (VString []);
    SetShowExplanation false; SetDetectedLanguage []; GetUserMedia;
    NewMediaRecorder stream (mimeTypeOf world);
    RecorderStart (recorderOf world stream s); SetIsRecording true]).
Proof.
  intros Hg Hr. unfold startRecording, try_catch. unfold_setters.
  unfold bind, emit, modify, get, ret. rewrite Hg, Hr. reflexivity.
Qed.

Lemma stopRecording_idle (s : State) :
  isRecording s = false \/ mediaRecorderRef s = None ->
  stopRecording s = (Ret tt, s, []).
Proof.
  unfold stopRecording, bind, get. simpl.
  intros [H|H]; rewrite H; [destruct (mediaRecorderRef s)|]; reflexivity.
Qed.

Lemma stopRecording_active (s : State) (r : Recorder) :
  isRecording s = true -> mediaRecorderRef s = Some r ->
  stopRecording s =
  (Ret tt, upd_isRecording false s, [RecorderStop r; SetIsRecording false]).
Proof.
  unfold stopRecording, bind, get. simpl. intros -> ->. reflexivity.
Qed.

(** The chunks the recorder delivers are appended to the ref, the empty
    ones apart; nothing else moves. *)
Lemma each_ondataavailable (chunks : list Blob) (s : State) :
  exists s',
    each ondataavailable chunks s = (Ret tt, s', []) /\
    audioChunksRef s' =
      audioChunksRef s ++ filter (fun c => (0 <? b_size c)%N) chunks /\
    mediaRecorderRef s' = mediaRecorderRef s /\
    isRecording s' = isRecording s /\
    streamRef s' = streamRef s.
Proof.
  revert s. induction chunks as [|c chunks IH]; intros s; simpl.
  - exists s. rewrite app_nil_r. repeat split.
  - unfold bind. unfold ondataavailable at 1.
    destruct (0 <? b_size c)%N; unfold modify, ret; cbv beta iota.
    + destruct (IH (upd_audioChunksRef (audioChunksRef s ++ [c]) s))
        as (s' & E & Hc & Hr & Hi & Hs).
      rewrite E. exists s'. simpl in Hc, Hr, Hi, Hs.
      rewrite Hc, <- app_assoc. repeat split; assumption.
    + destruct (IH s) as (s' & E & Hc & Hr & Hi & Hs).
      rewrite E. exists s'. repeat split; assumption.
Qed.

Lemma transcriptionRequests_app (t1 t2 : list Event) :
  transcriptionRequests (t1 ++ t2)
  = transcriptionRequests t1 ++ transcriptionRequests t2.
Proof. apply flat_map_app. Qed.

Lemma transcriptionRequests_none (tr : list Event) :
  existsb is_transcribe tr = false -> transcriptionRequests tr = [].
Proof.
  induction tr as [|e tr IH]; simpl; [reflexivity|].
  intros H. apply orb_false_iff in H as [He Ht].
  rewrite (IH Ht). destruct e; try reflexivity. discriminate.
Qed.

(** [sendToWhisper] posts one form, the one [formDataFor] builds. *)
Lemma sendToWhisper_requests (lang : jsstring) (blob : Blob) (s : State) :
  transcriptionRequests (snd (sendToWhisper toLowerCase world lang blob s))
  = [(lit "/api/transcribe", formDataFor blob lang)].
Proof.
  assert (R : forall text s0,
    transcriptionRequests
      (snd (processBusinessLogic toLowerCase world text s0)) = []).
  { intros text s0. apply transcriptionRequests_none.
    apply resolve_avoids; reflexivity. }
  unfold sendToWhisper, try_finally, try_catch. unfold_setters.
  unfold bind, emit, modify, ret, throw.
  destruct (transcribe world (formDataFor blob lang))
    as [e|[|] e|[|] data]; try reflexivity.
  destruct (get_prop data (lit "text")) as [text|]; [|reflexivity].
  destruct text as [| |b|z|text|items|fields]; try reflexivity.
  match goal with
  | |- context [processBusinessLogic toLowerCase world text ?s0] =>
      specialize (R text s0);
      destruct (processBusinessLogic toLowerCase world text s0)
        as [[[u|e] s1] t1]
  end; simpl in *; rewrite ?app_nil_r, ?transcriptionRequests_app, R;
    reflexivity.
Qed.

Lemma form_has_no_audio (blob : Blob) (lang : jsstring) :
  formData_get (lit "audio") (formDataFor blob lang) = None /\
  formData_get (lit "file") (formDataFor blob lang) =
    Some (EFile {| f_name := lit "recording.webm"; f_type := b_type blob;
                   f_size := b_size blob |}).
Proof.
  unfold formDataFor.
  destruct (truthy (VString lang) && negb (str_eqb lang (lit "auto")));
    split; vm_compute; reflexivity.
Qed.

(** A request without an [audio] field is answered MissingAudio by both
    listings of the route. *)
Lemma routes_refuse_missing_audio (form : FormData)
  (development : bool) (whisper : WhisperArgs -> Transcription + Exn)
  (host : Whisper2.Host) :
  formData_get (lit "audio") form = None ->
  Whisper1.POST toLowerCase development whisper (inr form)
    = (json_error (lit "No audio file provided") 400, []) /\
  Whisper2.POST toLowerCase host whisper (inr form)
    = (json_error (lit "No audio file provided") 400, []).
Proof.
  intros H. unfold Whisper1.POST, Whisper1.POST_try, Whisper2.POST,
    Whisper2.POST_try. rewrite H. split; reflexivity.
Qed.

(** One gesture, one request. *)
Lemma gesture_requests (chunks : list Blob) (s : State) (stream : Stream) :
  getUserMedia world = inr stream ->
  newMediaRecorder world = None ->
  transcriptionRequests (snd (gesture toLowerCase world chunks s)) =
  [(lit "/api/transcribe",
    formDataFor
      (blobOf (filter (fun c => (0 <? b_size c)%N) chunks) (mimeTypeOf world))
      (selectedLanguage s))].
Proof.
  intros Hg Hr. unfold gesture.
  unfold bind at 1. rewrite (startRecording_granted _ _ Hg Hr).
  set (s1 := upd_isRecording true _).
  unfold bind at 1.
  destruct (each_ondataavailable chunks s1) as (s2 & -> & Hc & Hm & Hi & Hs).
  unfold bind at 1.
  rewrite (stopRecording_active s2 (recorderOf world stream s)) by
    (rewrite ?Hi, ?Hm; reflexivity).
  unfold bind at 1, get at 1.
  change (mediaRecorderRef (upd_isRecording false s2))
    with (mediaRecorderRef s2).
  rewrite Hm. change (mediaRecorderRef s1) with (Some (recorderOf world stream s)).
  cbv iota. unfold onstop.
  unfold bind at 1, get at 1. unfold bind at 1.
  change (audioChunksRef (upd_isRecording false s2)) with (audioChunksRef s2).
  rewrite Hc. change (audioChunksRef s1) with (@nil Blob). rewrite app_nil_l.
  match goal with
  | |- context [sendToWhisper toLowerCase world ?l ?b ?s0] =>
      pose proof (sendToWhisper_requests l b s0) as W;
      destruct (sendToWhisper toLowerCase world l b s0) as [[[u|e] s3] t3]
  end; simpl in W |- *.
  - unfold bind, get. destruct (streamRef s3); simpl;
      rewrite ?app_nil_r, ?transcriptionRequests_app, W; reflexivity.
  - rewrite ?app_nil_r, ?transcriptionRequests_app, W. reflexivity.
Qed.

End Capture.

Section CaptureClaims.

Import Console Spec.

(** C4. Whenever the microphone is granted and the recorder is built, a
    completed gesture posts exactly one form to /api/transcribe. The clip
    is in its field [file]; the form has no field [audio], so both listings
    of the route answer it with status 400, "No audio file provided",
    without calling the provider. *)
Theorem C4_request_field
  (toLowerCase : jsstring -> jsstring) (world : World)
  (chunks : list Blob) (s : State) (stream : Stream) :
  getUserMedia world = inr stream ->
  newMediaRecorder world = None ->
  exists form,
    transcriptionRequests (snd (gesture toLowerCase world chunks s))
      = [(lit "/api/transcribe", form)] /\
    formData_get (lit "audio") form = None /\
    (exists clip, formData_get (lit "file") form = Some (EFile clip)) /\
    forall development whisper host,
      Whisper1.POST toLowerCase development whisper (inr form)
        = (json_error (lit "No audio file provided") 400, []) /\
      Whisper2.POST toLowerCase host whisper (inr form)
        = (json_error (lit "No audio file provided") 400, []).
Proof.
  intros Hg Hr. eexists. split; [apply (gesture_requests _ _ _ _ _ Hg Hr)|].
  match goal with
  | |- formData_get _ (formDataFor ?b ?l) = _ /\ _ =>
      destruct (form_has_no_audio b l) as [Ha Hf]
  end.
  split; [exact Ha|]. split; [eexists; exact Hf|].
  intros development whisper host.
  now apply routes_refuse_missing_audio.
Qed.

Lemma C4_request_field_witness :
  exists form,
    transcriptionRequests
      (snd (gesture asciiLower Sample.world
              [{| b_type := opus; b_size := 4096 |}] initial))
      = [(lit "/api/transcribe", form)] /\
    formData_get (lit "audio") form = None /\
    (exists clip, formData_get (lit "file") form = Some (EFile clip)) /\
    forall development whisper host,
      Whisper1.POST asciiLower development whisper (inr form)
        = (json_error (lit "No audio file provided") 400, []) /\
      Whisper2.POST asciiLower host whisper (inr form)
        = (json_error (lit "No audio file provided") 400, []).
Proof.
  apply (C4_request_field asciiLower Sample.world
           [{| b_type := opus; b_size := 4096 |}] initial 1%N);
    reflexivity.
Defined.

(** C7 (as amended). [startRecording] does not look at [isRecording]: from
    every state, recording or not, once the platform grants the microphone
    and builds the recorder it resets the turn, acquires the stream, creates
    and starts a recorder, and leaves [isRecording] true with the refs on the
    new stream and the new recorder alone. The guarded handler is
    [stopRecording], which does nothing unless [isRecording] holds and a
    recorder is in the ref. *)
Theorem C7_start_is_unguarded (world : World) (s : State) (stream : Stream) :
  getUserMedia world = inr stream ->
  newMediaRecorder world = None ->
  let out := startRecording world s in
  let s' := snd (fst out) in
  fst (fst out) = Ret tt /\
  snd out =
    [SetError None; SetTranscript (VString []); SetReply (VString []);
     SetShowExplanation false; SetDetectedLanguage []; GetUserMedia;
     NewMediaRecorder stream (mimeTypeOf world);
     RecorderStart (recorderOf world stream s); SetIsRecording true] /\
  streamRef s' = Some stream /\
  mediaRecorderRef s' = Some (recorderOf world stream s) /\
  audioChunksRef s' = [] /\
  isRecording s' = true /\
  (isRecording s = false \/ mediaRecorderRef s = None ->
   stopRecording s = (Ret tt, s, [])).
Proof.
  intros Hg Hr out s'. subst s' out.
  rewrite (startRecording_granted _ _ _ Hg Hr).
  repeat split. apply stopRecording_idle.
Qed.

(** C7, as stated, fails: pressing again while the first session records
    acquires a second stream and builds a second recorder, and the refs move
    from the first stream to the second. *)
Lemma C7_counterexample :
  let s1 := snd (fst (startRecording Sample.world initial)) in
  let out := startRecording Sample.world2 s1 in
  isRecording s1 = true /\
  streamRef s1 = Some 1%N /\
  In GetUserMedia (snd out) /\
  In (NewMediaRecorder 2%N opus) (snd out) /\
  streamRef (snd (fst out)) = Some 2%N /\
  snd (fst out) <> s1.
Proof.
  intros s1 out.
  split; [vm_compute; reflexivity|].
  split; [vm_compute; reflexivity|].
  split; [vm_compute; tauto|].
  split; [vm_compute; tauto|].
  split; [vm_compute; reflexivity|].
  intros E. apply (f_equal streamRef) in E. vm_compute in E. discriminate.
Qed.

Lemma C7_start_is_unguarded_witness :
  let s1 := snd (fst (startRecording Sample.world initial)) in
  let out := startRecording Sample.world2 s1 in
  isRecording s1 = true /\
  streamRef (snd (fst out)) = Some 2%N /\
  isRecording (snd (fst out)) = true.
Proof.
  intros s1 out.
  destruct (C7_start_is_unguarded Sample.world2 s1 2%N eq_refl eq_refl)
    as (_ & _ & Hs & _ & _ & Hi & _).
  split; [vm_compute; reflexivity|]. split; [exact Hs | exact Hi].
Defined.

End CaptureClaims.

(* ================================================================== *)
(** * Speech output *)
(* ================================================================== *)

Section Speech.

Import Console Spec.

Variable toLowerCase : jsstring -> jsstring.

Lemma speakEffect_speaks (w : World) (s : State) :
  truthy (reply s) = true ->
  hasSpeechSynthesis w = true ->
  newUtterance w = None ->
  let u := {| u_text := to_string (reply s);
              u_voice := selectVoice toLowerCase (to_string (reply s))
                           (getVoices w) |} in
  speakEffect toLowerCase w s =
  (Ret tt, upd_isPlaying true (upd_utteranceRef (Some u) s),
   [SynthCancel; SynthSpeak u; SetIsPlaying true]).
Proof.
  intros Ht Hs Hn u. subst u. unfold speakEffect, try_catch. unfold_setters.
  unfold bind, get, emit, modify, ret. rewrite Ht, Hs, Hn. reflexivity.
Qed.

(** The three shapes of the effect's trace. *)
Lemma speakEffect_trace (w : World) (s : State) :
  snd (speakEffect toLowerCase w s) = [] \/
  (exists e, snd (speakEffect toLowerCase w s) = [ConsoleError e]) \/
  (exists u, snd (speakEffect toLowerCase w s)
             = [SynthCancel; SynthSpeak u; SetIsPlaying true]).
Proof.
  unfold speakEffect, try_catch. unfold_setters.
  unfold bind, get, emit, modify, ret, throw.
  destruct (truthy (reply s)); [|now left].
  destruct (hasSpeechSynthesis w); [|now left].
  destruct (newUtterance w) as [e|].
  - right. left. now exists e.
  - right. right. eexists. reflexivity.
Qed.

Lemma spoken_none (tr : list Event) :
  existsb is_speak tr = false -> spoken tr = [].
Proof.
  induction tr as [|e tr IH]; simpl; [reflexivity|].
  intros H. apply orb_false_iff in H as [He Ht].
  rewrite (IH Ht). destruct e; try reflexivity. discriminate.
Qed.

(** Without a [speak], a trace cannot make the queue longer. *)
Lemma synth_after_quiet (tr : list Event) (q : list Utterance) :
  existsb is_speak tr = false ->
  List.length (synth_after q tr) <= List.length q.
Proof.
  revert q. induction tr as [|e tr IH]; intros q H; simpl; [lia|].
  simpl in H. apply orb_false_iff in H as [He Ht].
  destruct e; try discriminate; try (now apply IH).
  specialize (IH [] Ht). simpl in IH. lia.
Qed.

Lemma step_single (sys : System) (wa : World * Action) :
  List.length (queue sys) <= 1 ->
  List.length (queue (step toLowerCase sys wa)) <= 1.
Proof.
  intros Hq. destruct wa as [w a]. unfold step. simpl fst. simpl snd.
  destruct (handler toLowerCase w a (comp sys)) as [[r s'] tr] eqn:E.
  simpl queue.
  assert (Hq' : List.length
                  (match a with
                   | UtteranceEnded => tl (queue sys)
                   | _ => queue sys
                   end) <= 1).
  { destruct a; try assumption. destruct (queue sys); simpl in *; lia. }
  assert (Ha : a = ReplyChanged \/ a <> ReplyChanged)
    by (destruct a; (now left) || (right; discriminate)).
  destruct Ha as [->|Ha].
  - simpl in E. pose proof (speakEffect_trace w (comp sys)) as T.
    rewrite E in T. simpl in T.
    destruct T as [->|[[e ->]|[u ->]]]; simpl; try assumption. lia.
  - pose proof (handler_speaks_not toLowerCase w a Ha (comp sys)) as Q.
    rewrite E in Q. simpl in Q.
    match goal with
    | |- List.length (synth_after ?q tr) <= 1 =>
        pose proof (synth_after_quiet tr q Q)
    end. lia.
Qed.

Lemma run_single (acts : list (World * Action)) (sys : System) :
  List.length (queue sys) <= 1 ->
  List.length (queue (run toLowerCase acts sys)) <= 1.
Proof.
  unfold run. revert sys. induction acts as [|wa acts IH]; intros sys H.
  - exact H.
  - simpl. apply IH. now apply step_single.
Qed.

End Speech.

Section SpeechClaims.

Import Console Spec.

(** C8. The speech effect is the only handler that calls [speak], and
    each of its calls comes right after a [cancel]: when the reply is not
    empty and the platform can speak, the effect logs cancel, speak, and
    whatever utterance was queued before, the new one is alone in the queue
    afterwards. Hence, over any sequence of gestures, recorder events,
    commits, resets and utterance ends, the queue of the speech engine never
    holds more than one utterance; a press while the previous reply is being
    spoken says nothing itself, and the utterance of the next reply takes
    the place of the old one. *)
Theorem C8_single_flight (toLowerCase : jsstring -> jsstring) :
  (forall w s, cancel_before_speak (snd (speakEffect toLowerCase w s)) = true) /\
  (forall w s q,
     truthy (reply s) = true -> hasSpeechSynthesis w = true ->
     newUtterance w = None ->
     exists u,
       snd (speakEffect toLowerCase w s)
         = [SynthCancel; SynthSpeak u; SetIsPlaying true] /\
       u_text u = to_string (reply s) /\
       synth_after q (snd (speakEffect toLowerCase w s)) = [u]) /\
  (forall w a s,
     a <> ReplyChanged -> spoken (snd (handler toLowerCase w a s)) = []) /\
  (forall acts sys,
     List.length (queue sys) <= 1 ->
     List.length (queue (run toLowerCase acts sys)) <= 1).
Proof.
  split; [|split; [|split]].
  - intros w s.
    destruct (speakEffect_trace toLowerCase w s) as [->|[[e ->]|[u ->]]];
      reflexivity.
  - intros w s q Ht Hs Hn.
    rewrite (speakEffect_speaks toLowerCase w s Ht Hs Hn).
    eexists. repeat split.
  - intros w a s Ha. apply spoken_none.
    now apply handler_speaks_not.
  - apply run_single.
Qed.

Lemma C8_single_flight_witness :
  List.length (queue (run asciiLower Sample.turn Sample.playing)) <= 1.
Proof.
  apply (C8_single_flight asciiLower). simpl. lia.
Defined.

(** The turn played out: the press leaves the previous utterance in the
    queue, and the effect of the new reply replaces it. *)
Lemma turn_replaces_utterance :
  queue (run asciiLower (firstn 5 Sample.turn) Sample.playing)
    = queue Sample.playing /\
  map u_text (queue (run asciiLower Sample.turn Sample.playing))
    = [fallbackReply].
Proof. split; vm_compute; reflexivity. Qed.

End SpeechClaims.

(* ================================================================== *)
(** * Further properties: script detection and context prompts *)
(* ================================================================== *)

Section DetectionMore.

Import Props.

Lemma nodupb_NoDup (l : list jsstring) : nodupb l = true -> NoDup l.
Proof.
  induction l as [|x l IH]; simpl; intros H; constructor.
  - apply andb_true_iff in H as [H _]. intros Hin.
    apply existsb_str_eqb_In in Hin. rewrite Hin in H. discriminate.
  - apply IH. now apply andb_true_iff in H as [_ H].
Qed.

Lemma set_add_fresh (x : jsstring) (acc : list jsstring) :
  ~ In x acc -> set_add x acc = acc ++ [x].
Proof.
  intros H. unfold set_add. destruct (existsb (str_eqb x) acc) eqn:E.
  - apply existsb_str_eqb_In in E. contradiction.
  - reflexivity.
Qed.

(** Adding the labels of a table one test after the other, as the
    function does, lists the labels of the blocks present, in table order,
    when the labels are distinct. *)
Lemma fold_add_if (table : list ((N -> bool) * jsstring)) (text : jsstring) :
  forall acc,
    NoDup (map snd table) ->
    (forall x, In x (map snd table) -> ~ In x acc) ->
    fold_left (fun a p => add_if (test_class (fst p) text) (snd p) a) table acc
    = acc ++ present table text.
Proof.
  induction table as [|[cls label] table IH]; intros acc Hnd Hacc.
  - unfold present. simpl. now rewrite app_nil_r.
  - simpl in Hnd. inversion_clear Hnd as [|? ? Hlabel Hrest].
    simpl fold_left. unfold present. simpl filter.
    destruct (test_class cls text) eqn:T; simpl add_if.
    + rewrite set_add_fresh by (apply Hacc; now left).
      rewrite IH; [now rewrite <- app_assoc | assumption |].
      intros x Hx Hin. apply in_app_iff in Hin as [Hin|[<-|[]]].
      * apply (Hacc x); [now right | assumption].
      * contradiction.
    + apply IH; [assumption|]. intros x Hx. apply Hacc. now right.
Qed.

Lemma scripts1_distinct : NoDup (map snd scripts1).
Proof. apply nodupb_NoDup. vm_compute. reflexivity. Qed.

Lemma scripts2_distinct : NoDup (map snd scripts2).
Proof. apply nodupb_NoDup. vm_compute. reflexivity. Qed.

Lemma detect1_present (text : jsstring) :
  Whisper1.detectLanguagesInText text = present scripts1 text.
Proof.
  rewrite <- (app_nil_l (present scripts1 text)).
  rewrite <- (fold_add_if scripts1 text [] scripts1_distinct)
    by (intros x _ []).
  reflexivity.
Qed.

Lemma detect2_present (text : jsstring) :
  Whisper2.detectLanguagesInText text = present scripts2 text.
Proof.
  rewrite <- (app_nil_l (present scripts2 text)).
  rewrite <- (fold_add_if scripts2 text [] scripts2_distinct)
    by (intros x _ []).
  reflexivity.
Qed.

Lemma present_NoDup (table : list ((N -> bool) * jsstring)) (text : jsstring) :
  NoDup (map snd table) -> NoDup (present table text).
Proof.
  unfold present. induction table as [|[cls label] table IH]; simpl; intros H.
  - constructor.
  - inversion_clear H as [|? ? Hl Hr].
    destruct (test_class cls text); simpl; [|now apply IH].
    constructor; [|now apply IH].
    intros Hin. apply Hl. apply in_map_iff in Hin as (p & <- & Hp).
    apply filter_In in Hp as [Hp _]. now apply in_map.
Qed.

Lemma present_iff (table : list ((N -> bool) * jsstring)) (text : jsstring)
  (cls : N -> bool) (label : jsstring) :
  NoDup (map snd table) -> In (cls, label) table ->
  (In label (present table text) <-> test_class cls text = true).
Proof.
  unfold present. induction table as [|[cls' label'] table IH]; simpl;
    intros Hnd Hin; [contradiction|].
  inversion_clear Hnd as [|? ? Hl Hr].
  destruct Hin as [E|Hin].
  - injection E as -> ->.
    destruct (test_class cls text) eqn:T; simpl.
    + split; auto.
    + split; [|discriminate]. intros H. exfalso. apply Hl.
      apply in_map_iff in H as (p & <- & Hp).
      apply filter_In in Hp as [Hp _]. now apply in_map.
  - assert (label' <> label).
    { intros ->. apply Hl. now apply (in_map snd) in Hin. }
    destruct (test_class cls' text); simpl; rewrite <- (IH Hr Hin);
      intuition congruence.
Qed.

(** X1. In both listings [detectLanguagesInText] returns the labels of
    exactly the scanned blocks that have a code unit in the text, each once
    and in the fixed order of the tests: a label is in the result if and only
    if its block occurs in the text. *)
Theorem detect_lists_present_scripts (text : jsstring) :
  (Whisper1.detectLanguagesInText text = present scripts1 text /\
   NoDup (Whisper1.detectLanguagesInText text) /\
   forall cls label, In (cls, label) scripts1 ->
     (In label (Whisper1.detectLanguagesInText text)
      <-> test_class cls text = true)) /\
  (Whisper2.detectLanguagesInText text = present scripts2 text /\
   NoDup (Whisper2.detectLanguagesInText text) /\
   forall cls label, In (cls, label) scripts2 ->
     (In label (Whisper2.detectLanguagesInText text)
      <-> test_class cls text = true)).
Proof.
  rewrite detect1_present, detect2_present. repeat split.
  - apply present_NoDup, scripts1_distinct.
  - now apply present_iff; [apply scripts1_distinct|].
  - now apply present_iff; [apply scripts1_distinct|].
  - apply present_NoDup, scripts2_distinct.
  - now apply present_iff; [apply scripts2_distinct|].
  - now apply present_iff; [apply scripts2_distinct|].
Qed.

Lemma detect_lists_present_scripts_witness :
  In (lit "Tamil") (Whisper1.detectLanguagesInText (lit "தண்ணீர் tank")) <->
  test_class (in_range 0x0B80 0x0BFF) (lit "தண்ணீர் tank") = true.
Proof.
  destruct (detect_lists_present_scripts (lit "தண்ணீர் tank"))
    as [(_ & _ & H) _].
  apply H. right. left. reflexivity.
Defined.

End DetectionMore.

Section PromptsMore.

Import Props.

Lemma assoc_In {A} (k : jsstring) (l : list (jsstring * A)) (a : A) :
  assoc k l = Some a -> In k (map fst l).
Proof.
  induction l as [|[k' a'] l IH]; simpl; [discriminate|].
  destruct (str_eqb k' k) eqn:E.
  - apply str_eqb_eq in E. now left.
  - intros H. right. now apply IH.
Qed.



Lemma supported_code (o : option jsstring) (l : jsstring) :
  Whisper1.supported o = Some l -> In l codes /\ o = Some l.
Proof.
  unfold Whisper1.supported. destruct o as [l'|]; [|discriminate].
  destruct (assoc l' Whisper1.SUPPORTED_LANGUAGES) as [name|] eqn:E;
    [|discriminate].
  intros [= <-]. split; [|reflexivity]. exact (assoc_In _ _ _ E).
Qed.

Lemma prompt1_nonempty (language : jsstring) :
  Whisper1.getContextPrompt language <> [].
Proof.
  unfold Whisper1.getContextPrompt.
  destruct (assoc language Whisper1.prompts) as [[|c p]|];
    try discriminate; vm_compute; discriminate.
Qed.

Lemma prompt2_nonempty (language : jsstring) :
  Whisper2.getContextPrompt language <> [].
Proof.
  unfold Whisper2.getContextPrompt.
  destruct (assoc language Whisper2.prompts) as [[|c p]|];
    try discriminate; vm_compute; discriminate.
Qed.



End PromptsMore.

(* ================================================================== *)
(** * Further properties: the route *)
(* ================================================================== *)

Section RouteMore.

Import Spec Props.

Variable toLowerCase : jsstring -> jsstring.
Variable development : bool.
Variable whisper : WhisperArgs -> Transcription + Exn.
Variable host : Whisper2.Host.

Local Abbreviation POST1 := (Whisper1.POST toLowerCase development whisper).
Local Abbreviation POST2 := (Whisper2.POST toLowerCase host whisper).

(** The call of the first listing for an upload and a hint. *)
Lemma post1_valid (formData : FormData) (f : File) (hint : option jsstring) :
  valid1 formData f ->
  formData_get (lit "language") formData = hint_field hint ->
  let args :=
    {| a_file := Upload f;
       a_model := lit "whisper-1";
       a_language :=
         if negb (auto_hint hint) then directive toLowerCase hint else None;
       a_response_format := lit "verbose_json";
       a_prompt :=
         Whisper1.getContextPrompt
           (match directive toLowerCase hint with
            | Some l => l
            | None => lit "en"
            end);
       a_temperature := 0 |} in
  Whisper1.POST_try toLowerCase whisper (inr formData) =
  match whisper args with
  | inr e => (inl e, [ConsoleLog; WhisperCall args])
  | inl t =>
      (inr {| status := 200;
              body := SuccessBody
                {| r_transcript := t_text t;
                   r_language :=
                     Whisper1.or_else (t_language t)
                       (Whisper1.or_else (directive toLowerCase hint)
                          (lit "unknown"));
                   r_detectedLanguages :=
                     Whisper1.detectLanguagesInText (t_text t);
                   r_duration := t_duration t;
                   r_segments := t_segments t;
                   r_fileName := f_name f;
                   r_fileSize := f_size f;
                   r_autoDetected := auto_hint hint |} |},
       [ConsoleLog; WhisperCall args; ConsoleLog])
  end.
Proof.
  intros (Ha & Ht & Hs) Hl args. subst args.
  unfold Whisper1.POST_try. rewrite Ha, Hl, type_matches_names, Ht.
  apply N.ltb_ge in Hs. rewrite Hs. simpl negb. cbv iota.
  unfold directive.
  destruct hint as [[|c s]|]; simpl hint_field; simpl option_map;
    cbv beta iota;
    unfold Whisper1.normalize, entry_truthy, entry_is, auto_hint;
    simpl truthy; simpl negb; simpl orb;
    destruct (Whisper1.supported _); reflexivity.
Qed.

(** The call of the second listing. *)
Lemma post2_valid (formData : FormData) (f : File) (hint : option jsstring) :
  valid2 formData f ->
  formData_get (lit "language") formData = hint_field hint ->
  let whisperLanguage :=
    if auto_hint hint then None else directive toLowerCase hint in
  let p := Whisper2.tempFilePath host f in
  let args :=
    {| a_file := ReadStream p;
       a_model := lit "whisper-1";
       a_language := whisperLanguage;
       a_response_format := lit "verbose_json";
       a_prompt :=
         Whisper2.getContextPrompt
           (match whisperLanguage with
            | Some l => l
            | None => lit "en"
            end);
       a_temperature := 0 |} in
  Whisper2.POST_try toLowerCase host whisper (inr formData) =
  match Whisper2.writeFile host p f with
  | Some e => (inl e, [])
  | None =>
      match whisper args with
      | inr e => (inl e, [WriteFile p f; WhisperCall args])
      | inl t =>
          (inr {| status := 200;
                  body := SuccessBody
                    {| r_transcript := t_text t;
                       r_language :=
                         Whisper2.or_else (t_language t)
                           (Whisper2.or_else whisperLanguage (lit "unknown"));
                       r_detectedLanguages :=
                         Whisper2.detectLanguagesInText (t_text t);
                       r_duration := t_duration t;
                       r_segments := t_segments t;
                       r_fileName := f_name f;
                       r_fileSize := f_size f;
                       r_autoDetected :=
                         match whisperLanguage with
                         | Some _ => false
                         | None => true
                         end |} |},
           [WriteFile p f; WhisperCall args; Unlink p])
      end
  end.
Proof.
  intros (Ha & Ht & Hs) Hl whisperLanguage p args.
  subst whisperLanguage p args.
  unfold Whisper2.POST_try. rewrite Ha, Hl.
  fold (listed Whisper2.allowedTypes (f_type f)). rewrite Ht.
  apply N.ltb_ge in Hs. rewrite Hs. simpl negb. cbv iota.
  unfold directive, Whisper1.supported.
  destruct hint as [[|c s]|]; simpl hint_field; simpl option_map;
    unfold Whisper2.language_or_auto, entry_truthy, auto_hint;
    simpl truthy; cbv beta iota.
  - reflexivity.
  - destruct (str_eqb (c :: s) (lit "auto")); simpl negb; cbv iota;
      reflexivity.
  - reflexivity.
Qed.

(** With the platform's lower-casing, a hint that asks for detection has no
    supported prefix. *)
Lemma directive_auto (hint : option jsstring) :
  lowers_ascii toLowerCase ->
  auto_hint hint = true -> directive toLowerCase hint = None.
Proof.
  intros Hl. unfold auto_hint, directive.
  destruct hint as [[|c s]|]; [| |reflexivity].
  - intros _. simpl option_map. rewrite Hl by reflexivity. reflexivity.
  - intros E. apply str_eqb_eq in E. rewrite E. simpl option_map.
    rewrite Hl by (vm_compute; reflexivity). vm_compute. reflexivity.
Qed.

Lemma catch1_shape (e : Exn) :
  is_error (Whisper1.POST_catch development e) /\
  In (status (Whisper1.POST_catch development e)) [429; 500; 503]%N.
Proof.
  unfold Whisper1.POST_catch, is_error, json_error.
  destruct (Whisper1.status_is e 429); [split; [eexists _, _; reflexivity | simpl; tauto]|].
  destruct (Whisper1.status_is e 401); [split; [eexists _, _; reflexivity | simpl; tauto]|].
  destruct (Whisper1.code_is e _); split;
    try (eexists _, _; reflexivity); simpl; tauto.
Qed.

Lemma catch2_shape (e : Exn) :
  is_error (Whisper2.POST_catch e) /\
  In (status (Whisper2.POST_catch e)) [429; 500]%N.
Proof.
  unfold Whisper2.POST_catch, is_error, json_error.
  destruct (Whisper2.status_is e 429); [split; [eexists _, _; reflexivity | simpl; tauto]|].
  destruct (Whisper2.status_is e 401); split;
    try (eexists _, _; reflexivity); simpl; tauto.
Qed.

Lemma refused_by_catch1 (e : Exn) :
  refused (Whisper1.POST_catch development e, [] ++ [Route.ConsoleError e]).
Proof.
  destruct (catch1_shape e) as [He Hs]. split; [exact He|].
  right. split; [exact Hs | now exists e].
Qed.

Lemma refused_by_catch2 (e : Exn) :
  refused (Whisper2.POST_catch e, [] ++ [Route.ConsoleError e]).
Proof.
  destruct (catch2_shape e) as [He Hs]. split; [exact He|].
  right. split; [|now exists e]. simpl in Hs |- *. tauto.
Qed.

Lemma refused_400 (msg : jsstring) : refused (json_error msg 400, []).
Proof.
  split; [eexists _, _; reflexivity|]. left. split; reflexivity.
Qed.

Lemma entry_hint (e : option entry) :
  (exists lf, e = Some (EFile lf)) \/ exists hint, e = hint_field hint.
Proof.
  destruct e as [[lf|s]|].
  - left. now exists lf.
  - right. now exists (Some s).
  - right. now exists None.
Qed.

(** Every request is either refused or a valid upload with a text hint. *)
Lemma post1_cases (request : Request) :
  refused (POST1 request) \/
  exists formData f hint,
    request = inr formData /\ valid1 formData f /\
    formData_get (lit "language") formData = hint_field hint.
Proof.
  destruct request as [e|formData].
  - left. apply refused_by_catch1.
  - unfold Whisper1.POST, Whisper1.POST_try.
    destruct (formData_get (lit "audio") formData) as [[f|[|c s]]|] eqn:Ha.
    + rewrite type_matches_names.
      destruct (contains_name (f_type f)) eqn:Ht; simpl negb; cbv iota;
        [|left; apply refused_400].
      destruct (maxSize <? f_size f)%N eqn:Hs; [left; apply refused_400|].
      apply N.ltb_ge in Hs.
      destruct (entry_hint (formData_get (lit "language") formData))
        as [[lf Hl]|[hint Hl]].
      * left. rewrite Hl. apply refused_by_catch1.
      * right. exists formData, f, hint. repeat split; assumption.
    + left. apply refused_400.
    + left. apply refused_by_catch1.
    + left. apply refused_400.
Qed.

Lemma post2_cases (request : Request) :
  refused (POST2 request) \/
  exists formData f hint,
    request = inr formData /\ valid2 formData f /\
    formData_get (lit "language") formData = hint_field hint.
Proof.
  destruct request as [e|formData].
  - left. apply refused_by_catch2.
  - unfold Whisper2.POST, Whisper2.POST_try.
    destruct (formData_get (lit "audio") formData) as [[f|[|c s]]|] eqn:Ha.
    + fold (listed Whisper2.allowedTypes (f_type f)).
      destruct (listed Whisper2.allowedTypes (f_type f)) eqn:Ht;
        simpl negb; cbv iota; [|left; apply refused_400].
      destruct (maxSize <? f_size f)%N eqn:Hs; [left; apply refused_400|].
      apply N.ltb_ge in Hs.
      destruct (entry_hint (formData_get (lit "language") formData))
        as [[lf Hl]|[hint Hl]].
      * left. rewrite Hl. apply refused_by_catch2.
      * right. exists formData, f, hint. repeat split; assumption.
    + left. apply refused_400.
    + left. apply refused_400.
    + left. apply refused_400.
Qed.

End RouteMore.

Section RouteClaimsMore.

Import Spec Props.

Variable toLowerCase : jsstring -> jsstring.
Variable development : bool.
Variable whisper : WhisperArgs -> Transcription + Exn.
Variable host : Whisper2.Host.

Local Abbreviation POST1 := (Whisper1.POST toLowerCase development whisper).
Local Abbreviation POST2 := (Whisper2.POST toLowerCase host whisper).

Lemma refused_calls (r : Response * list Route.Event) :
  refused r -> calls (snd r) = [] /\ status (fst r) <> 200%N.
Proof.
  intros (_ & [[Hs ->]|[Hs [e ->]]]).
  - split; [reflexivity|]. rewrite Hs. discriminate.
  - split; [reflexivity|]. simpl in Hs. intros E. rewrite E in Hs.
    destruct Hs as [H|[H|[H|[]]]]; discriminate.
Qed.

Lemma refused_well_formed (r : Response * list Route.Event) :
  refused r -> well_formed r.
Proof.
  intros H. unfold well_formed. destruct (refused_calls r H) as [-> _].
  split; [simpl; lia | intros args []].
Qed.

Lemma directive_in_codes (hint : option jsstring) (l : jsstring) :
  directive toLowerCase hint = Some l -> In l codes.
Proof. intros H. now apply supported_code in H as [H _]. Qed.

Lemma language_ok (b : bool) (hint : option jsstring) :
  (if b then directive toLowerCase hint else None) = None \/
  exists l, (if b then directive toLowerCase hint else None) = Some l /\
            In l codes.
Proof.
  destruct b; [|now left].
  destruct (directive toLowerCase hint) as [l|] eqn:D; [|now left].
  right. exists l. split; [reflexivity | now apply directive_in_codes in D].
Qed.

(** X3. Whatever the request, each listing calls the provider at most
    once, always with the model whisper-1, temperature 0 and a verbose JSON
    response, with a context prompt that is never empty, and with a language
    that is either absent or one of the 13 supported codes. *)
Theorem provider_calls_well_formed (request : Request) :
  well_formed (POST1 request) /\ well_formed (POST2 request).
Proof.
  split.
  - destruct (post1_cases toLowerCase development whisper request)
      as [H|(formData & f & hint & -> & Hv & Hl)];
      [now apply refused_well_formed|].
    unfold Whisper1.POST. rewrite (post1_valid _ _ _ _ _ Hv Hl). cbv zeta.
    match goal with |- context [whisper ?a] =>
      set (args := a); destruct (whisper args) as [t|e] end;
      (split; [simpl; lia|]); simpl calls;
      intros a [<-|[]]; subst args;
      cbn [a_model a_response_format a_temperature a_prompt a_language];
      (split; [reflexivity|]); (split; [reflexivity|]);
      (split; [reflexivity|]); (split; [apply prompt1_nonempty|]);
      apply language_ok.
  - destruct (post2_cases toLowerCase whisper host request)
      as [H|(formData & f & hint & -> & Hv & Hl)];
      [now apply refused_well_formed|].
    unfold Whisper2.POST. rewrite (post2_valid _ _ _ _ _ _ Hv Hl). cbv zeta.
    destruct (Whisper2.writeFile host _ f) as [e|];
      [split; [simpl; lia | intros a []]|].
    match goal with |- context [whisper ?a] =>
      set (args := a); destruct (whisper args) as [t|e] end;
      (split; [simpl; lia|]); simpl calls;
      intros a [<-|[]]; subst args;
      cbn [a_model a_response_format a_temperature a_prompt a_language];
      (split; [reflexivity|]); (split; [reflexivity|]);
      (split; [reflexivity|]); (split; [apply prompt2_nonempty|]);
      (destruct (auto_hint hint); [now left | apply (language_ok true)]).
Qed.

(** X4. Each listing answers every request with one of the statuses 200,
    400, 429, 500 and 503. A 200 is given only after one successful call to
    the provider, and then the body carries the provider's text as the
    transcript, the scripts [detectLanguagesInText] finds in that text, and
    the name and size of the uploaded file; every other answer is an error
    body. *)
Theorem answers_are_sound (request : Request) :
  sound_answer Whisper1.detectLanguagesInText whisper request (POST1 request)
  /\
  sound_answer Whisper2.detectLanguagesInText whisper request (POST2 request).
Proof.
  split.
  - destruct (post1_cases toLowerCase development whisper request)
      as [H|(formData & f & hint & -> & Hv & Hl)].
    + destruct (refused_calls _ H) as [_ Hn].
      destruct H as (He & Hs). split; [|split; [contradiction | now intros _]].
      destruct Hs as [[-> _]|[Hs _]]; simpl in *; tauto.
    + unfold Whisper1.POST. rewrite (post1_valid _ _ _ _ _ Hv Hl). cbv zeta.
      match goal with |- context [whisper ?a] =>
        set (args := a); destruct (whisper args) as [t|e] eqn:W end.
      * split; [simpl; tauto|]. split; [|intros H; now elim H].
        intros _. destruct Hv as (Ha & _).
        eexists formData, f, args, t, _.
        repeat split; try reflexivity; assumption.
      * destruct (catch1_shape development e) as [He Hs].
        split; [simpl in *; tauto|]. split; [|now intros _].
        simpl fst. intros E. rewrite E in Hs. simpl in Hs.
        destruct Hs as [H|[H|[H|[]]]]; discriminate.
  - destruct (post2_cases toLowerCase whisper host request)
      as [H|(formData & f & hint & -> & Hv & Hl)].
    + destruct (refused_calls _ H) as [_ Hn].
      destruct H as (He & Hs). split; [|split; [contradiction | now intros _]].
      destruct Hs as [[-> _]|[Hs _]]; simpl in *; tauto.
    + unfold Whisper2.POST. rewrite (post2_valid _ _ _ _ _ _ Hv Hl). cbv zeta.
      assert (C : forall e, sound_answer Whisper2.detectLanguagesInText whisper
                    (inr formData)
                    (Whisper2.POST_catch e, [] ++ [Route.ConsoleError e])).
      { intros e. destruct (catch2_shape e) as [He Hs].
        split; [simpl in *; tauto|]. split; [|now intros _].
        simpl fst. intros E. rewrite E in Hs. simpl in Hs.
        destruct Hs as [H|[H|[]]]; discriminate. }
      destruct (Whisper2.writeFile host _ f) as [e|]; [apply C|].
      match goal with |- context [whisper ?a] =>
        set (args := a); destruct (whisper args) as [t|e] eqn:W end.
      * split; [simpl; tauto|]. split; [|intros H; now elim H].
        intros _. destruct Hv as (Ha & _).
        eexists formData, f, args, t, _.
        repeat split; try reflexivity; assumption.
      * destruct (catch2_shape e) as [He Hs].
        split; [simpl in *; tauto|]. split; [|now intros _].
        simpl fst. intros E. rewrite E in Hs. simpl in Hs.
        destruct Hs as [H|[H|[]]]; discriminate.
Qed.

End RouteClaimsMore.

Section RouteBehaviour.

Import Spec Props.

Variable toLowerCase : jsstring -> jsstring.
Variable development : bool.
Variable whisper : WhisperArgs -> Transcription + Exn.
Variable host : Whisper2.Host.

Local Abbreviation POST1 := (Whisper1.POST toLowerCase development whisper).
Local Abbreviation POST2 := (Whisper2.POST toLowerCase host whisper).

Lemma calls_one1 (formData : FormData) (f : File) (hint : option jsstring) :
  lowers_ascii toLowerCase ->
  valid1 formData f ->
  formData_get (lit "language") formData = hint_field hint ->
  exists args,
    calls (snd (POST1 (inr formData))) = [args] /\
    a_file args = Upload f /\
    a_language args = directive toLowerCase hint /\
    a_prompt args =
      Whisper1.getContextPrompt
        (match directive toLowerCase hint with
         | Some l => l
         | None => lit "en"
         end).
Proof.
  intros Hlow Hv Hl. unfold Whisper1.POST.
  rewrite (post1_valid _ _ _ _ _ Hv Hl). cbv zeta.
  match goal with |- context [whisper ?a] =>
    set (args := a); exists args; destruct (whisper args) as [t|e] end;
    (split; [reflexivity|]); (split; [reflexivity|]);
    (split; [|reflexivity]); subst args; cbn [a_language];
    (destruct (auto_hint hint) eqn:A;
     [now rewrite (directive_auto _ hint Hlow A) | reflexivity]).
Qed.

Lemma calls_one2 (formData : FormData) (f : File) (hint : option jsstring) :
  lowers_ascii toLowerCase ->
  valid2 formData f ->
  formData_get (lit "language") formData = hint_field hint ->
  Whisper2.writeFile host (Whisper2.tempFilePath host f) f = None ->
  exists args,
    calls (snd (POST2 (inr formData))) = [args] /\
    a_file args = ReadStream (Whisper2.tempFilePath host f) /\
    a_language args = directive toLowerCase hint /\
    a_prompt args =
      Whisper2.getContextPrompt
        (match directive toLowerCase hint with
         | Some l => l
         | None => lit "en"
         end).
Proof.
  intros Hlow Hv Hl Hw. unfold Whisper2.POST.
  rewrite (post2_valid _ _ _ _ _ _ Hv Hl). cbv zeta. rewrite Hw.
  assert (D : (if auto_hint hint then None else directive toLowerCase hint)
              = directive toLowerCase hint).
  { destruct (auto_hint hint) eqn:A;
      [now rewrite (directive_auto _ hint Hlow A) | reflexivity]. }
  rewrite D.
  match goal with |- context [whisper ?a] =>
    set (args := a); exists args; destruct (whisper args) as [t|e] end;
    repeat split.
Qed.

(** X5. For an upload that passes validation, both listings send the
    provider the same language: the two-letter prefix of the lower-cased hint
    when that prefix is one of the 13 supported codes, and none otherwise
    (a missing or empty hint and the word auto included, so the separate
    tests for auto change nothing). The context prompt is the one of that
    language, the English one when none is sent. *)
Theorem language_directive
  (formData : FormData) (f : File) (hint : option jsstring) :
  lowers_ascii toLowerCase ->
  formData_get (lit "language") formData = hint_field hint ->
  (valid1 formData f ->
   exists args,
     calls (snd (POST1 (inr formData))) = [args] /\
     a_file args = Upload f /\
     a_language args = directive toLowerCase hint /\
     a_prompt args =
       Whisper1.getContextPrompt
         (match directive toLowerCase hint with
          | Some l => l
          | None => lit "en"
          end)) /\
  (valid2 formData f ->
   Whisper2.writeFile host (Whisper2.tempFilePath host f) f = None ->
   exists args,
     calls (snd (POST2 (inr formData))) = [args] /\
     a_file args = ReadStream (Whisper2.tempFilePath host f) /\
     a_language args = directive toLowerCase hint /\
     a_prompt args =
       Whisper2.getContextPrompt
         (match directive toLowerCase hint with
          | Some l => l
          | None => lit "en"
          end)).
Proof.
  intros Hlow Hl. split.
  - intros Hv. now apply calls_one1.
  - intros Hv Hw. now apply calls_one2.
Qed.

(** X6. When the provider throws on a valid upload, the first listing
    answers 429 for a status 429, 500 with a fixed text for a status 401,
    503 for the code insufficient_quota, and otherwise 500 with the
    provider's message (a fixed text when it has none); the status is looked
    at before the code. The second listing answers the same for 429 and 401
    and has no case for the quota: it answers 500 with the provider's
    message. *)
Theorem provider_errors_mapped
  (formData : FormData) (f : File) (hint : option jsstring) (e : Exn) :
  formData_get (lit "language") formData = hint_field hint ->
  (forall args, whisper args = inr e) ->
  (valid1 formData f ->
   let r := fst (POST1 (inr formData)) in
   (e_status e = Some 429%N ->
    r = json_error
          (lit "Rate limit exceeded. Please try again in a moment.") 429) /\
   (e_status e = Some 401%N ->
    r = json_error
          (lit "Invalid API key configuration. Please contact support.") 500)
   /\
   (e_status e <> Some 429%N -> e_status e <> Some 401%N ->
    (e_code e = Some (lit "insufficient_quota") ->
     r = json_error (lit "API quota exceeded. Please contact support.") 503)
    /\
    (e_code e <> Some (lit "insufficient_quota") ->
     status r = 500%N /\
     exists details,
       body r =
       ErrorBody (Whisper1.or_else (e_message e) (lit "Transcription failed"))
         details))) /\
  (valid2 formData f ->
   Whisper2.writeFile host (Whisper2.tempFilePath host f) f = None ->
   let r := fst (POST2 (inr formData)) in
   (e_status e = Some 429%N -> r = json_error (lit "Rate limit exceeded") 429)
   /\
   (e_status e = Some 401%N -> r = json_error (lit "Invalid API Key") 500) /\
   (e_status e <> Some 429%N -> e_status e <> Some 401%N ->
    r = json_error
          (Whisper2.or_else (e_message e) (lit "Transcription failed")) 500)).
Proof.
  intros Hl Hw.
  assert (S : forall n : N,
            (Whisper1.status_is e n = true <-> e_status e = Some n) /\
            (Whisper2.status_is e n = true <-> e_status e = Some n)).
  { intros n. unfold Whisper1.status_is, Whisper2.status_is.
    destruct (e_status e) as [m|]; [|split; split; discriminate].
    destruct (N.eqb_spec m n); split; split; congruence. }
  assert (C : Whisper1.code_is e (lit "insufficient_quota") = true <->
              e_code e = Some (lit "insufficient_quota")).
  { unfold Whisper1.code_is. destruct (e_code e) as [c|]; [|split; discriminate].
    rewrite str_eqb_eq. split; congruence. }
  split.
  - intros Hv r. subst r. unfold Whisper1.POST.
    rewrite (post1_valid _ _ _ _ _ Hv Hl). cbv zeta. rewrite Hw. simpl fst.
    unfold Whisper1.POST_catch.
    destruct (Whisper1.status_is e 429) eqn:E1.
    { apply (proj1 (S 429%N)) in E1. split; [intros _; reflexivity|].
      split; [intros H | intros H]; congruence. }
    destruct (Whisper1.status_is e 401) eqn:E2.
    { apply (proj1 (S 401%N)) in E2. split; [intros H; congruence|].
      split; [intros _; reflexivity | intros _ H; congruence]. }
    split; [intros H; apply (proj1 (S 429%N)) in H; congruence|].
    split; [intros H; apply (proj1 (S 401%N)) in H; congruence|].
    intros _ _.
    destruct (Whisper1.code_is e _) eqn:E3.
    + split; [reflexivity|]. intros H. exfalso. apply H. now apply C.
    + split; [intros H; apply C in H; discriminate|].
      intros _. split; [reflexivity | eexists; reflexivity].
  - intros Hv Hf r. subst r. unfold Whisper2.POST.
    rewrite (post2_valid _ _ _ _ _ _ Hv Hl). cbv zeta. rewrite Hf, Hw.
    simpl fst. unfold Whisper2.POST_catch.
    destruct (Whisper2.status_is e 429) eqn:E1.
    { apply (proj2 (S 429%N)) in E1. split; [intros _; reflexivity|].
      split; [intros H | intros H]; congruence. }
    destruct (Whisper2.status_is e 401) eqn:E2.
    { apply (proj2 (S 401%N)) in E2. split; [intros H; congruence|].
      split; [intros _; reflexivity | intros _ H; congruence]. }
    split; [intros H; apply (proj2 (S 429%N)) in H; congruence|].
    split; [intros H; apply (proj2 (S 401%N)) in H; congruence|].
    intros _ _. reflexivity.
Qed.

(** X7. An [audio] field that is text instead of a file: the empty text
    counts as a missing payload in both listings; for any other text the
    first listing throws on reading the type and answers 500, and the second
    answers 400 for the file type undefined. Neither calls the provider. *)
Theorem text_in_audio_field (formData : FormData) (s : jsstring) :
  formData_get (lit "audio") formData = Some (EString s) ->
  (s = [] ->
   POST1 (inr formData) = (json_error (lit "No audio file provided") 400, []) /\
   POST2 (inr formData) = (json_error (lit "No audio file provided") 400, []))
  /\
  (s <> [] ->
   POST1 (inr formData) =
     (Whisper1.POST_catch development TypeError_type,
      [Route.ConsoleError TypeError_type]) /\
   status (fst (POST1 (inr formData))) = 500%N /\
   POST2 (inr formData) =
     (json_error (lit "Invalid file type: undefined") 400, []) /\
   classify (fst (POST2 (inr formData))) = Some UnsupportedFormat).
Proof.
  intros Ha. unfold Whisper1.POST, Whisper1.POST_try, Whisper2.POST,
    Whisper2.POST_try. rewrite Ha. split.
  - intros ->. split; reflexivity.
  - intros Hs. destruct s as [|c s]; [congruence|].
    split; [reflexivity|]. split; [reflexivity|]. split; [reflexivity|].
    apply (classify_invalid2 None).
Qed.


End RouteBehaviour.

Section RouteDisk.

Import Spec Props.

Variable toLowerCase : jsstring -> jsstring.
Variable development : bool.
Variable whisper : WhisperArgs -> Transcription + Exn.
Variable host : Whisper2.Host.

Local Abbreviation POST1 := (Whisper1.POST toLowerCase development whisper).
Local Abbreviation POST2 := (Whisper2.POST toLowerCase host whisper).

Lemma In_filter_other (q p : jsstring) (files : list jsstring) :
  q <> p ->
  (In q (filter (fun x => negb (str_eqb x p)) files) <-> In q files).
Proof.
  intros Hq. rewrite filter_In. split; [tauto|].
  intros H. split; [assumption|].
  destruct (str_eqb q p) eqn:E; [|reflexivity].
  apply str_eqb_eq in E. contradiction.
Qed.

(** X9. The second listing touches the disk only at the temporary path
    of the request's own file: a request refused with status 400 does nothing
    at all, no request writes more than once, and every other path is on disk
    after the request exactly when it was before. *)
Theorem disk_discipline (request : Request) (files : list jsstring) :
  let r := POST2 request in
  (status (fst r) = 400%N -> snd r = []) /\
  List.length (filter is_write (snd r)) <= 1 /\
  forall q, temp_path host request <> Some q ->
            (In q (fs_after files (snd r)) <-> In q files).
Proof.
  intros r. subst r.
  destruct (post2_cases toLowerCase whisper host request)
    as [(_ & [[Hs ->]|[Hs [e ->]]])|(formData & f & hint & -> & Hv & Hl)].
  - repeat split; simpl; auto.
  - split; [|split; [simpl; lia | intros q _; reflexivity]].
    intros E. rewrite E in Hs. simpl in Hs.
    destruct Hs as [H|[H|[H|[]]]]; discriminate.
  - unfold Whisper2.POST. rewrite (post2_valid _ _ _ _ _ _ Hv Hl). cbv zeta.
    destruct Hv as (Ha & _). unfold temp_path. rewrite Ha.
    set (p := Whisper2.tempFilePath host f).
    destruct (Whisper2.writeFile host p f) as [e|].
    { split; [|split; [simpl; lia | intros q _; reflexivity]].
      simpl fst. intros E. now apply catch2_not_400 in E. }
    match goal with |- context [whisper ?a] =>
      destruct (whisper a) as [t|e] end.
    + split; [simpl; discriminate|]. split; [simpl; lia|].
      intros q Hq. simpl fs_after. rewrite str_eqb_refl. simpl.
      apply In_filter_other. congruence.
    + split; [simpl fst; intros E; now apply catch2_not_400 in E|].
      split; [simpl; lia|].
      intros q Hq. simpl. split; [|tauto].
      intros [E|H]; [congruence | assumption].
Qed.

(** X10. When writing the temporary file fails, the second listing
    answers from its catch block with the error of the write: the provider
    is not called and the disk is as before. *)
Theorem write_failure
  (formData : FormData) (f : File) (hint : option jsstring) (e : Exn)
  (files : list jsstring) :
  valid2 formData f ->
  formData_get (lit "language") formData = hint_field hint ->
  Whisper2.writeFile host (Whisper2.tempFilePath host f) f = Some e ->
  POST2 (inr formData) = (Whisper2.POST_catch e, [Route.ConsoleError e]) /\
  calls (snd (POST2 (inr formData))) = [] /\
  fs_after files (snd (POST2 (inr formData))) = files /\
  status (fst (POST2 (inr formData))) <> 200%N.
Proof.
  intros Hv Hl Hw. unfold Whisper2.POST.
  rewrite (post2_valid _ _ _ _ _ _ Hv Hl). cbv zeta. rewrite Hw.
  split; [reflexivity|]. split; [reflexivity|]. split; [reflexivity|].
  simpl fst. destruct (catch2_shape e) as [_ Hs]. intros E. rewrite E in Hs.
  simpl in Hs. destruct Hs as [H|[H|[]]]; discriminate.
Qed.

(** X11. After a successful transcription of a valid upload, the first
    listing reports [autoDetected] exactly when the hint was missing, empty
    or the word auto, so a hint with no supported prefix is reported as not
    auto-detected although no language was sent; the second listing reports
    [autoDetected] exactly when no language was sent. *)
Theorem autoDetected_flag
  (formData : FormData) (f : File) (hint : option jsstring)
  (t : Transcription) :
  lowers_ascii toLowerCase ->
  formData_get (lit "language") formData = hint_field hint ->
  (forall args, whisper args = inl t) ->
  (valid1 formData f ->
   exists b args,
     body (fst (POST1 (inr formData))) = SuccessBody b /\
     calls (snd (POST1 (inr formData))) = [args] /\
     a_language args = directive toLowerCase hint /\
     r_autoDetected b = auto_hint hint) /\
  (valid2 formData f ->
   Whisper2.writeFile host (Whisper2.tempFilePath host f) f = None ->
   exists b args,
     body (fst (POST2 (inr formData))) = SuccessBody b /\
     calls (snd (POST2 (inr formData))) = [args] /\
     a_language args = directive toLowerCase hint /\
     r_autoDetected b =
       match directive toLowerCase hint with
       | Some _ => false
       | None => true
       end).
Proof.
  intros Hlow Hl Hw.
  assert (D : (if auto_hint hint then None else directive toLowerCase hint)
              = directive toLowerCase hint).
  { destruct (auto_hint hint) eqn:A;
      [now rewrite (directive_auto _ hint Hlow A) | reflexivity]. }
  split.
  - intros Hv. unfold Whisper1.POST.
    rewrite (post1_valid _ _ _ _ _ Hv Hl). cbv zeta. rewrite Hw.
    eexists _, _. split; [reflexivity|]. split; [reflexivity|].
    split; [|reflexivity]. cbn [a_language].
    destruct (auto_hint hint) eqn:A;
      [now rewrite (directive_auto _ hint Hlow A) | reflexivity].
  - intros Hv Hf. unfold Whisper2.POST.
    rewrite (post2_valid _ _ _ _ _ _ Hv Hl). cbv zeta. rewrite Hf, Hw, D.
    eexists _, _. repeat split.
Qed.

Lemma directive_code (code : jsstring) :
  lowers_ascii toLowerCase -> In code codes ->
  directive toLowerCase (Some code) = Some code.
Proof.
  intros Hlow H. unfold directive. simpl option_map.
  repeat (destruct H as [<-|H];
          [rewrite Hlow by (vm_compute; reflexivity); vm_compute; reflexivity|]).
  destruct H.
Qed.

(** X12. What the status probe advertises, the upload accepts: every
    format the first listing's GET lists passes its MIME check, so a file of
    such a type within the size limit is not refused with 400; and every
    language code that either GET lists, given as the hint, is the language
    sent to the provider. *)
Theorem probe_matches_upload :
  lowers_ascii toLowerCase ->
  fst Whisper1.GET = 200%N /\ fst Whisper2.GET = 200%N /\
  (forall formData f,
     formData_get (lit "audio") formData = Some (EFile f) ->
     In (f_type f) (i_supportedFormats (snd Whisper1.GET)) ->
     (f_size f <= maxSize)%N ->
     status (fst (POST1 (inr formData))) <> 400%N) /\
  (forall code name,
     In (code, name) (i_supportedLanguages (snd Whisper1.GET)) \/
     In (code, name) (i_supportedLanguages (snd Whisper2.GET)) ->
     directive toLowerCase (Some code) = Some code).
Proof.
  intros Hlow. split; [reflexivity|]. split; [reflexivity|]. split.
  - intros formData f Ha Ht Hs.
    destruct (validates1 toLowerCase development whisper formData)
      as [_ H].
    destruct (H f Ha) as (_ & _ & Hok).
    apply Hok; [|assumption].
    now apply validTypes_contain_name.
  - intros code name H. apply directive_code; [assumption|].
    destruct H as [H|H]; apply (in_map fst) in H; exact H.
Qed.

End RouteDisk.

(** Discharging the validity of a concrete upload. *)
Ltac valid_upload :=
  split; [vm_compute; reflexivity
         | split; [vm_compute; reflexivity | vm_compute; discriminate]].

Section RouteWitnesses.

Import Spec Props.

Lemma language_directive_witness :
  exists args,
    calls (snd (Whisper1.POST asciiLower false Sample.whisper_ok
                  (inr (Sample2.form (lit "audio/webm") 1024
                          (Some (lit "HI-in")))))) = [args] /\
    a_file args = Upload (Sample.clip (lit "audio/webm") 1024) /\
    a_language args = directive asciiLower (Some (lit "HI-in")) /\
    a_prompt args =
      Whisper1.getContextPrompt
        (match directive asciiLower (Some (lit "HI-in")) with
         | Some l => l
         | None => lit "en"
         end).
Proof.
  destruct (language_directive asciiLower false Sample.whisper_ok Sample.host
              (Sample2.form (lit "audio/webm") 1024 (Some (lit "HI-in")))
              (Sample.clip (lit "audio/webm") 1024) (Some (lit "HI-in"))
              asciiLower_lowers_ascii ltac:(vm_compute; reflexivity))
    as [H _].
  apply H. valid_upload.
Defined.

Lemma provider_errors_mapped_witness :
  fst (Whisper1.POST asciiLower false Sample.whisper_429
         (inr (Sample2.form (lit "audio/webm") 1024 None)))
  = json_error (lit "Rate limit exceeded. Please try again in a moment.") 429.
Proof.
  destruct (provider_errors_mapped asciiLower false Sample.whisper_429
              Sample.host
              (Sample2.form (lit "audio/webm") 1024 None)
              (Sample.clip (lit "audio/webm") 1024) None Sample.rate_limited
              ltac:(vm_compute; reflexivity) (fun _ => eq_refl))
    as [H _].
  destruct H as [H _]; [valid_upload|].
  apply H. reflexivity.
Defined.

Lemma text_in_audio_field_witness :
  status (fst (Whisper1.POST asciiLower false Sample.whisper_ok
                 (inr [(lit "audio", EString (lit "hello"))]))) = 500%N /\
  classify (fst (Whisper2.POST asciiLower Sample.host Sample.whisper_ok
                   (inr [(lit "audio", EString (lit "hello"))])))
    = Some UnsupportedFormat.
Proof.
  destruct (text_in_audio_field asciiLower false Sample.whisper_ok Sample.host
              [(lit "audio", EString (lit "hello"))] (lit "hello")
              ltac:(vm_compute; reflexivity)) as [_ H].
  destruct H as (_ & H1 & _ & H2); [vm_compute; discriminate|].
  split; [exact H1 | exact H2].
Defined.


Lemma disk_discipline_witness :
  In (lit "/tmp/other.webm")
     (fs_after [lit "/tmp/other.webm"]
        (snd (Whisper2.POST asciiLower Sample.host Sample.whisper_ok
                (inr (Sample2.form (lit "audio/webm") 1024 None)))))
  <-> In (lit "/tmp/other.webm") [lit "/tmp/other.webm"].
Proof.
  destruct (disk_discipline asciiLower Sample.whisper_ok Sample.host
              (inr (Sample2.form (lit "audio/webm") 1024 None))
              [lit "/tmp/other.webm"]) as (_ & _ & H).
  apply H. vm_compute. discriminate.
Defined.

Lemma write_failure_witness :
  calls (snd (Whisper2.POST asciiLower Sample2.host_full Sample.whisper_ok
                (inr (Sample2.form (lit "audio/webm") 1024 None)))) = [] /\
  status (fst (Whisper2.POST asciiLower Sample2.host_full Sample.whisper_ok
                 (inr (Sample2.form (lit "audio/webm") 1024 None))))
    <> 200%N.
Proof.
  destruct (write_failure asciiLower Sample.whisper_ok Sample2.host_full
              (Sample2.form (lit "audio/webm") 1024 None)
              (Sample.clip (lit "audio/webm") 1024) None Sample2.disk_full [])
    as (_ & H1 & _ & H2);
    [valid_upload | vm_compute; reflexivity | vm_compute; reflexivity |].
  split; [exact H1 | exact H2].
Defined.

Lemma autoDetected_flag_witness :
  exists b args,
    body (fst (Whisper1.POST asciiLower false Sample.whisper_ok
                 (inr (Sample2.form (lit "audio/webm") 1024
                         (Some (lit "xx")))))) = SuccessBody b /\
    calls (snd (Whisper1.POST asciiLower false Sample.whisper_ok
                  (inr (Sample2.form (lit "audio/webm") 1024
                          (Some (lit "xx")))))) = [args] /\
    a_language args = directive asciiLower (Some (lit "xx")) /\
    r_autoDetected b = auto_hint (Some (lit "xx")).
Proof.
  destruct (autoDetected_flag asciiLower false Sample.whisper_ok Sample.host
              (Sample2.form (lit "audio/webm") 1024 (Some (lit "xx")))
              (Sample.clip (lit "audio/webm") 1024) (Some (lit "xx"))
              Sample.transcription
              asciiLower_lowers_ascii ltac:(vm_compute; reflexivity)
              (fun _ => eq_refl)) as [H _].
  apply H. valid_upload.
Defined.

(** The hint xx: no language is sent, and the answer says the language was
    not auto-detected. *)
Lemma unsupported_hint_not_flagged :
  directive asciiLower (Some (lit "xx")) = None /\
  auto_hint (Some (lit "xx")) = false.
Proof. split; vm_compute; reflexivity. Qed.

Lemma probe_matches_upload_witness :
  directive asciiLower (Some (lit "ta")) = Some (lit "ta").
Proof.
  destruct (probe_matches_upload asciiLower false Sample.whisper_ok
              asciiLower_lowers_ascii) as (_ & _ & _ & H).
  apply (H (lit "ta") (lit "Tamil")). left. vm_compute. tauto.
Defined.

End RouteWitnesses.

(* ================================================================== *)
(** * Further properties: what the handlers keep and when they throw *)
(* ================================================================== *)

Section Frames.

Import Console Props.

Context {X : Type} (f : State -> X).

Lemma keeps_ret {A} (a : A) : keeps f (ret a).
Proof. intros s. reflexivity. Qed.

Lemma keeps_throw {A} (e : Exn) : keeps f (@throw A e).
Proof. intros s. reflexivity. Qed.

Lemma keeps_get : keeps f get.
Proof. intros s. reflexivity. Qed.

Lemma keeps_emit (e : Event) : keeps f (emit e).
Proof. intros s. reflexivity. Qed.

Lemma keeps_modify (g : State -> State) :
  (forall s, f (g s) = f s) -> keeps f (modify g).
Proof. intros H s. apply H. Qed.

Lemma keeps_bind {A B} (m : Act A) (k : A -> Act B) :
  keeps f m -> (forall a, keeps f (k a)) -> keeps f (bind m k).
Proof.
  intros Hm Hk s. unfold bind. specialize (Hm s).
  destruct (m s) as [[[a|e] s1] t1]; simpl in *; [|assumption].
  specialize (Hk a s1). destruct (k a s1) as [[r s2] t2]; simpl in *.
  congruence.
Qed.

Lemma keeps_try_catch {A} (m : Act A) (h : Exn -> Act A) :
  keeps f m -> (forall e, keeps f (h e)) -> keeps f (try_catch m h).
Proof.
  intros Hm Hh s. unfold try_catch. specialize (Hm s).
  destruct (m s) as [[[a|e] s1] t1]; simpl in *; [assumption|].
  specialize (Hh e s1). destruct (h e s1) as [[r s2] t2]; simpl in *.
  congruence.
Qed.

Lemma keeps_try_finally {A} (m : Act A) (g : Act unit) :
  keeps f m -> keeps f g -> keeps f (try_finally m g).
Proof.
  intros Hm Hg s. unfold try_finally. specialize (Hm s).
  destruct (m s) as [[r s1] t1]; simpl in *.
  specialize (Hg s1). destruct (g s1) as [[[u|e] s2] t2]; simpl in *;
    congruence.
Qed.

Lemma keeps_each {A} (g : A -> Act unit) (l : list A) :
  (forall a, keeps f (g a)) -> keeps f (each g l).
Proof.
  intros Hg. induction l as [|a l IH]; simpl.
  - apply keeps_ret.
  - apply keeps_bind; [apply Hg | intros _; exact IH].
Qed.

End Frames.

Section Safety.

Import Console Props.

Lemma safe_ret {A} (a : A) : safe (ret a).
Proof. intros s. now exists a. Qed.

Lemma safe_get : safe get.
Proof. intros s. now exists s. Qed.

Lemma safe_emit (e : Event) : safe (emit e).
Proof. intros s. now exists tt. Qed.

Lemma safe_modify (g : State -> State) : safe (modify g).
Proof. intros s. now exists tt. Qed.

Lemma safe_bind {A B} (m : Act A) (k : A -> Act B) :
  safe m -> (forall a, safe (k a)) -> safe (bind m k).
Proof.
  intros Hm Hk s. unfold bind. destruct (Hm s) as [a Ha].
  destruct (m s) as [[[a'|e] s1] t1]; simpl in Ha; [|discriminate].
  destruct (Hk a' s1) as [b Hb].
  destruct (k a' s1) as [[r s2] t2]; simpl in *. now exists b.
Qed.

(** A [try] whose handler cannot throw cannot throw. *)
Lemma safe_try_catch {A} (m : Act A) (h : Exn -> Act A) :
  (forall e, safe (h e)) -> safe (try_catch m h).
Proof.
  intros Hh s. unfold try_catch.
  destruct (m s) as [[[a|e] s1] t1]; simpl; [now exists a|].
  destruct (Hh e s1) as [b Hb].
  destruct (h e s1) as [[r s2] t2]; simpl in *. now exists b.
Qed.

Lemma safe_try_finally {A} (m : Act A) (g : Act unit) :
  safe m -> safe g -> safe (try_finally m g).
Proof.
  intros Hm Hg s. unfold try_finally. destruct (Hm s) as [a Ha].
  destruct (m s) as [[r s1] t1]; simpl in Ha. subst r.
  destruct (Hg s1) as [u Hu].
  destruct (g s1) as [[[u'|e] s2] t2]; simpl in *; [now exists a|discriminate].
Qed.

End Safety.

Ltac keep_step :=
  lazymatch goal with
  | |- Props.keeps _ (Console.bind _ _) => apply keeps_bind; [|intros ?]
  | |- Props.keeps _ (Console.try_catch _ _) =>
      apply keeps_try_catch; [|intros ?]
  | |- Props.keeps _ (Console.try_finally _ _) => apply keeps_try_finally
  | |- Props.keeps _ (Console.ret _) => apply keeps_ret
  | |- Props.keeps _ (Console.throw _) => apply keeps_throw
  | |- Props.keeps _ Console.get => apply keeps_get
  | |- Props.keeps _ (Console.emit _) => apply keeps_emit
  | |- Props.keeps _ (Console.modify _) =>
      apply keeps_modify; intros ?; reflexivity
  | |- Props.keeps _ (Console.each _ _) => apply keeps_each; intros ?
  | |- Props.keeps _ (match ?x with _ => _ end) => destruct x
  | |- Props.keeps _ (let _ := _ in _) => cbv zeta
  end.

Ltac keep := unfold_setters; repeat keep_step.

Ltac safe_step :=
  lazymatch goal with
  | |- Props.safe (Console.bind _ _) => apply safe_bind; [|intros ?]
  | |- Props.safe (Console.try_catch _ _) => apply safe_try_catch; intros ?
  | |- Props.safe (Console.try_finally _ _) => apply safe_try_finally
  | |- Props.safe (Console.ret _) => apply safe_ret
  | |- Props.safe Console.get => apply safe_get
  | |- Props.safe (Console.emit _) => apply safe_emit
  | |- Props.safe (Console.modify _) => apply safe_modify
  | |- Props.safe (match ?x with _ => _ end) => destruct x
  | |- Props.safe (let _ := _ in _) => cbv zeta
  end.

Ltac safely := unfold_setters; repeat safe_step.

(* ================================================================== *)
(** * Further properties: the resolver and the transcription request *)
(* ================================================================== *)

Section ResolverMore.

Import Console Spec Props.

Variable toLowerCase : jsstring -> jsstring.
Variable world : World.

Local Abbreviation resolve := (processBusinessLogic toLowerCase world).

Lemma resolve_keeps {X} (f : State -> X) (text : jsstring) :
  (forall v s, f (upd_reply v s) = f s) ->
  (forall x s, f (upd_currentExplanation x s) = f s) ->
  (forall b s, f (upd_showExplanation b s) = f s) ->
  keeps f (resolve text).
Proof.
  intros H1 H2 H3. unfold processBusinessLogic, delegate. unfold_setters.
  repeat first [ apply keeps_modify; solve [auto] | keep_step ].
Qed.

Lemma resolve_safe (text : jsstring) : safe (resolve text).
Proof. unfold processBusinessLogic, delegate. safely. Qed.

Ltac kept_by_resolver :=
  match goal with
  | |- ?f (snd (fst _)) = ?f _ =>
      apply (resolve_keeps f); intros; reflexivity
  end.

(** X13. [processBusinessLogic] writes the reply and, on a match, the
    explanation and its flag, and nothing else: the transcript, the error,
    the recording state and refs, the loading and playing flags and the
    settings are as before. When no trigger matches, the explanation and its
    flag are as before too. *)
Theorem resolver_frame (text : jsstring) (s : State) :
  let s' := snd (fst (resolve text s)) in
  same_but_reply s s' /\
  (matchScenario (toLowerCase text) = None ->
   currentExplanation s' = currentExplanation s /\
   showExplanation s' = showExplanation s).
Proof.
  intros s'. subst s'. split.
  - unfold same_but_reply, same_recording.
    repeat split; kept_by_resolver.
  - intros M. destruct (blank text) eqn:B.
    + rewrite (resolve_blank _ _ _ _ B). split; reflexivity.
    + destruct (resolve_no_match _ world _ s B M) as (v & ->).
      split; reflexivity.
Qed.

Lemma power_outage_first (lowerText : jsstring) :
  includes lowerText (lit "power outage") = true ->
  matchScenario lowerText = Some (lit "power outage").
Proof.
  intros H. apply matchScenario_first. exists [], [lit "water tank"].
  repeat split; [assumption | intros k []].
Qed.

(** X14. Declaration order decides between triggers: whenever the
    lower-cased transcript contains "power outage", the reply is the first
    power-outage reply and the explanation is the one of confidence 95,
    wherever "water tank" may occur in the same transcript. *)
Theorem power_outage_wins (text : jsstring) (s : State) :
  keeps_blank toLowerCase ->
  includes (toLowerCase text) (lit "power outage") = true ->
  let s' := snd (fst (resolve text s)) in
  reply s' = firstResponse (lit "power outage") /\
  currentExplanation s' = assoc (lit "power outage") aiExplanationData /\
  (exists x, currentExplanation s' = Some x /\ x_confidence x = 95%Z) /\
  showExplanation s' = true.
Proof.
  intros Hb Hin s'. subst s'.
  pose proof (power_outage_first _ Hin) as M.
  destruct (matchScenario_key _ _ M) as [Hk _].
  rewrite (resolve_match _ world _ _ s (match_not_blank _ _ _ Hb Hk Hin) M).
  split; [reflexivity|]. split; [reflexivity|]. split; [|reflexivity].
  eexists. split; vm_compute; reflexivity.
Qed.

(** X15. The resolver contacts the text-generation endpoint exactly when
    the transcript is not blank and no trigger matches, once, and the prompt
    it sends is the transcript as it was transcribed, not the lower-cased
    text. *)
Theorem delegation_request (text : jsstring) (s : State) :
  delegations (snd (resolve text s)) =
  if blank text
     || match matchScenario (toLowerCase text) with
        | Some _ => true
        | None => false
        end
  then [] else [text].
Proof.
  destruct (blank text) eqn:B.
  - rewrite (resolve_blank _ _ _ _ B). reflexivity.
  - destruct (matchScenario (toLowerCase text)) as [k|] eqn:M.
    + rewrite (resolve_match _ world _ _ s B M). reflexivity.
    + destruct (resolve_no_match _ world _ s B M) as (v & ->). reflexivity.
Qed.

End ResolverMore.

Lemma power_outage_wins_witness :
  let s' := snd (fst (Console.processBusinessLogic asciiLower Sample.world
                        (lit "The water tank broke and now a Power Outage")
                        Console.initial)) in
  Console.reply s' = Console.firstResponse (lit "power outage") /\
  Console.currentExplanation s'
    = assoc (lit "power outage") Console.aiExplanationData /\
  (exists x, Console.currentExplanation s' = Some x /\
             Console.x_confidence x = 95%Z) /\
  Console.showExplanation s' = true.
Proof.
  apply (power_outage_wins asciiLower Sample.world
           (lit "The water tank broke and now a Power Outage")
           Console.initial asciiLower_keeps_blank).
  vm_compute. reflexivity.
Defined.

Lemma resolver_frame_witness :
  Console.showExplanation
    (snd (fst (Console.processBusinessLogic asciiLower Sample.world
                 (lit "hello") Sample.playing.(Console.comp))))
  = Console.showExplanation Sample.playing.(Console.comp).
Proof.
  destruct (resolver_frame asciiLower Sample.world (lit "hello")
              Sample.playing.(Console.comp)) as [_ H].
  apply H. vm_compute. reflexivity.
Defined.

Section SendMore.

Import Console Spec Props.

Variable toLowerCase : jsstring -> jsstring.
Variable world : World.

Local Abbreviation send := (sendToWhisper toLowerCase world).

Lemma send_keeps {X} (f : State -> X) (lang : jsstring) (blob : Blob) :
  (forall v s, f (upd_reply v s) = f s) ->
  (forall x s, f (upd_currentExplanation x s) = f s) ->
  (forall b s, f (upd_showExplanation b s) = f s) ->
  (forall b s, f (upd_isLoading b s) = f s) ->
  (forall v s, f (upd_transcript v s) = f s) ->
  (forall d s, f (upd_transcriptionDuration d s) = f s) ->
  (forall e s, f (upd_error e s) = f s) ->
  keeps f (send lang blob).
Proof.
  intros H1 H2 H3 H4 H5 H6 H7. unfold sendToWhisper.
  pose proof (fun text => resolve_keeps toLowerCase world f text H1 H2 H3)
    as R.
  unfold_setters.
  repeat first [ apply R | apply keeps_modify; solve [auto] | keep_step ].
Qed.

Lemma send_safe (lang : jsstring) (blob : Blob) : safe (send lang blob).
Proof. unfold sendToWhisper. safely. Qed.

Lemma try_finally_loading {A} (m : Act A) (s : State) :
  try_finally m (setIsLoading false) s =
  (fst (fst (m s)), upd_isLoading false (snd (fst (m s))),
   snd (m s) ++ [SetIsLoading false]).
Proof.
  unfold try_finally. destruct (m s) as [[r s1] t1]. reflexivity.
Qed.

Lemma hd_bind {A B} (m : Act A) (k : A -> Act B) (s : State) (e : Event) :
  hd_error (snd (m s)) = Some e -> hd_error (snd (bind m k s)) = Some e.
Proof.
  unfold bind. destruct (m s) as [[[a|x] s1] [|e1 t1]]; simpl;
    try discriminate; try (intros H; exact H).
  destruct (k a s1) as [[r s2] t2]. simpl. auto.
Qed.

Lemma hd_try_catch {A} (m : Act A) (h : Exn -> Act A) (s : State) (e : Event) :
  hd_error (snd (m s)) = Some e -> hd_error (snd (try_catch m h s)) = Some e.
Proof.
  unfold try_catch. destruct (m s) as [[[a|x] s1] [|e1 t1]]; simpl;
    try discriminate; try (intros H; exact H).
  destruct (h x s1) as [[r s2] t2]. simpl. auto.
Qed.

(** X16. [sendToWhisper] never throws, and however the request and the
    resolution end it has set [isLoading] first and cleared it last, so the
    button is never left disabled; it changes nothing of the recording state
    or the refs. *)
Theorem send_settles (lang : jsstring) (blob : Blob) (s : State) :
  let out := send lang blob s in
  fst (fst out) = Ret tt /\
  isLoading (snd (fst out)) = false /\
  hd_error (snd out) = Some (SetIsLoading true) /\
  last (snd out) GetUserMedia = SetIsLoading false /\
  same_recording s (snd (fst out)).
Proof.
  intros out. subst out. split; [|split; [|split; [|split]]].
  - destruct (send_safe lang blob s) as [[] H]. exact H.
  - unfold sendToWhisper. rewrite try_finally_loading. reflexivity.
  - unfold sendToWhisper. rewrite try_finally_loading. simpl snd.
    match goal with
    | |- hd_error (?t ++ _) = _ =>
        assert (H : hd_error t = Some (SetIsLoading true))
    end.
    { apply hd_try_catch. unfold setIsLoading.
      apply hd_bind. apply hd_bind. reflexivity. }
    match type of H with
    | hd_error ?t = _ => destruct t; [discriminate | exact H]
    end.
  - unfold sendToWhisper. rewrite try_finally_loading. simpl snd.
    apply last_last.
  - unfold same_recording.
    repeat split;
      match goal with
      | |- ?f (snd (fst _)) = ?f _ =>
          apply (send_keeps f); intros; reflexivity
      end.
Qed.

Lemma send_fails (lang : jsstring) (blob : Blob) (s : State) (msg : jsstring) :
  request_error (transcribe world (formDataFor blob lang)) = Some msg ->
  send lang blob s =
  (Ret tt,
   upd_isLoading false (upd_error (Some msg) (upd_isLoading true s)),
   [SetIsLoading true;
    FetchTranscribe (lit "/api/transcribe") (formDataFor blob lang);
    SetError (Some msg); SetIsLoading false]).
Proof.
  unfold request_error, sendToWhisper, try_finally, try_catch.
  unfold_setters. unfold bind, emit, modify, ret, throw.
  destruct (transcribe world (formDataFor blob lang))
    as [e|[|] e|[|] data]; try discriminate; intros [= <-]; reflexivity.
Qed.

(** X17. When the transcription request fails (the fetch rejects, the
    answer is not a 2xx, or its body is not JSON), [sendToWhisper] puts a
    Processing error message in [error]: the provider's or platform's
    message for a rejection, the fixed text Transcription failed for a
    non-2xx answer. The transcript and the reply are untouched and the
    resolver is not run. *)
Theorem request_failure_surfaces
  (lang : jsstring) (blob : Blob) (s : State) (msg : jsstring) :
  request_error (transcribe world (formDataFor blob lang)) = Some msg ->
  let out := send lang blob s in
  error (snd (fst out)) = Some msg /\
  startsWith msg (lit "Processing error: ") = true /\
  transcript (snd (fst out)) = transcript s /\
  reply (snd (fst out)) = reply s /\
  replyWrites (snd out) = [] /\
  delegations (snd out) = [].
Proof.
  intros H out. subst out. rewrite (send_fails _ _ _ _ H).
  split; [reflexivity|]. split; [|repeat split].
  unfold request_error in H.
  destruct (transcribe world (formDataFor blob lang))
    as [e|[|] e|[|] data]; try discriminate; injection H as <-;
    apply startsWith_app.
Qed.

Lemma assoc_defined_None (k : jsstring) (fields : list (jsstring * value)) :
  assoc k fields = None -> assoc k (defined fields) = None.
Proof.
  unfold defined. induction fields as [|[k' v] fields IH]; simpl;
    [reflexivity|].
  destruct (str_eqb k' k) eqn:E; [discriminate|]. intros H.
  destruct v; simpl; rewrite ?E; auto.
Qed.

(** No body of the route has a property [text]. *)
Lemma json_has_no_text (r : Response) :
  get_prop (json_of r) (lit "text") = Some VUndefined.
Proof.
  unfold json_of. destruct (body r) as [msg [d|]|b]; try reflexivity.
  unfold get_prop. rewrite assoc_defined_None; reflexivity.
Qed.

(** X18. Fed with any response the route produces, [sendToWhisper] ends
    in the error state and never resolves an intent: an error response is
    not ok, and a success response carries its text under [transcript], so
    the [text] the client reads is undefined and calling trim on it throws.
    No reply is written and the text-generation endpoint is not
    contacted. *)
Theorem client_meets_route
  (lang : jsstring) (blob : Blob) (s : State) (r : Response) :
  transcribe world (formDataFor blob lang) = served r ->
  let out := send lang blob s in
  (exists msg, error (snd (fst out)) = Some msg) /\
  reply (snd (fst out)) = reply s /\
  replyWrites (snd out) = [] /\
  delegations (snd out) = [] /\
  (status r = 200%N -> transcript (snd (fst out)) = VUndefined).
Proof.
  intros H out. subst out. unfold served in H.
  destruct ((200 <=? status r)%N && (status r <=? 299)%N) eqn:Ok.
  - unfold sendToWhisper, try_finally, try_catch.
    unfold_setters. unfold bind, emit, modify, ret, throw.
    rewrite H, json_has_no_text.
    split; [eexists; reflexivity|]. repeat split.
  - rewrite (send_fails lang blob s
               (with_message (lit "Processing error: ") transcription_failed))
      by (unfold request_error; rewrite H; reflexivity).
    split; [eexists; reflexivity|]. split; [reflexivity|].
    split; [reflexivity|]. split; [reflexivity|].
    intros E. rewrite E in Ok. discriminate.
Qed.

End SendMore.

Lemma request_failure_surfaces_witness :
  let w := Sample2.world_routed in
  let blob := {| Console.b_type := Console.opus; Console.b_size := 4096 |} in
  let out := Console.sendToWhisper asciiLower w (lit "auto") blob
               Console.initial in
  Console.error (snd (fst out))
    = Some (lit "Processing error: Transcription failed") /\
  Console.replyWrites (snd out) = [].
Proof.
  intros w blob out.
  destruct (request_failure_surfaces asciiLower w (lit "auto") blob
              Console.initial (lit "Processing error: Transcription failed")
              ltac:(vm_compute; reflexivity)) as (H1 & _ & _ & _ & H2 & _).
  split; [exact H1 | exact H2].
Defined.

Lemma client_meets_route_witness :
  let w := Sample2.world_routed in
  let blob := {| Console.b_type := Console.opus; Console.b_size := 4096 |} in
  let out := Console.sendToWhisper asciiLower w (lit "auto") blob
               Console.initial in
  (exists msg, Console.error (snd (fst out)) = Some msg) /\
  Console.delegations (snd out) = [].
Proof.
  intros w blob out.
  destruct (client_meets_route asciiLower w (lit "auto") blob Console.initial
              (fst (Whisper2.POST asciiLower Sample.host Sample.whisper_ok
                      (inr (Console.formDataFor blob (lit "auto")))))
              eq_refl) as (H1 & _ & _ & H2 & _).
  split; [exact H1 | exact H2].
Defined.

(* ================================================================== *)
(** * Further properties: recording *)
(* ================================================================== *)

Section RecordingMore.

Import Console Spec Props.

Variable toLowerCase : jsstring -> jsstring.
Variable world : World.

Lemma startRecording_denied (s : State) (e : Exn) :
  getUserMedia world = inl e ->
  startRecording world s =
  (Ret tt,
   upd_error (Some (with_message (lit "Microphone access denied: ") e))
     (upd_detectedLanguage []
        (upd_showExplanation false
           (upd_reply (VString [])
              (upd_transcript (VString []) (upd_error None s))))),
   [SetError None; SetTranscript (VString []); SetReply (VString []);
    SetShowExplanation false; SetDetectedLanguage []; GetUserMedia;
    ConsoleError e;
    SetError (Some (with_message (lit "Microphone access denied: ") e))]).
Proof.
  intros Hg. unfold startRecording, try_catch. unfold_setters.
  unfold bind, emit, modify, get, ret, throw. rewrite Hg. reflexivity.
Qed.

Lemma startRecording_no_recorder (s : State) (stream : Stream) (e : Exn) :
  getUserMedia world = inr stream ->
  newMediaRecorder world = Some e ->
  startRecording world s =
  (Ret tt,
   upd_error (Some (with_message (lit "Microphone access denied: ") e))
     (upd_streamRef (Some stream)
        (upd_detectedLanguage []
           (upd_showExplanation false
              (upd_reply (VString [])
                 (upd_transcript (VString []) (upd_error None s)))))),
   [SetError None; SetTranscript (VString []); SetReply (VString []);
    SetShowExplanation false; SetDetectedLanguage []; GetUserMedia;
    NewMediaRecorder stream (mimeTypeOf world); ConsoleError e;
    SetError (Some (with_message (lit "Microphone access denied: ") e))]).
Proof.
  intros Hg Hr. unfold startRecording, try_catch. unfold_setters.
  unfold bind, emit, modify, get, ret, throw. rewrite Hg, Hr. reflexivity.
Qed.

(** X19. When the platform refuses the microphone, [startRecording]
    does not throw: it has reset the turn, it logs the error and shows
    Microphone access denied with the platform's message, and it leaves
    [isRecording] and the refs as they were, without creating a recorder; a
    release that follows from an idle state does nothing. *)
Theorem microphone_denied (s : State) (e : Exn) :
  getUserMedia world = inl e ->
  let out := startRecording world s in
  let s' := snd (fst out) in
  fst (fst out) = Ret tt /\
  error s' = Some (with_message (lit "Microphone access denied: ") e) /\
  transcript s' = VString [] /\ reply s' = VString [] /\
  same_recording s s' /\
  snd out =
    [SetError None; SetTranscript (VString []); SetReply (VString []);
     SetShowExplanation false; SetDetectedLanguage []; GetUserMedia;
     ConsoleError e;
     SetError (Some (with_message (lit "Microphone access denied: ") e))] /\
  (isRecording s = false -> stopRecording s' = (Ret tt, s', [])).
Proof.
  intros Hg out s'. subst s' out. rewrite (startRecording_denied _ _ Hg).
  repeat split. intros H. apply stopRecording_idle. now left.
Qed.

(** X20. When the microphone is granted but the recorder cannot be
    built, the stream is already in [streamRef] and nothing stops its
    tracks: the handler reports Microphone access denied with the
    constructor's message, [isRecording] and the recorder ref are as before,
    and from an idle state the release that follows does nothing, so the
    stream stays open. *)
Theorem recorder_failure_keeps_stream (s : State) (stream : Stream) (e : Exn) :
  getUserMedia world = inr stream ->
  newMediaRecorder world = Some e ->
  let out := startRecording world s in
  let s' := snd (fst out) in
  fst (fst out) = Ret tt /\
  streamRef s' = Some stream /\
  stop_events (snd out) = [] /\
  error s' = Some (with_message (lit "Microphone access denied: ") e) /\
  isRecording s' = isRecording s /\
  mediaRecorderRef s' = mediaRecorderRef s /\
  (isRecording s = false -> stopRecording s' = (Ret tt, s', [])).
Proof.
  intros Hg Hr out s'. subst s' out.
  rewrite (startRecording_no_recorder _ _ _ Hg Hr).
  repeat split. intros H. apply stopRecording_idle. now left.
Qed.

(** X21. Releasing twice is releasing once: after [stopRecording], from
    any state, a second [stopRecording] changes nothing and logs nothing.
    After a start that succeeded, the first release stops the recorder that
    start created and clears [isRecording]. *)
Theorem stop_is_idempotent (s : State) :
  (let s1 := snd (fst (stopRecording s)) in
   stopRecording s1 = (Ret tt, s1, [])) /\
  (forall stream,
     getUserMedia world = inr stream ->
     newMediaRecorder world = None ->
     let started := snd (fst (startRecording world s)) in
     stopRecording started =
     (Ret tt, upd_isRecording false started,
      [RecorderStop (recorderOf world stream s); SetIsRecording false])).
Proof.
  split.
  - intros s1. subst s1.
    destruct (mediaRecorderRef s) as [r|] eqn:Hr;
      [destruct (isRecording s) eqn:Hi|].
    + rewrite (stopRecording_active s r Hi Hr). apply stopRecording_idle.
      now left.
    + rewrite (stopRecording_idle s (or_introl Hi)). apply stopRecording_idle.
      now left.
    + rewrite (stopRecording_idle s (or_intror Hr)). apply stopRecording_idle.
      now right.
  - intros stream Hg Hr started. subst started.
    rewrite (startRecording_granted _ _ _ Hg Hr).
    apply stopRecording_active; reflexivity.
Qed.

Lemma stop_events_none (tr : list Event) :
  existsb is_stop tr = false -> stop_events tr = [].
Proof.
  induction tr as [|e tr IH]; simpl; [reflexivity|].
  intros H. apply orb_false_iff in H as [He Ht].
  rewrite (IH Ht). destruct e; try reflexivity. discriminate.
Qed.

Lemma stop_events_app (t1 t2 : list Event) :
  stop_events (t1 ++ t2) = stop_events t1 ++ stop_events t2.
Proof. apply flat_map_app. Qed.

Lemma send_avoids_stop (lang : jsstring) (blob : Blob) :
  avoids is_stop (sendToWhisper toLowerCase world lang blob).
Proof.
  unfold sendToWhisper.
  pose proof (fun text => resolve_avoids toLowerCase world is_stop text
    (fun _ => eq_refl) (fun _ => eq_refl) (fun _ => eq_refl)
    (fun _ _ => eq_refl)) as R.
  unfold_setters.
  repeat first [ apply R | avoid_step ].
Qed.

Lemma total_filter (chunks : list Blob) (mimeType : jsstring) :
  b_size (blobOf (filter (fun c => (0 <? b_size c)%N) chunks) mimeType)
  = total_size chunks.
Proof.
  unfold blobOf, total_size. simpl b_size.
  induction chunks as [|c chunks IH]; simpl; [reflexivity|].
  destruct (N.ltb_spec 0 (b_size c)); simpl; rewrite IH; lia.
Qed.

(** The state and trace of a gesture, up to what [sendToWhisper] does. *)
Lemma gesture_run (chunks : list Blob) (s : State) (stream : Stream) :
  getUserMedia world = inr stream ->
  newMediaRecorder world = None ->
  exists s2,
    same_recording
      (upd_isRecording false
         (upd_audioChunksRef (filter (fun c => (0 <? b_size c)%N) chunks)
            (snd (fst (startRecording world s))))) s2 /\
    let sent :=
      sendToWhisper toLowerCase world (selectedLanguage s)
        (blobOf (filter (fun c => (0 <? b_size c)%N) chunks)
           (mimeTypeOf world)) s2 in
    gesture toLowerCase world chunks s =
    (Ret tt, snd (fst sent),
     [SetError None; SetTranscript (VString []); SetReply (VString []);
      SetShowExplanation false; SetDetectedLanguage []; GetUserMedia;
      NewMediaRecorder stream (mimeTypeOf world);
      RecorderStart (recorderOf world stream s); SetIsRecording true;
      RecorderStop (recorderOf world stream s); SetIsRecording false]
     ++ snd sent ++ [StopTracks stream]).
Proof.
  intros Hg Hr. unfold gesture.
  unfold bind at 1. rewrite (startRecording_granted _ _ _ Hg Hr).
  set (s1 := upd_isRecording true _).
  unfold bind at 1.
  destruct (each_ondataavailable chunks s1) as (s2 & -> & Hc & Hm & Hi & Hs).
  unfold bind at 1.
  rewrite (stopRecording_active s2 (recorderOf world stream s)) by
    (rewrite ?Hi, ?Hm; reflexivity).
  unfold bind at 1, get at 1.
  change (mediaRecorderRef (upd_isRecording false s2))
    with (mediaRecorderRef s2).
  rewrite Hm. change (mediaRecorderRef s1) with (Some (recorderOf world stream s)).
  cbv iota. unfold onstop.
  unfold bind at 1, get at 1. unfold bind at 1.
  change (audioChunksRef (upd_isRecording false s2)) with (audioChunksRef s2).
  rewrite Hc. change (audioChunksRef s1) with (@nil Blob). rewrite app_nil_l.
  change (rec_language (recorderOf world stream s)) with (selectedLanguage s).
  change (rec_mimeType (recorderOf world stream s)) with (mimeTypeOf world).
  exists (upd_isRecording false s2). split.
  - unfold same_recording. simpl. rewrite Hc, Hm, Hs. repeat split.
  - cbv zeta.
    match goal with
    | |- context [sendToWhisper toLowerCase world ?l ?b ?s0] =>
        pose proof (send_safe toLowerCase world l b s0) as [[] Hsafe];
        pose proof (send_keeps toLowerCase world streamRef l b
                      ltac:(reflexivity) ltac:(reflexivity) ltac:(reflexivity)
                      ltac:(reflexivity) ltac:(reflexivity) ltac:(reflexivity)
                      ltac:(reflexivity) s0) as Hkeep;
        destruct (sendToWhisper toLowerCase world l b s0) as [[r s3] t3]
    end.
    simpl in Hsafe, Hkeep. subst r. simpl snd. simpl fst.
    unfold bind, get. rewrite Hkeep. simpl streamRef. rewrite Hs.
    reflexivity.
Qed.

End RecordingMore.

Section GestureMore.

Import Console Spec Props.

Variable toLowerCase : jsstring -> jsstring.
Variable world : World.

(** X22. A gesture whose start succeeded always runs to its end without
    throwing, whatever the transcription and the resolution do: it leaves
    [isRecording] and [isLoading] false, and it stops the tracks of the
    stream it acquired, once, as its last action. *)
Theorem gesture_completes (chunks : list Blob) (s : State) (stream : Stream) :
  getUserMedia world = inr stream ->
  newMediaRecorder world = None ->
  let out := gesture toLowerCase world chunks s in
  fst (fst out) = Ret tt /\
  isRecording (snd (fst out)) = false /\
  isLoading (snd (fst out)) = false /\
  streamRef (snd (fst out)) = Some stream /\
  stop_events (snd out) = [stream] /\
  last (snd out) GetUserMedia = StopTracks stream.
Proof.
  intros Hg Hr out. subst out.
  destruct (gesture_run toLowerCase world chunks s stream Hg Hr)
    as (s2 & (Hi & _ & _ & Hs) & ->).
  rewrite (startRecording_granted _ _ _ Hg Hr) in Hs. simpl in Hi, Hs.
  cbv zeta. cbn [fst snd].
  split; [reflexivity|]. split; [|split; [|split; [|split]]].
  - rewrite (send_keeps toLowerCase world isRecording); auto.
  - unfold sendToWhisper. rewrite try_finally_loading. reflexivity.
  - rewrite (send_keeps toLowerCase world streamRef); auto.
  - rewrite !stop_events_app.
    rewrite (stop_events_none (snd (sendToWhisper _ _ _ _ _)))
      by apply send_avoids_stop.
    reflexivity.
  - rewrite app_assoc. apply last_last.
Qed.

(** X23. The one request of a gesture carries the clip as a file named
    recording.webm, of the MIME type negotiated at the start, whose size is
    the sum of the sizes of all the chunks delivered (a session without a
    byte still posts, a clip of size 0). The language field is there exactly
    when the language selected at the press is neither empty nor auto. *)
Theorem uploaded_clip (chunks : list Blob) (s : State) (stream : Stream) :
  getUserMedia world = inr stream ->
  newMediaRecorder world = None ->
  transcriptionRequests (snd (gesture toLowerCase world chunks s)) =
  [(lit "/api/transcribe",
    (lit "file", EFile (clip_of world chunks))
    :: match language_field (selectedLanguage s) with
       | Some e => [(lit "language", e)]
       | None => []
       end)].
Proof.
  intros Hg Hr. rewrite (gesture_requests _ _ _ _ _ Hg Hr).
  unfold formDataFor, clip_of. rewrite total_filter.
  unfold language_field.
  destruct (selectedLanguage s) as [|c l]; [reflexivity|].
  simpl truthy. simpl andb.
  destruct (str_eqb (c :: l) (lit "auto")); reflexivity.
Qed.

End GestureMore.

Section RecordingWitnesses.

Import Console Spec Props.

Lemma microphone_denied_witness :
  let out := startRecording Sample2.world_denied initial in
  error (snd (fst out))
    = Some (with_message (lit "Microphone access denied: ") Sample2.denied) /\
  same_recording initial (snd (fst out)).
Proof.
  intros out.
  destruct (microphone_denied Sample2.world_denied initial Sample2.denied
              eq_refl) as (_ & H1 & _ & _ & H2 & _).
  split; [exact H1 | exact H2].
Defined.

Lemma recorder_failure_keeps_stream_witness :
  let out := startRecording Sample2.world_no_recorder initial in
  streamRef (snd (fst out)) = Some 7%N /\
  stop_events (snd out) = [] /\
  stopRecording (snd (fst out)) = (Ret tt, snd (fst out), []).
Proof.
  intros out.
  destruct (recorder_failure_keeps_stream Sample2.world_no_recorder initial
              7%N Sample2.unsupported eq_refl eq_refl)
    as (_ & H1 & H2 & _ & _ & _ & H3).
  split; [exact H1|]. split; [exact H2 | apply H3; reflexivity].
Defined.

Lemma stop_is_idempotent_witness :
  let started := snd (fst (startRecording Sample.world initial)) in
  stopRecording started =
  (Ret tt, upd_isRecording false started,
   [RecorderStop (recorderOf Sample.world 1%N initial);
    SetIsRecording false]).
Proof.
  destruct (stop_is_idempotent Sample.world initial) as [_ H].
  apply (H 1%N); reflexivity.
Defined.

Lemma gesture_completes_witness :
  let out := gesture asciiLower Sample.world
               [{| b_type := opus; b_size := 4096 |}] initial in
  fst (fst out) = Ret tt /\
  isRecording (snd (fst out)) = false /\
  isLoading (snd (fst out)) = false /\
  streamRef (snd (fst out)) = Some 1%N /\
  stop_events (snd out) = [1%N] /\
  last (snd out) GetUserMedia = StopTracks 1%N.
Proof.
  apply (gesture_completes asciiLower Sample.world
           [{| b_type := opus; b_size := 4096 |}] initial 1%N); reflexivity.
Defined.

Lemma uploaded_clip_witness :
  transcriptionRequests
    (snd (gesture asciiLower Sample.world
            [{| b_type := opus; b_size := 4096 |};
             {| b_type := opus; b_size := 0 |};
             {| b_type := opus; b_size := 904 |}]
            (upd_selectedLanguage (lit "hi") initial))) =
  [(lit "/api/transcribe",
    (lit "file",
     EFile (clip_of Sample.world
              [{| b_type := opus; b_size := 4096 |};
               {| b_type := opus; b_size := 0 |};
               {| b_type := opus; b_size := 904 |}]))
    :: match language_field
               (selectedLanguage (upd_selectedLanguage (lit "hi") initial))
       with
       | Some e => [(lit "language", e)]
       | None => []
       end)].
Proof.
  apply (uploaded_clip asciiLower Sample.world _ _ 1%N); reflexivity.
Defined.

End RecordingWitnesses.

(* ================================================================== *)
(** * Further properties: voices, speech and reset *)
(* ================================================================== *)

Section VoiceMore.

Import Console Spec Props.

Variable toLowerCase : jsstring -> jsstring.

Local Abbreviation ml := (lang_has (lit "ml") toLowerCase).
Local Abbreviation hi := (lang_has (lit "hi") toLowerCase).
Local Abbreviation enIN := (lang_test (fun l => includes l (lit "en-IN"))).
Local Abbreviation en := (lang_test (fun l => startsWith l (lit "en"))).

(** [selectVoice] by cases on the scripts of the reply. *)
Lemma selectVoice_cases (reply : jsstring) (voices : list Voice) :
  selectVoice toLowerCase reply voices =
  match (if has_malayalam reply then find ml voices
         else if has_hindi reply then find hi voices
         else None) with
  | Some v => Some v
  | None => or_voice (find enIN voices) (find en voices)
  end.
Proof. reflexivity. Qed.

Lemma fallback_english (voices : list Voice) (v : Voice) :
  or_voice (find enIN voices) (find en voices) = Some v ->
  In v voices /\ english v = true.
Proof.
  unfold english. destruct (find enIN voices) as [a|] eqn:Ea;
    unfold or_voice.
  - intros [= <-]. apply find_some in Ea as [Hin Ht].
    split; [assumption|]. now rewrite Ht.
  - intros Eb. apply find_some in Eb as [Hin Ht].
    split; [assumption|]. rewrite Ht. apply orb_true_r.
Qed.

(** X24. The voice [selectVoice] picks is always one of the platform's
    voices, and one whose language fits: Malayalam, Hindi or English. For a
    reply without Malayalam or Devanagari characters it is an English voice;
    and no voice is picked only when the platform has no English voice. *)
Theorem voice_from_list (reply : jsstring) (voices : list Voice) :
  (forall v, selectVoice toLowerCase reply voices = Some v ->
     In v voices /\ (ml v = true \/ hi v = true \/ english v = true)) /\
  (has_malayalam reply = false -> has_hindi reply = false ->
   forall v, selectVoice toLowerCase reply voices = Some v ->
             english v = true) /\
  (selectVoice toLowerCase reply voices = None ->
   forall v, In v voices -> english v = false).
Proof.
  rewrite selectVoice_cases. split; [|split].
  - intros v.
    destruct (has_malayalam reply); [|destruct (has_hindi reply)].
    + destruct (find ml voices) as [a|] eqn:E.
      * intros [= <-]. apply find_some in E as [Hin Ht]. auto.
      * intros H. apply fallback_english in H as [Hin He]. auto.
    + destruct (find hi voices) as [a|] eqn:E.
      * intros [= <-]. apply find_some in E as [Hin Ht]. auto.
      * intros H. apply fallback_english in H as [Hin He]. auto.
    + intros H. apply fallback_english in H as [Hin He]. auto.
  - intros -> -> v H. now apply fallback_english in H.
  - intros H v Hin.
    assert (F : or_voice (find enIN voices) (find en voices) = None).
    { destruct (if has_malayalam reply then find ml voices
                else if has_hindi reply then find hi voices else None);
        [discriminate | exact H]. }
    unfold english.
    destruct (find enIN voices) as [a|] eqn:Ea; [discriminate|].
    unfold or_voice in F.
    rewrite (find_none _ _ Ea v Hin), (find_none _ _ F v Hin). reflexivity.
Qed.

(** X25. The order of preference: a reply with a Malayalam character
    gets the first voice whose language contains ml, also when it has
    Devanagari characters as well; without such a voice it gets the English
    fallback, never the Hindi voice. A reply with Devanagari and no
    Malayalam gets the first voice whose language contains hi. A reply with
    neither gets the first en-IN voice when there is one, before any other
    English voice. *)
Theorem voice_priority (reply : jsstring) (voices : list Voice) :
  (has_malayalam reply = true ->
   (forall v, find ml voices = Some v ->
              selectVoice toLowerCase reply voices = Some v) /\
   (find ml voices = None ->
    selectVoice toLowerCase reply voices
    = or_voice (find enIN voices) (find en voices))) /\
  (has_malayalam reply = false -> has_hindi reply = true ->
   forall v, find hi voices = Some v ->
             selectVoice toLowerCase reply voices = Some v) /\
  (has_malayalam reply = false -> has_hindi reply = false ->
   forall v, find enIN voices = Some v ->
             selectVoice toLowerCase reply voices = Some v).
Proof.
  rewrite selectVoice_cases. split; [|split].
  - intros ->. split; [intros v -> | intros ->]; reflexivity.
  - intros -> -> v ->. reflexivity.
  - intros -> -> v ->. reflexivity.
Qed.

Variable world : World.

Lemma speak_keeps {X} (f : State -> X) :
  (forall b s, f (upd_isPlaying b s) = f s) ->
  (forall u s, f (upd_utteranceRef u s) = f s) ->
  keeps f (speakEffect toLowerCase world).
Proof.
  intros H1 H2. unfold speakEffect. unfold_setters.
  repeat first [ apply keeps_modify; solve [auto] | keep_step ].
Qed.

Lemma speak_safe : safe (speakEffect toLowerCase world).
Proof. unfold speakEffect. safely. Qed.

(** X26. The speech effect never throws and never touches the turn: the
    error, the reply, the transcript and the recording state are as before.
    With an empty reply or without a speech engine it does nothing at all;
    when the utterance cannot be built it only logs the exception, says
    nothing and leaves [isPlaying] as it was. *)
Theorem speech_failure_is_silent (s : State) :
  let out := speakEffect toLowerCase world s in
  fst (fst out) = Ret tt /\
  error (snd (fst out)) = error s /\
  reply (snd (fst out)) = reply s /\
  transcript (snd (fst out)) = transcript s /\
  same_recording s (snd (fst out)) /\
  (truthy (reply s) = false \/ hasSpeechSynthesis world = false ->
   out = (Ret tt, s, [])) /\
  (forall e, truthy (reply s) = true -> hasSpeechSynthesis world = true ->
             newUtterance world = Some e ->
             out = (Ret tt, s, [ConsoleError e])).
Proof.
  intros out. subst out.
  split; [destruct (speak_safe s) as [[] H]; exact H|].
  split; [apply (speak_keeps error); reflexivity|].
  split; [apply (speak_keeps reply); reflexivity|].
  split; [apply (speak_keeps transcript); reflexivity|].
  split.
  { unfold same_recording. repeat split;
      match goal with
      | |- ?f (snd (fst _)) = ?f _ => apply (speak_keeps f); reflexivity
      end. }
  unfold speakEffect, try_catch. unfold_setters.
  unfold bind, get, emit, modify, ret, throw. split.
  - intros [H|H].
    + rewrite H. reflexivity.
    + rewrite H. destruct (truthy (reply s)); reflexivity.
  - intros e Ht Hs Hn. rewrite Ht, Hs, Hn. reflexivity.
Qed.

(** X27. Reset clears the transcript, the reply, the error and the
    explanation flag, leaves IVR mode, cancels whatever is being spoken and
    clears [isPlaying]; it does not stop a recording in progress, whose
    state, recorder and stream are untouched. On a platform without a speech
    engine the handler throws at the cancel: the turn is cleared but
    [isPlaying] is left as it was. *)
Theorem reset_clears_turn (s : State) (q : list Utterance) :
  let out := handleReset world s in
  let s' := snd (fst out) in
  transcript s' = VString [] /\ reply s' = VString [] /\
  error s' = None /\ showExplanation s' = false /\ isIVRMode s' = false /\
  same_recording s s' /\
  existsb is_stop (snd out) = false /\
  existsb is_recorder_stop (snd out) = false /\
  (hasSpeechSynthesis world = true ->
   fst (fst out) = Ret tt /\ isPlaying s' = false /\
   synth_after q (snd out) = []) /\
  (hasSpeechSynthesis world = false ->
   (exists e, fst (fst out) = Throw e) /\ isPlaying s' = isPlaying s /\
   synth_after q (snd out) = q).
Proof.
  intros out s'. subst s' out. unfold handleReset. unfold_setters.
  unfold bind, emit, modify, ret, throw.
  destruct (hasSpeechSynthesis world); simpl;
    repeat split; try discriminate; try reflexivity.
  eexists. reflexivity.
Qed.

End VoiceMore.

Section VoiceWitnesses.

Import Console Spec Props.

Lemma voice_from_list_witness :
  english {| v_name := lit "Rishi"; v_lang := Some (lit "en-IN") |} = true.
Proof.
  destruct (voice_from_list asciiLower (lit "Refill scheduled")
              Sample2.voices_india) as (_ & H & _).
  apply H; vm_compute; reflexivity.
Defined.

Lemma voice_priority_witness :
  selectVoice asciiLower (lit "വെള്ളം पानी water") Sample2.voices_india
  = Some {| v_name := lit "Malayalam India"; v_lang := Some (lit "ml-IN") |}.
Proof.
  destruct (voice_priority asciiLower (lit "വെള്ളം पानी water")
              Sample2.voices_india) as (H & _).
  destruct H as [H _]; [vm_compute; reflexivity|].
  apply H. vm_compute. reflexivity.
Defined.

Lemma speech_failure_is_silent_witness :
  speakEffect asciiLower Sample2.world_mute Sample.playing.(comp)
  = (Ret tt, Sample.playing.(comp), []).
Proof.
  destruct (speech_failure_is_silent asciiLower Sample2.world_mute
              Sample.playing.(comp)) as (_ & _ & _ & _ & _ & H & _).
  apply H. right. reflexivity.
Defined.

Lemma reset_clears_turn_witness :
  synth_after Sample.playing.(queue)
    (snd (handleReset Sample.world Sample.playing.(comp))) = [] /\
  isPlaying (snd (fst (handleReset Sample.world Sample.playing.(comp))))
    = false.
Proof.
  destruct (reset_clears_turn Sample.world Sample.playing.(comp)
              Sample.playing.(queue))
    as (_ & _ & _ & _ & _ & _ & _ & _ & H & _).
  destruct (H eq_refl) as (_ & H1 & H2). split; [exact H2 | exact H1].
Defined.

End VoiceWitnesses.

(* ================================================================== *)
(** * Further properties: an invariant of the component *)
(* ================================================================== *)

Section RecordingInvariant.

Import Console Spec Props.

Variable toLowerCase : jsstring -> jsstring.

Ltac kept_by_handler :=
  unfold ondataavailable, onstop, onend, handleReset;
  unfold_setters;
  repeat first
    [ apply (send_keeps toLowerCase); intros; reflexivity
    | apply (speak_keeps toLowerCase); intros; reflexivity
    | keep_step ].

(** Only a press or a release changes the recording state and the refs
    of the recorder and the stream. *)
Lemma handler_keeps_recording (w : World) (a : Action) :
  a <> Press -> a <> Release ->
  keeps isRecording (handler toLowerCase w a) /\
  keeps mediaRecorderRef (handler toLowerCase w a) /\
  keeps streamRef (handler toLowerCase w a).
Proof.
  intros H1 H2. destruct a; try congruence; simpl;
    (split; [|split]); kept_by_handler.
Qed.

Lemma startRecording_equipped (w : World) (s : State) :
  equipped s -> equipped (snd (fst (startRecording w s))).
Proof.
  intros H. destruct (getUserMedia w) as [e|stream] eqn:Hg.
  - rewrite (startRecording_denied w s e Hg). exact H.
  - destruct (newMediaRecorder w) as [e|] eqn:Hr.
    + rewrite (startRecording_no_recorder w s stream e Hg Hr).
      intros Hi. destruct (H Hi) as [Hm _].
      split; [exact Hm | now exists stream].
    + rewrite (startRecording_granted w s stream Hg Hr).
      intros _. split; eexists; reflexivity.
Qed.

Lemma stopRecording_equipped (s : State) :
  equipped s -> equipped (snd (fst (stopRecording s))).
Proof.
  intros H. destruct (mediaRecorderRef s) as [r|] eqn:Hr;
    [destruct (isRecording s) eqn:Hi|].
  - rewrite (stopRecording_active s r Hi Hr). intros E. discriminate.
  - rewrite (stopRecording_idle s (or_introl Hi)). exact H.
  - rewrite (stopRecording_idle s (or_intror Hr)). exact H.
Qed.

Lemma step_equipped (sys : System) (wa : World * Action) :
  equipped (comp sys) -> equipped (comp (step toLowerCase sys wa)).
Proof.
  intros H. destruct wa as [w a]. unfold step. simpl fst. simpl snd.
  assert (E : comp (match handler toLowerCase w a (comp sys) with
                    | (_, s', tr) =>
                        {| comp := s';
                           queue := synth_after
                                      (match a with
                                       | UtteranceEnded => tl (queue sys)
                                       | _ => queue sys
                                       end) tr |}
                    end)
              = snd (fst (handler toLowerCase w a (comp sys)))).
  { destruct (handler toLowerCase w a (comp sys)) as [[r s'] tr].
    reflexivity. }
  rewrite E.
  assert (C : a = Press \/ a = Release \/ (a <> Press /\ a <> Release))
    by (destruct a; auto; right; right; split; discriminate).
  destruct C as [->|[->|[H1 H2]]].
  - apply startRecording_equipped, H.
  - apply stopRecording_equipped, H.
  - destruct (handler_keeps_recording w a H1 H2) as (Ki & Km & Ks).
    unfold equipped. rewrite (Ki (comp sys)), (Km (comp sys)), (Ks (comp sys)).
    exact H.
Qed.

Lemma run_equipped (acts : list (World * Action)) (sys : System) :
  equipped (comp sys) -> equipped (comp (run toLowerCase acts sys)).
Proof.
  unfold run. revert sys. induction acts as [|wa acts IH]; intros sys H.
  - exact H.
  - simpl. apply IH. now apply step_equipped.
Qed.

(** X28. Over every sequence of gestures, recorder events, commits and
    resets from the freshly mounted component, [isRecording] holds only
    while a recorder and a stream are in the refs; hence a release while
    recording always stops a recorder and clears [isRecording], the test on
    the recorder ref never being the one that fails. *)
Theorem release_always_stops (acts : list (World * Action)) :
  let s := comp (run toLowerCase acts {| comp := initial; queue := [] |}) in
  equipped s /\
  (isRecording s = true ->
   exists r, stopRecording s =
             (Ret tt, upd_isRecording false s,
              [RecorderStop r; SetIsRecording false])).
Proof.
  intros s.
  assert (H : equipped s).
  { apply run_equipped. intros E. discriminate. }
  split; [exact H|]. intros Hi. destruct (H Hi) as [[r Hr] _].
  exists r. now apply stopRecording_active.
Qed.

End RecordingInvariant.

Lemma release_always_stops_witness :
  let s := Console.comp
             (Console.run asciiLower
                [(Sample.world, Console.Press);
                 (Sample.world, Console.Reset)]
                {| Console.comp := Console.initial; Console.queue := [] |}) in
  exists r, Console.stopRecording s =
            (Console.Ret tt, Console.upd_isRecording false s,
             [Console.RecorderStop r; Console.SetIsRecording false]).
Proof.
  intros s.
  destruct (release_always_stops asciiLower
              [(Sample.world, Console.Press); (Sample.world, Console.Reset)])
    as [_ H].
  apply H. vm_compute. reflexivity.
Defined.

(* ================================================================== *)
(** * Further properties: the language selector and the route *)
(* ================================================================== *)

Section SelectorMore.

Import Console Spec Props.

Variable toLowerCase : jsstring -> jsstring.


End SelectorMore.

